(** * plaid-go: response decoding, error model and request envelopes

    A shallow embedding of the Go package [plaid] and the properties of
    its decoding layer.

    - [plaid.go]: the response structs, [unmarshalPostMFA] and the calls
      [postAndUnmarshal], [patchAndUnmarshal] and [deleteAndUnmarshal];
    - [transactions.go]: [Transactions] and its request envelope;
    - [errors.go]: [plaidError] and its [Error] method;
    - [institutions.go]: [GetInstitutionById].

    The package leans on the Go standard library, which is modelled here
    as far as the package uses it: [unicode/utf8] ([DecodeRune],
    [EncodeRune], [ValidString]), [strconv] ([FormatInt], [ParseInt],
    [ParseFloat] on decimal literals), and [encoding/json]: the syntax of
    JSON texts with the limits of the scanner, the decoding of string
    literals, the storing of a value into a Go variable by its struct tags,
    and the encoding of strings and integers.  The network is a function
    from requests to responses.

    Go strings and byte slices are byte sequences: they are modelled by
    [string], whose characters are the 256 values of [ascii].  Go's [int]
    is the 64-bit one, modelled by [Z]; [float64] and [float32] are
    [spec_float] rounded to 53 and 24 bits.  A pointer result is an
    [option], [None] for [nil]. *)

From Stdlib Require Import ZArith NArith List String Ascii Bool Lia.
From Stdlib Require Import DecimalString DecimalZ DecimalPos DecimalN DecimalFacts.
From Stdlib Require Import SpecFloat.
Import ListNotations.

Local Open Scope Z_scope.

Declare Scope gostr_scope.
Delimit Scope gostr_scope with gostr.
Infix "+++" := String.append (right associativity, at level 60) : gostr_scope.
Local Open Scope gostr_scope.

(** The numeric value of a byte, and the byte of a value in [0, 256). *)
Definition b2z (c : ascii) : Z := Z.of_N (N_of_ascii c).
Definition z2b (z : Z) : ascii := ascii_of_N (Z.to_N z).

(** The quotation mark. *)
Definition dquote : ascii := "034"%char.

(** JSON texts are written below with an apostrophe wherever the text has a
    quotation mark: [js "{'a':'b'}"] is the text of the object whose
    member [a] is the string [b]. *)
Fixpoint js (s : string) : string :=
  match s with
  | EmptyString => EmptyString
  | String c s' => String (if Ascii.eqb c "'" then dquote else c) (js s')
  end.

(** [s[n:]] for [n <= len(s)]. *)
Fixpoint drop (n : nat) (s : string) : string :=
  match n, s with
  | S n', String _ s' => drop n' s'
  | _, _ => s
  end.

(** [s[:n]] for [n <= len(s)]. *)
Fixpoint take (n : nat) (s : string) : string :=
  match n, s with
  | S n', String c s' => String c (take n' s')
  | _, _ => EmptyString
  end.

(* ================================================================= *)
(** ** unicode/utf8 *)

Module utf8.

Definition RuneError : Z := 65533.        (* U+FFFD *)
Definition MaxRune : Z := 1114111.        (* U+10FFFF *)
Definition RuneSelf : Z := 128.
Definition surrogateMin : Z := 55296.     (* 0xD800 *)
Definition surrogateMax : Z := 57343.     (* 0xDFFF *)

(** The [first] table of the package: what the first byte of a sequence
    announces.  [Lead size lo hi] is a leading byte of a [size]-byte
    sequence whose second byte must lie in [lo, hi] (the [acceptRanges]). *)
Inductive first_info : Type :=
| AsciiByte
| InvalidByte
| Lead (size : nat) (lo hi : Z).

Definition first (p0 : Z) : first_info :=
  if p0 <? 128 then AsciiByte
  else if p0 <? 194 then InvalidByte                      (* 0x80..0xC1 *)
  else if p0 <? 224 then Lead 2 128 191                   (* 0xC2..0xDF *)
  else if p0 =? 224 then Lead 3 160 191                   (* 0xE0 *)
  else if p0 =? 237 then Lead 3 128 159                   (* 0xED *)
  else if p0 <? 240 then Lead 3 128 191                   (* 0xE1..0xEF *)
  else if p0 =? 240 then Lead 4 144 191                   (* 0xF0 *)
  else if p0 <? 244 then Lead 4 128 191                   (* 0xF1..0xF3 *)
  else if p0 =? 244 then Lead 4 128 143                   (* 0xF4 *)
  else InvalidByte.                                       (* 0xF5..0xFF *)

Definition cont (b : Z) : bool := (128 <=? b) && (b <=? 191).

(** [utf8.DecodeRune]: the first rune of [p] and its width in bytes;
    [(RuneError, 0)] on empty input and [(RuneError, 1)] on an invalid
    encoding. *)
Definition DecodeRune (p : string) : Z * nat :=
  match p with
  | EmptyString => (RuneError, 0%nat)
  | String c0 p1 =>
    let p0 := b2z c0 in
    match first p0 with
    | AsciiByte => (p0, 1%nat)
    | InvalidByte => (RuneError, 1%nat)
    | Lead sz lo hi =>
      match p1 with
      | EmptyString => (RuneError, 1%nat)
      | String c1 p2 =>
        let b1 := b2z c1 in
        if (b1 <? lo) || (hi <? b1) then (RuneError, 1%nat)
        else if (sz <=? 2)%nat then ((p0 - 192) * 64 + (b1 - 128), 2%nat)
        else
          match p2 with
          | EmptyString => (RuneError, 1%nat)
          | String c2 p3 =>
            let b2 := b2z c2 in
            if negb (cont b2) then (RuneError, 1%nat)
            else if (sz <=? 3)%nat
            then ((p0 - 224) * 4096 + (b1 - 128) * 64 + (b2 - 128), 3%nat)
            else
              match p3 with
              | EmptyString => (RuneError, 1%nat)
              | String c3 _ =>
                let b3 := b2z c3 in
                if negb (cont b3) then (RuneError, 1%nat)
                else ((p0 - 240) * 262144 + (b1 - 128) * 4096
                      + (b2 - 128) * 64 + (b3 - 128), 4%nat)
              end
          end
      end
    end
  end.

Definition str1 (a : Z) : string := String (z2b a) EmptyString.
Definition str2 (a b : Z) : string := String (z2b a) (str1 b).
Definition str3 (a b c : Z) : string := String (z2b a) (str2 b c).
Definition str4 (a b c d : Z) : string := String (z2b a) (str3 b c d).

(** [utf8.EncodeRune] / [utf8.AppendRune]: the UTF-8 encoding of [r];
    negative values, surrogates and values above [MaxRune] are encoded as
    [RuneError]. *)
Definition EncodeRune (r : Z) : string :=
  if (0 <=? r) && (r <? 128) then str1 r
  else if (0 <=? r) && (r <? 2048) then str2 (192 + r / 64) (128 + r mod 64)
  else if (r <? 0) || (MaxRune <? r) || ((surrogateMin <=? r) && (r <=? surrogateMax))
  then str3 239 191 189
  else if r <? 65536
  then str3 (224 + r / 4096) (128 + (r / 64) mod 64) (128 + r mod 64)
  else str4 (240 + r / 262144) (128 + (r / 4096) mod 64)
            (128 + (r / 64) mod 64) (128 + r mod 64).

(** [utf8.ValidString], by fuel on the length of the string. *)
Fixpoint valid_fuel (fuel : nat) (s : string) : bool :=
  match s with
  | EmptyString => true
  | String _ _ =>
    match fuel with
    | O => false
    | S fuel' =>
      let '(r, size) := DecodeRune s in
      if (r =? RuneError) && (size =? 1)%nat then false
      else valid_fuel fuel' (drop size s)
    end
  end.

Definition ValidString (s : string) : bool := valid_fuel (String.length s) s.

End utf8.

(** The conversion [string(i)] of an integer [i]: the UTF-8 encoding of the
    code point [i], and of U+FFFD when [i] is not a valid code point. *)
Definition string_of_int_conv (i : Z) : string := utf8.EncodeRune i.

(* ================================================================= *)
(** ** strconv *)

Module strconv.

Definition minInt64 : Z := - 2 ^ 63.
Definition maxInt64 : Z := 2 ^ 63 - 1.

Definition isDigit (c : ascii) : bool := (48 <=? b2z c) && (b2z c <=? 57).

(** [strconv.FormatInt(i, 10)] / [strconv.Itoa]: decimal digits without
    leading zeros, ["-"] in front of a negative number. *)
Definition FormatInt (i : Z) : string := NilZero.string_of_int (Z.to_int i).

(** [strconv.ParseInt(s, 10, 64)]: an optional sign followed by one or more
    decimal digits, the value within the range of [int64]. *)
Definition ParseInt (s : string) : option Z :=
  let v :=
    match s with
    | EmptyString => None
    | String c s' =>
      if Ascii.eqb c "+" then option_map Z.of_uint (NilZero.uint_of_string s')
      else option_map Z.of_int (NilZero.int_of_string s)
    end in
  match v with
  | Some z => if (minInt64 <=? z) && (z <=? maxInt64) then Some z else None
  | None => None
  end.

(** The longest prefix of decimal digits of [s], and what follows it. *)
Fixpoint span_digits (s : string) : string * string :=
  match s with
  | String c s' =>
    if isDigit c then let '(d, r) := span_digits s' in (String c d, r)
    else (EmptyString, s)
  | EmptyString => (EmptyString, EmptyString)
  end.

Definition digits_value (d : string) : Z :=
  match NilEmpty.uint_of_string d with
  | Some u => Z.of_uint u
  | None => 0
  end.

(** A decimal literal [-? digits (. digits)? ([eE] [+-]? digits)?] read as
    [(negative, m, e)], standing for the number [m * 10 ^ e]. *)
Definition decimal_of_literal (s : string) : bool * Z * Z :=
  let '(neg, s0) :=
    match s with
    | String c s' => if Ascii.eqb c "-" then (true, s') else (false, s)
    | EmptyString => (false, s)
    end in
  let '(ip, s1) := span_digits s0 in
  let '(fp, s2) :=
    match s1 with
    | String c s' => if Ascii.eqb c "." then span_digits s' else (EmptyString, s1)
    | EmptyString => (EmptyString, s1)
    end in
  let ex :=
    match s2 with
    | String c s' =>
      if Ascii.eqb c "e" || Ascii.eqb c "E" then
        match s' with
        | String sg s'' =>
          if Ascii.eqb sg "-" then - digits_value (fst (span_digits s''))
          else if Ascii.eqb sg "+" then digits_value (fst (span_digits s''))
          else digits_value (fst (span_digits s'))
        | EmptyString => 0
        end
      else 0
    | EmptyString => 0
    end in
  (neg, digits_value (ip +++ fp), ex - Z.of_nat (String.length fp)).

(** The binary floating-point number nearest to [m * 10 ^ e] (ties to
    even) in the format of precision [prec] and exponent bound [emax]. *)
Definition round_decimal (prec emax : Z) (neg : bool) (m e : Z) : spec_float :=
  match m with
  | Zpos p =>
    if 0 <=? e then binary_round prec emax neg (p * Z.to_pos (10 ^ e)) 0
    else
      let '(q, e', l) := SFdiv_core_binary prec emax (Zpos p) 0 (10 ^ (- e)) 0 in
      binary_round_aux prec emax neg q e' l
  | _ => S754_zero neg
  end.

(** [strconv.ParseFloat(s, 64)] on a decimal literal: [None] stands for the
    range error returned when the nearest float is infinite. *)
Definition ParseFloat64 (s : string) : option spec_float :=
  let '(neg, m, e) := decimal_of_literal s in
  match round_decimal 53 1024 neg m e with
  | S754_infinity _ => None
  | f => Some f
  end.

End strconv.

(* ================================================================= *)
(** ** encoding/json: syntax *)

Module json.

(** A JSON text as a tree.  An object keeps its members in the order of
    the text, duplicates included; a number keeps its literal. *)
#[warning="-register-all"]
Inductive value : Type :=
| Null
| Bool (b : bool)
| Number (lit : string)
| Str (s : string)
| Array (elems : list value)
| Object (members : list (string * value)).

(** The outcome of reading a prefix of the input: the item read and the
    input left, a syntax error, or the recursion budget exhausted. *)
Inductive res (A : Type) : Type :=
| Done (a : A) (rest : string)
| Fail
| OutOfFuel.
Arguments Done {A} a rest.
Arguments Fail {A}.
Arguments OutOfFuel {A}.

Definition rmap {A B : Type} (f : A -> B) (r : res A) : res B :=
  match r with
  | Done a rest => Done (f a) rest
  | Fail => Fail
  | OutOfFuel => OutOfFuel
  end.

Definition maxNestingDepth : Z := 10000.

Definition isSpace (c : ascii) : bool :=
  Ascii.eqb c " " || Ascii.eqb c "009" || Ascii.eqb c "013" || Ascii.eqb c "010".

Fixpoint skip_ws (s : string) : string :=
  match s with
  | String c s' => if isSpace c then skip_ws s' else s
  | EmptyString => s
  end.

Definition hexval (c : ascii) : option Z :=
  let b := b2z c in
  if (48 <=? b) && (b <=? 57) then Some (b - 48)
  else if (97 <=? b) && (b <=? 102) then Some (b - 87)
  else if (65 <=? b) && (b <=? 70) then Some (b - 55)
  else None.

(** Four hexadecimal digits at the head of [s]. *)
Definition hex4 (s : string) : option (Z * string) :=
  match s with
  | String a (String b (String c (String d rest))) =>
    match hexval a, hexval b, hexval c, hexval d with
    | Some x, Some y, Some z, Some w => Some (x * 4096 + y * 256 + z * 16 + w, rest)
    | _, _, _, _ => None
    end
  | _ => None
  end.

(** [getu4]: the rune of a [\uXXXX] escape at the head of [s]. *)
Definition getu4 (s : string) : option (Z * string) :=
  match s with
  | String a (String b rest) =>
    if Ascii.eqb a "\" && Ascii.eqb b "u" then hex4 rest else None
  | _ => None
  end.

(** [utf16.IsSurrogate] and [utf16.DecodeRune]. *)
Definition IsSurrogate (r : Z) : bool := (55296 <=? r) && (r <? 57344).

Definition utf16_DecodeRune (r1 r2 : Z) : Z :=
  if (55296 <=? r1) && (r1 <? 56320) && (56320 <=? r2) && (r2 <? 57344)
  then (r1 - 55296) * 1024 + (r2 - 56320) + 65536
  else utf8.RuneError.

(** The character of a one-letter escape. *)
Definition simple_escape (e : ascii) : option ascii :=
  if Ascii.eqb e dquote then Some dquote
  else if Ascii.eqb e "\" then Some "\"%char
  else if Ascii.eqb e "/" then Some "/"%char
  else if Ascii.eqb e "b" then Some "008"%char
  else if Ascii.eqb e "f" then Some "012"%char
  else if Ascii.eqb e "n" then Some "010"%char
  else if Ascii.eqb e "r" then Some "013"%char
  else if Ascii.eqb e "t" then Some "009"%char
  else None.

(** The body of a string literal, read from just after the opening quote
    up to and including the closing quote, with the value it denotes: the
    scanner's string states together with [unquote].  Escapes are
    replaced by the characters they stand for, a surrogate pair by its
    code point, a lone surrogate and every byte that does not start a
    valid UTF-8 sequence by U+FFFD; control characters are refused. *)
Fixpoint scan_string (fuel : nat) (s : string) : res string :=
  match fuel with
  | O => OutOfFuel
  | S fuel' =>
    match s with
    | EmptyString => Fail
    | String c s' =>
      if Ascii.eqb c dquote then Done EmptyString s'
      else if Ascii.eqb c "\" then
        match s' with
        | EmptyString => Fail
        | String e s'' =>
          if Ascii.eqb e "u" then
            match hex4 s'' with
            | None => Fail
            | Some (rr, s3) =>
              if IsSurrogate rr then
                match getu4 s3 with
                | Some (rr1, s4) =>
                  let dec := utf16_DecodeRune rr rr1 in
                  if negb (dec =? utf8.RuneError)
                  then rmap (String.append (utf8.EncodeRune dec)) (scan_string fuel' s4)
                  else rmap (String.append (utf8.EncodeRune utf8.RuneError))
                            (scan_string fuel' s3)
                | None => rmap (String.append (utf8.EncodeRune utf8.RuneError))
                               (scan_string fuel' s3)
                end
              else rmap (String.append (utf8.EncodeRune rr)) (scan_string fuel' s3)
            end
          else
            match simple_escape e with
            | Some x => rmap (String x) (scan_string fuel' s'')
            | None => Fail
            end
        end
      else if b2z c <? 32 then Fail
      else if b2z c <? utf8.RuneSelf then rmap (String c) (scan_string fuel' s')
      else
        let '(rr, size) := utf8.DecodeRune s in
        rmap (String.append (utf8.EncodeRune rr)) (scan_string fuel' (drop size s))
    end
  end.

(** A string literal whose opening quote has been read. *)
Definition string_lit (s : string) : res string :=
  scan_string (S (String.length s)) s.

(** A number literal at the head of [s], and what follows it: an optional
    minus sign; a zero, or a non-zero digit and any digits; optionally a
    point and one or more digits; optionally [e] or [E], an optional sign
    and one or more digits. *)
Definition number_lit (s : string) : res string :=
  let '(sign, s0) :=
    match s with
    | String c s' => if Ascii.eqb c "-" then ("-"%string, s') else (EmptyString, s)
    | EmptyString => (EmptyString, s)
    end in
  match s0 with
  | EmptyString => Fail
  | String c s1 =>
    if negb (strconv.isDigit c) then Fail
    else
      let '(ip, s2) :=
        if Ascii.eqb c "0" then ("0"%string, s1)
        else let '(d, r) := strconv.span_digits s1 in (String c d, r) in
      let frac :=
        match s2 with
        | String d s3 =>
          if Ascii.eqb d "." then
            match strconv.span_digits s3 with
            | (EmptyString, _) => None
            | (fd, r) => Some (String "." fd, r)
            end
          else Some (EmptyString, s2)
        | EmptyString => Some (EmptyString, s2)
        end in
      match frac with
      | None => Fail
      | Some (fp, s4) =>
        let expo :=
          match s4 with
          | String e s5 =>
            if Ascii.eqb e "e" || Ascii.eqb e "E" then
              let '(sg, s6) :=
                match s5 with
                | String g s' =>
                  if Ascii.eqb g "+" || Ascii.eqb g "-"
                  then (String g EmptyString, s') else (EmptyString, s5)
                | EmptyString => (EmptyString, s5)
                end in
              match strconv.span_digits s6 with
              | (EmptyString, _) => None
              | (ed, r) => Some (String e (sg +++ ed), r)
              end
            else Some (EmptyString, s4)
          | EmptyString => Some (EmptyString, s4)
          end in
        match expo with
        | None => Fail
        | Some (ep, s7) => Done (sign +++ ip +++ fp +++ ep) s7
        end
      end
  end.

(** [s] if [s] starts with [p], without that prefix. *)
Fixpoint strip_prefix (p s : string) : option string :=
  match p with
  | EmptyString => Some s
  | String a p' =>
    match s with
    | String b s' => if Ascii.eqb a b then strip_prefix p' s' else None
    | EmptyString => None
    end
  end.

Definition literal (p : string) (v : value) (s : string) : res value :=
  match strip_prefix p s with
  | Some rest => Done v rest
  | None => Fail
  end.

(** One JSON value at the head of [s] (white space before it already
    skipped), inside [depth] open arrays and objects. *)
Fixpoint parse_value (fuel : nat) (depth : Z) (s : string) {struct fuel} : res value :=
  match fuel with
  | O => OutOfFuel
  | S fuel' =>
    match s with
    | EmptyString => Fail
    | String c s' =>
      if Ascii.eqb c "{" then
        if maxNestingDepth <? depth + 1 then Fail
        else
          match skip_ws s' with
          | String c1 r1 =>
            if Ascii.eqb c1 "}" then Done (Object []) r1
            else rmap Object (parse_members fuel' (depth + 1) (String c1 r1))
          | EmptyString => Fail
          end
      else if Ascii.eqb c "[" then
        if maxNestingDepth <? depth + 1 then Fail
        else
          match skip_ws s' with
          | String c1 r1 =>
            if Ascii.eqb c1 "]" then Done (Array []) r1
            else rmap Array (parse_elements fuel' (depth + 1) (String c1 r1))
          | EmptyString => Fail
          end
      else if Ascii.eqb c dquote then rmap Str (string_lit s')
      else if Ascii.eqb c "-" || strconv.isDigit c then rmap Number (number_lit s)
      else if Ascii.eqb c "t" then literal "true" (Bool true) s
      else if Ascii.eqb c "f" then literal "false" (Bool false) s
      else if Ascii.eqb c "n" then literal "null" Null s
      else Fail
    end
  end

(** The members of an object from its first key to the closing brace. *)
with parse_members (fuel : nat) (depth : Z) (s : string) {struct fuel}
  : res (list (string * value)) :=
  match fuel with
  | O => OutOfFuel
  | S fuel' =>
    match s with
    | EmptyString => Fail
    | String q s1 =>
      if negb (Ascii.eqb q dquote) then Fail
      else
        match string_lit s1 with
        | Done k r1 =>
          match skip_ws r1 with
          | String c2 r2 =>
            if negb (Ascii.eqb c2 ":") then Fail
            else
              match parse_value fuel' depth (skip_ws r2) with
              | Done v r3 =>
                match skip_ws r3 with
                | String c4 r4 =>
                  if Ascii.eqb c4 "}" then Done [(k, v)] r4
                  else if Ascii.eqb c4 "," then
                    rmap (cons (k, v)) (parse_members fuel' depth (skip_ws r4))
                  else Fail
                | EmptyString => Fail
                end
              | Fail => Fail
              | OutOfFuel => OutOfFuel
              end
          | EmptyString => Fail
          end
        | Fail => Fail
        | OutOfFuel => OutOfFuel
        end
    end
  end

(** The elements of an array from its first element to the closing
    bracket. *)
with parse_elements (fuel : nat) (depth : Z) (s : string) {struct fuel}
  : res (list value) :=
  match fuel with
  | O => OutOfFuel
  | S fuel' =>
    match parse_value fuel' depth s with
    | Done v r1 =>
      match skip_ws r1 with
      | String c2 r2 =>
        if Ascii.eqb c2 "]" then Done [v] r2
        else if Ascii.eqb c2 "," then
          rmap (cons v) (parse_elements fuel' depth (skip_ws r2))
        else Fail
      | EmptyString => Fail
      end
    | Fail => Fail
    | OutOfFuel => OutOfFuel
    end
  end.

Definition parse_fuel (s : string) : nat := S (S (2 * String.length s)).

(** [checkValid] and the reading of the whole text: one value between
    optional white space, or [None] for a syntax error. *)
Definition parse (data : string) : res value :=
  match parse_value (parse_fuel data) 0 (skip_ws data) with
  | Done v rest =>
    match skip_ws rest with
    | EmptyString => Done v EmptyString
    | String _ _ => Fail
    end
  | Fail => Fail
  | OutOfFuel => OutOfFuel
  end.

(* ----------------------------------------------------------------- *)
(** *** Encoding *)

Definition hexdigit (n : Z) : ascii :=
  if n <? 10 then z2b (48 + n) else z2b (87 + n).

(** [htmlSafeSet]: the ASCII characters written as they are. *)
Definition htmlSafe (c : ascii) : bool :=
  (32 <=? b2z c) && (b2z c <? 128)
  && negb (Ascii.eqb c dquote) && negb (Ascii.eqb c "\")
  && negb (Ascii.eqb c "<") && negb (Ascii.eqb c ">") && negb (Ascii.eqb c "&").

(** The escape written for an ASCII character outside [htmlSafeSet].
    (From Go 1.22 on, backspace and form feed have the short escapes of
    JSON as well; the decoder reads both forms alike.) *)
Definition escape_ascii (c : ascii) : string :=
  if Ascii.eqb c "\" || Ascii.eqb c dquote then String "\" (String c EmptyString)
  else if Ascii.eqb c "010" then "\n"%string
  else if Ascii.eqb c "013" then "\r"%string
  else if Ascii.eqb c "009" then "\t"%string
  else "\u00"%string +++ String (hexdigit (b2z c / 16))
                          (String (hexdigit (b2z c mod 16)) EmptyString).

(** The characters written between the quotes for the Go string [s], as
    [encodeState.string] does with HTML escaping on, the setting of
    [json.Marshal]: bytes that do not start a valid UTF-8 sequence become
    the escape of U+FFFD, and U+2028 and U+2029 are escaped.  (An encoder
    that writes the three bytes of U+FFFD in the place of the escape
    gives a text that the decoder reads alike.) *)
Fixpoint quote_body (fuel : nat) (s : string) : string :=
  match fuel with
  | O => EmptyString
  | S fuel' =>
    match s with
    | EmptyString => EmptyString
    | String c s' =>
      if b2z c <? utf8.RuneSelf then
        (if htmlSafe c then String c EmptyString else escape_ascii c)
        +++ quote_body fuel' s'
      else
        let '(r, size) := utf8.DecodeRune s in
        if (r =? utf8.RuneError) && (size =? 1)%nat
        then "\ufffd"%string +++ quote_body fuel' (drop size s)
        else if (r =? 8232) || (r =? 8233)
        then "\u202"%string +++ String (hexdigit (r mod 16)) (quote_body fuel' (drop size s))
        else take size s +++ quote_body fuel' (drop size s)
    end
  end.

(** The name of a member as a struct encoder writes it, with its colon;
    the names here need no escape. *)
Definition member (name : string) : string :=
  String dquote (name +++ String dquote ":").

(** The JSON string literal for the Go string [s]. *)
Definition quote (s : string) : string :=
  String dquote (quote_body (String.length s) s +++ String dquote EmptyString).

(* ----------------------------------------------------------------- *)
(** *** Decoding *)

(** The errors of [Unmarshal]: [*json.SyntaxError], and
    [*json.UnmarshalTypeError] with its description [Value] of the JSON
    value that could not be stored.  The offsets, the message of a syntax
    error and the Go type and field of a type error are left out. *)
Inductive error : Type :=
| SyntaxError
| UnmarshalTypeError (Value : string).

(** [decodeState.saveError] keeps the first error. *)
Definition saveError (saved new : option error) : option error :=
  match saved with
  | Some _ => saved
  | None => new
  end.

(** A value of type [interface{}] as the decoder builds it: [nil], [bool],
    [float64], [string], [[]interface{}] or [map[string]interface{}]. *)
#[warning="-register-all"]
Inductive any : Type :=
| Anil
| Abool (b : bool)
| Afloat64 (f : spec_float)
| Astring (s : string)
| Aslice (elems : list any)
| Amap (m : list (string * any)).

(** [m[k] = x] and [m[k]] on a map kept as a list of bindings with
    distinct keys; a missing key reads as [nil]. *)
Fixpoint map_insert (k : string) (x : any) (m : list (string * any))
  : list (string * any) :=
  match m with
  | [] => [(k, x)]
  | (k', y) :: m' =>
    if String.eqb k k' then (k, x) :: m' else (k', y) :: map_insert k x m'
  end.

Fixpoint map_index (m : list (string * any)) (k : string) : any :=
  match m with
  | [] => Anil
  | (k', y) :: m' => if String.eqb k k' then y else map_index m' k
  end.

(** [valueInterface]: the Go value for a JSON value stored in an
    [interface{}]; a number outside the range of [float64] is an error. *)
Fixpoint valueInterface (v : value) : any * option error :=
  match v with
  | Null => (Anil, None)
  | Bool b => (Abool b, None)
  | Number lit =>
    match strconv.ParseFloat64 lit with
    | Some f => (Afloat64 f, None)
    | None => (Anil, Some (UnmarshalTypeError ("number " +++ lit)))
    end
  | Str s => (Astring s, None)
  | Array elems =>
    let fix arrayInterface (l : list value) : list any * option error :=
      match l with
      | [] => ([], None)
      | x :: l' =>
        let '(a, e) := valueInterface x in
        let '(r, e') := arrayInterface l' in
        (a :: r, saveError e e')
      end in
    let '(r, e) := arrayInterface elems in (Aslice r, e)
  | Object members =>
    let fix objectInterface (l : list (string * value)) (m : list (string * any))
      : list (string * any) * option error :=
      match l with
      | [] => (m, None)
      | (k, x) :: l' =>
        let '(a, e) := valueInterface x in
        let '(r, e') := objectInterface l' (map_insert k a m) in
        (r, saveError e e')
      end in
    let '(r, e) := objectInterface members [] in (Amap r, e)
  end.

(** How [UnmarshalTypeError.Value] describes a JSON value. *)
Definition describe (v : value) : string :=
  match v with
  | Null => "null"
  | Bool _ => "bool"
  | Number _ => "number"
  | Str _ => "string"
  | Array _ => "array"
  | Object _ => "object"
  end.

(** Storing a JSON value in a Go variable that holds [cur]: the new
    content of the variable and the error saved, if any.  [null] leaves
    a variable of type [string], [int] or struct as it is. *)
Definition store_string (v : value) (cur : string) : string * option error :=
  match v with
  | Str s => (s, None)
  | Null => (cur, None)
  | _ => (cur, Some (UnmarshalTypeError (describe v)))
  end.

Definition store_int (v : value) (cur : Z) : Z * option error :=
  match v with
  | Number lit =>
    match strconv.ParseInt lit with
    | Some z => (z, None)
    | None => (cur, Some (UnmarshalTypeError ("number " +++ lit)))
    end
  | Null => (cur, None)
  | _ => (cur, Some (UnmarshalTypeError (describe v)))
  end.

Definition store_any (v : value) (cur : any) : any * option error :=
  valueInterface v.

(** The members of an object stored one after the other, in the order of
    the text, by [field key value]. *)
Definition store_members {T : Type} (field : string -> value -> T -> T * option error)
    (members : list (string * value)) (cur : T) : T * option error :=
  fold_left
    (fun st kv =>
       let '(t, e) := field (fst kv) (snd kv) (fst st) in (t, saveError (snd st) e))
    members (cur, None).

Definition store_struct {T : Type}
    (field : string -> value -> T -> T * option error)
    (v : value) (cur : T) : T * option error :=
  match v with
  | Object members => store_members field members cur
  | Null => (cur, None)
  | _ => (cur, Some (UnmarshalTypeError (describe v)))
  end.

(** Field names are matched exactly, and failing that up to Unicode simple
    case folding.  The names here are ASCII: the runes that fold to an
    ASCII letter are its two cases, U+017F (long s) for s and U+212A
    (Kelvin sign) for k. *)
Definition upper (c : ascii) : ascii :=
  if (97 <=? b2z c) && (b2z c <=? 122) then z2b (b2z c - 32) else c.

Fixpoint foldName (s : string) : string :=
  match s with
  | EmptyString => EmptyString
  | String c s' =>
    if b2z c =? 197 then
      match s' with
      | String c1 s'' =>
        if b2z c1 =? 191 then String "S" (foldName s'')
        else String c (foldName s')
      | EmptyString => String c EmptyString
      end
    else if b2z c =? 226 then
      match s' with
      | String c1 (String c2 s'') =>
        if (b2z c1 =? 132) && (b2z c2 =? 170) then String "K" (foldName s'')
        else String c (foldName s')
      | _ => String c (foldName s')
      end
    else String (upper c) (foldName s')
  end.

Fixpoint index_where {A : Type} (p : A -> bool) (l : list A) : option nat :=
  match l with
  | [] => None
  | x :: l' => if p x then Some O else option_map S (index_where p l')
  end.

(** The index of the field that the key [key] names, among the JSON names
    [names] of the fields of a struct. *)
Definition field_index (names : list string) (key : string) : option nat :=
  match index_where (String.eqb key) names with
  | Some i => Some i
  | None => index_where (fun n => String.eqb (foldName n) (foldName key)) names
  end.

(** [json.Unmarshal(data, &x)] for a variable [x] holding [cur] and stored
    into by [store]: the content of [x] afterwards and the error returned.
    The text is checked as a whole before anything is stored. *)
Definition Unmarshal {T : Type} (store : value -> T -> T * option error)
    (data : string) (cur : T) : T * option error :=
  match parse data with
  | Done v _ => store v cur
  | _ => (cur, Some SyntaxError)
  end.

(** Variables of type [bool], [float64] and [float32]. *)
Definition store_bool (v : value) (cur : bool) : bool * option error :=
  match v with
  | Bool b => (b, None)
  | Null => (cur, None)
  | _ => (cur, Some (UnmarshalTypeError (describe v)))
  end.

Definition store_float (prec emax : Z) (v : value) (cur : spec_float)
  : spec_float * option error :=
  match v with
  | Number lit =>
    let '(neg, m, e) := strconv.decimal_of_literal lit in
    match strconv.round_decimal prec emax neg m e with
    | S754_infinity _ => (cur, Some (UnmarshalTypeError ("number " +++ lit)))
    | f => (f, None)
    end
  | Null => (cur, None)
  | _ => (cur, Some (UnmarshalTypeError (describe v)))
  end.

Definition store_float64 := store_float 53 1024.
Definition store_float32 := store_float 24 128.

(** A slice variable: [nil], or the elements of the slice followed by
    the elements of its array that lie beyond its length.  The decoder
    stores the [i]-th element of a JSON array into the [i]-th element of
    the array behind the slice, whatever it holds, and sets the length
    afterwards. *)
Inductive slice (T : Type) : Type :=
| nil_slice
| mk_slice (elems spare : list T).
Arguments nil_slice {T}.
Arguments mk_slice {T} elems spare.

Definition slots {T : Type} (s : slice T) : list T :=
  match s with
  | nil_slice => []
  | mk_slice elems spare => elems ++ spare
  end.

Fixpoint store_elems {T : Type} (store : value -> T -> T * option error) (zero : T)
    (l : list value) (old : list T) : list T * option error :=
  match l with
  | [] => ([], None)
  | x :: l' =>
    let '(t, e) := store x (hd zero old) in
    let '(r, e') := store_elems store zero l' (tl old) in
    (t :: r, saveError e e')
  end.

Definition store_slice {T : Type}
    (store : value -> T -> T * option error) (zero : T)
    (v : value) (cur : slice T) : slice T * option error :=
  match v with
  | Array [] => (mk_slice [] [], None)
  | Array l =>
    let '(r, e) := store_elems store zero l (slots cur) in
    (mk_slice r (skipn (List.length l) (slots cur)), e)
  | Null => (nil_slice, None)
  | _ => (cur, Some (UnmarshalTypeError (describe v)))
  end.

End json.

(* ================================================================= *)
(** ** Package plaid: data *)

Module plaid.

Import json.

Local Open Scope string_scope.

(** The zero value of a floating-point variable. *)
Definition fzero : spec_float := S754_zero false.

(** [type plaidError struct] of [errors.go].  [StatusCode] has no tag: its
    JSON name is its Go name. *)
Module plaidError.
Record t : Type := mk {
  ErrorCode : string;        (* `json:"error_code"` *)
  ErrorType : string;        (* `json:"error_type"` *)
  ErrorMessage : string;     (* `json:"error_message"` *)
  DisplayMessage : string;   (* `json:"display_message"` *)
  StatusCode : Z
}.
Definition zero : t := mk "" "" "" "" 0.
Definition names : list string :=
  ["error_code"; "error_type"; "error_message"; "display_message"; "StatusCode"].
Definition field (k : string) (v : value) (x : t) : t * option json.error :=
  let '(mk a b c d n) := x in
  match field_index names k with
  | Some 0%nat => let '(y, e) := store_string v a in (mk y b c d n, e)
  | Some 1%nat => let '(y, e) := store_string v b in (mk a y c d n, e)
  | Some 2%nat => let '(y, e) := store_string v c in (mk a b y d n, e)
  | Some 3%nat => let '(y, e) := store_string v d in (mk a b c y n, e)
  | Some 4%nat => let '(y, e) := store_int v n in (mk a b c d y, e)
  | _ => (x, None)
  end.
Definition store : value -> t -> t * option json.error := store_struct field.
(** [plaidErr.StatusCode = code] *)
Definition with_StatusCode (x : t) (code : Z) : t :=
  mk (ErrorCode x) (ErrorType x) (ErrorMessage x) (DisplayMessage x) code.
(** [func (e plaidError) Error() string]: [fmt.Sprintf] with four [%s]
    verbs, each replaced by the string argument as it is. *)
Definition Error (e : t) : string :=
  "Plaid Error - http status: " +++ ErrorCode e +++ ", code: " +++ ErrorType e
  +++ ", message: " +++ ErrorMessage e +++ ", display: " +++ DisplayMessage e.
End plaidError.

(** The other definition of [plaidError] that [errors.go] holds, for the
    error format with an [http_code].  [%d] applied to a string prints
    the verb, the type and the value. *)
Module plaidError_http_code.
Record t : Type := mk {
  HttpErrorCode : Z;     (* `json:"http_code"` *)
  ErrorCode : string;    (* `json:"error_type"` *)
  Message : string;      (* `json:"error_message"` *)
  StatusCode : Z
}.
Definition Error (e : t) : string :=
  "Plaid Error - http status: " +++ strconv.FormatInt (HttpErrorCode e)
  +++ ", code: %!d(string=" +++ ErrorCode e +++ "), message: " +++ Message e.
End plaidError_http_code.

Module mfaIntermediate.
Record t : Type := mk {
  AccessToken : string;   (* `json:"access_token"` *)
  MFA : any;              (* `json:"mfa"` *)
  Type_ : string          (* `json:"type"` *)
}.
Definition zero : t := mk "" Anil "".
Definition names : list string := ["access_token"; "mfa"; "type"].
Definition field (k : string) (v : value) (x : t) : t * option json.error :=
  let '(mk a m ty) := x in
  match field_index names k with
  | Some 0%nat => let '(y, e) := store_string v a in (mk y m ty, e)
  | Some 1%nat => let '(y, e) := store_any v m in (mk a y ty, e)
  | Some 2%nat => let '(y, e) := store_string v ty in (mk a m y, e)
  | _ => (x, None)
  end.
Definition store : value -> t -> t * option json.error := store_struct field.
End mfaIntermediate.

Module mfaDevice.
Record t : Type := mk { Message : string }.
Definition zero : t := mk "".
End mfaDevice.

Module mfaList.
Record t : Type := mk { Mask : string; Type_ : string }.
End mfaList.

Module mfaQuestion.
Record t : Type := mk { Question : string }.
End mfaQuestion.

Module mfaSelection.
Record t : Type := mk { Answers : list string; Question : string }.
End mfaSelection.

(** [mfaResponse]: "contains the union of all possible mfa types; users
    should switch on the Type field".  The three slices are only ever
    [nil] or built by [append]: they are lists. *)
Module mfaResponse.
Record t : Type := mk {
  AccessToken : string;
  Type_ : string;
  Device : mfaDevice.t;
  List : list mfaList.t;
  Questions : list mfaQuestion.t;
  Selections : list mfaSelection.t
}.
End mfaResponse.

Module Location.
Record t : Type := mk {
  Zip : string; State : string; StoreNumber : string; Lon : spec_float;
  City : string; Lat : spec_float; Address : string
}.
Definition zero : t := mk "" "" "" fzero "" fzero "".
Definition names : list string :=
  ["zip"; "state"; "store_number"; "lon"; "city"; "lat"; "address"].
Definition field (k : string) (v : value) (x : t) : t * option json.error :=
  let '(mk a b c d f g h) := x in
  match field_index names k with
  | Some 0%nat => let '(y, e) := store_string v a in (mk y b c d f g h, e)
  | Some 1%nat => let '(y, e) := store_string v b in (mk a y c d f g h, e)
  | Some 2%nat => let '(y, e) := store_string v c in (mk a b y d f g h, e)
  | Some 3%nat => let '(y, e) := store_float64 v d in (mk a b c y f g h, e)
  | Some 4%nat => let '(y, e) := store_string v f in (mk a b c d y g h, e)
  | Some 5%nat => let '(y, e) := store_float64 v g in (mk a b c d f y h, e)
  | Some 6%nat => let '(y, e) := store_string v h in (mk a b c d f g y, e)
  | _ => (x, None)
  end.
Definition store : value -> t -> t * option json.error := store_struct field.
End Location.

Module PaymentMeta.
Record t : Type := mk {
  Reason : string; Payee : string; PpdID : string; Payer : string;
  ByOrderOf : string; ReferenceNumber : string; PaymentProcessor : string;
  PaymentMethod : string
}.
Definition zero : t := mk "" "" "" "" "" "" "" "".
Definition names : list string :=
  ["reason"; "payee"; "ppd_id"; "payer"; "by_order_of"; "reference_number";
   "payment_processor"; "payment_method"].
Definition field (k : string) (v : value) (x : t) : t * option json.error :=
  let '(mk a b c d f g h i) := x in
  match field_index names k with
  | Some 0%nat => let '(y, e) := store_string v a in (mk y b c d f g h i, e)
  | Some 1%nat => let '(y, e) := store_string v b in (mk a y c d f g h i, e)
  | Some 2%nat => let '(y, e) := store_string v c in (mk a b y d f g h i, e)
  | Some 3%nat => let '(y, e) := store_string v d in (mk a b c y f g h i, e)
  | Some 4%nat => let '(y, e) := store_string v f in (mk a b c d y g h i, e)
  | Some 5%nat => let '(y, e) := store_string v g in (mk a b c d f y h i, e)
  | Some 6%nat => let '(y, e) := store_string v h in (mk a b c d f g y i, e)
  | Some 7%nat => let '(y, e) := store_string v i in (mk a b c d f g h y, e)
  | _ => (x, None)
  end.
Definition store : value -> t -> t * option json.error := store_struct field.
End PaymentMeta.

Module Transaction.
Record t : Type := mk {
  PendingTransactionID : string;   (* `json:"pending_transaction_id"` *)
  Name : string;                   (* `json:"name"` *)
  AccountOwner : string;           (* `json:"account_owner"` *)
  Category : slice string;         (* `json:"category"` *)
  TransactionType : string;        (* `json:"transaction_type"` *)
  AccountID : string;              (* `json:"account_id"` *)
  Amount : spec_float;             (* float32, `json:"amount"` *)
  Date : string;                   (* `json:"date"` *)
  TransactionID : string;          (* `json:"transaction_id"` *)
  Location : Location.t;           (* `json:"location"` *)
  CategoryID : string;             (* `json:"category_id"` *)
  Pending : bool;                  (* `json:"pending"` *)
  PaymentMeta : PaymentMeta.t      (* `json:"payment_meta"` *)
}.
Definition zero : t :=
  mk "" "" "" nil_slice "" "" fzero "" "" Location.zero "" false PaymentMeta.zero.
Definition names : list string :=
  ["pending_transaction_id"; "name"; "account_owner"; "category";
   "transaction_type"; "account_id"; "amount"; "date"; "transaction_id";
   "location"; "category_id"; "pending"; "payment_meta"].
Definition field (k : string) (v : value) (x : t) : t * option json.error :=
  let '(mk a b c d f g h i j l m n o) := x in
  match field_index names k with
  | Some 0%nat => let '(y, e) := store_string v a in (mk y b c d f g h i j l m n o, e)
  | Some 1%nat => let '(y, e) := store_string v b in (mk a y c d f g h i j l m n o, e)
  | Some 2%nat => let '(y, e) := store_string v c in (mk a b y d f g h i j l m n o, e)
  | Some 3%nat =>
    let '(y, e) := store_slice store_string "" v d in (mk a b c y f g h i j l m n o, e)
  | Some 4%nat => let '(y, e) := store_string v f in (mk a b c d y g h i j l m n o, e)
  | Some 5%nat => let '(y, e) := store_string v g in (mk a b c d f y h i j l m n o, e)
  | Some 6%nat => let '(y, e) := store_float32 v h in (mk a b c d f g y i j l m n o, e)
  | Some 7%nat => let '(y, e) := store_string v i in (mk a b c d f g h y j l m n o, e)
  | Some 8%nat => let '(y, e) := store_string v j in (mk a b c d f g h i y l m n o, e)
  | Some 9%nat => let '(y, e) := Location.store v l in (mk a b c d f g h i j y m n o, e)
  | Some 10%nat => let '(y, e) := store_string v m in (mk a b c d f g h i j l y n o, e)
  | Some 11%nat => let '(y, e) := store_bool v n in (mk a b c d f g h i j l m y o, e)
  | Some 12%nat => let '(y, e) := PaymentMeta.store v o in (mk a b c d f g h i j l m n y, e)
  | _ => (x, None)
  end.
Definition store : value -> t -> t * option json.error := store_struct field.
End Transaction.

Module Balances.
Record t : Type := mk { Limit : spec_float; Available : spec_float; Current : spec_float }.
Definition zero : t := mk fzero fzero fzero.
Definition names : list string := ["limit"; "available"; "current"].
Definition field (k : string) (v : value) (x : t) : t * option json.error :=
  let '(mk a b c) := x in
  match field_index names k with
  | Some 0%nat => let '(y, e) := store_float64 v a in (mk y b c, e)
  | Some 1%nat => let '(y, e) := store_float64 v b in (mk a y c, e)
  | Some 2%nat => let '(y, e) := store_float64 v c in (mk a b y, e)
  | _ => (x, None)
  end.
Definition store : value -> t -> t * option json.error := store_struct field.
End Balances.

Module Account.
Record t : Type := mk {
  Transactions : slice Transaction.t;   (* `json:"transactions"` *)
  Type_ : string;                       (* `json:"type"` *)
  Mask : string;                        (* `json:"mask"` *)
  Name : string;                        (* `json:"name"` *)
  AccountID : string;                   (* `json:"account_id"` *)
  Balances : Balances.t;                (* `json:"balances"` *)
  Subtype : string;                     (* `json:"subtype"` *)
  OfficialName : string                 (* `json:"official_name"` *)
}.
Definition zero : t := mk nil_slice "" "" "" "" Balances.zero "" "".
Definition names : list string :=
  ["transactions"; "type"; "mask"; "name"; "account_id"; "balances"; "subtype";
   "official_name"].
Definition field (k : string) (v : value) (x : t) : t * option json.error :=
  let '(mk a b c d f g h i) := x in
  match field_index names k with
  | Some 0%nat =>
    let '(y, e) := store_slice Transaction.store Transaction.zero v a in
    (mk y b c d f g h i, e)
  | Some 1%nat => let '(y, e) := store_string v b in (mk a y c d f g h i, e)
  | Some 2%nat => let '(y, e) := store_string v c in (mk a b y d f g h i, e)
  | Some 3%nat => let '(y, e) := store_string v d in (mk a b c y f g h i, e)
  | Some 4%nat => let '(y, e) := store_string v f in (mk a b c d y g h i, e)
  | Some 5%nat => let '(y, e) := Balances.store v g in (mk a b c d f y h i, e)
  | Some 6%nat => let '(y, e) := store_string v h in (mk a b c d f g y i, e)
  | Some 7%nat => let '(y, e) := store_string v i in (mk a b c d f g h y, e)
  | _ => (x, None)
  end.
Definition store : value -> t -> t * option json.error := store_struct field.
End Account.

Module Item.
Record t : Type := mk {
  InstitutionId : string;   (* `json:"institution_id"` *)
  ItemId : string;          (* `json:"item_id"` *)
  Webhook : string          (* `json:"webhook"` *)
}.
Definition zero : t := mk "" "" "".
Definition names : list string := ["institution_id"; "item_id"; "webhook"].
Definition field (k : string) (v : value) (x : t) : t * option json.error :=
  let '(mk a b c) := x in
  match field_index names k with
  | Some 0%nat => let '(y, e) := store_string v a in (mk y b c, e)
  | Some 1%nat => let '(y, e) := store_string v b in (mk a y c, e)
  | Some 2%nat => let '(y, e) := store_string v c in (mk a b y, e)
  | _ => (x, None)
  end.
Definition store : value -> t -> t * option json.error := store_struct field.
End Item.

Module postResponse.
Record t : Type := mk {
  AccessToken : string;                 (* `json:"access_token"` *)
  AccountId : string;                   (* `json:"account_id"` *)
  Accounts : slice Account.t;           (* `json:"accounts"` *)
  BankAccountToken : string;            (* `json:"stripe_bank_account_token"` *)
  MFA : string;                         (* `json:"mfa"` *)
  Transactions : slice Transaction.t;   (* `json:"transactions"` *)
  TotalTransactions : Z;                (* `json:"total_transactions"` *)
  Item : Item.t                         (* `json:"item"` *)
}.
Definition zero : t := mk "" "" nil_slice "" "" nil_slice 0 Item.zero.
Definition names : list string :=
  ["access_token"; "account_id"; "accounts"; "stripe_bank_account_token"; "mfa";
   "transactions"; "total_transactions"; "item"].
Definition field (k : string) (v : value) (x : t) : t * option json.error :=
  let '(mk a b c d f g h i) := x in
  match field_index names k with
  | Some 0%nat => let '(y, e) := store_string v a in (mk y b c d f g h i, e)
  | Some 1%nat => let '(y, e) := store_string v b in (mk a y c d f g h i, e)
  | Some 2%nat =>
    let '(y, e) := store_slice Account.store Account.zero v c in (mk a b y d f g h i, e)
  | Some 3%nat => let '(y, e) := store_string v d in (mk a b c y f g h i, e)
  | Some 4%nat => let '(y, e) := store_string v f in (mk a b c d y g h i, e)
  | Some 5%nat =>
    let '(y, e) := store_slice Transaction.store Transaction.zero v g in
    (mk a b c d f y h i, e)
  | Some 6%nat => let '(y, e) := store_int v h in (mk a b c d f g y i, e)
  | Some 7%nat => let '(y, e) := Item.store v i in (mk a b c d f g h y, e)
  | _ => (x, None)
  end.
Definition store : value -> t -> t * option json.error := store_struct field.
End postResponse.

Module deleteResponse.
Record t : Type := mk { Message : string (* `json:"message"` *) }.
Definition zero : t := mk "".
Definition field (k : string) (v : value) (x : t) : t * option json.error :=
  match field_index ["message"] k with
  | Some 0%nat => let '(y, e) := store_string v (Message x) in (mk y, e)
  | _ => (x, None)
  end.
Definition store : value -> t -> t * option json.error := store_struct field.
End deleteResponse.

(** [institutions.go] *)
Module Institution.
Record t : Type := mk { Name : string (* `json:"name"` *) }.
Definition zero : t := mk "".
Definition field (k : string) (v : value) (x : t) : t * option json.error :=
  match field_index ["name"] k with
  | Some 0%nat => let '(y, e) := store_string v (Name x) in (mk y, e)
  | _ => (x, None)
  end.
Definition store : value -> t -> t * option json.error := store_struct field.
End Institution.

Module InstitutionJson.
Record t : Type := mk { Institution : Institution.t (* `json:"institution"` *) }.
Definition zero : t := mk Institution.zero.
Definition field (k : string) (v : value) (x : t) : t * option json.error :=
  match field_index ["institution"] k with
  | Some 0%nat => let '(y, e) := Institution.store v (Institution x) in (mk y, e)
  | _ => (x, None)
  end.
Definition store : value -> t -> t * option json.error := store_struct field.
End InstitutionJson.

Module institutionJson.
Record t : Type := mk {
  InstitutionId : string;   (* `json:"institution_id"` *)
  PublicKey : string        (* `json:"public_key"` *)
}.
Definition Marshal (x : t) : string :=
  "{" +++ member "institution_id" +++ quote (InstitutionId x)
  +++ "," +++ member "public_key" +++ quote (PublicKey x) +++ "}".
End institutionJson.

(** [transactions.go] *)
Module TransactionOptionsJson.
Record t : Type := mk {
  Count : Z;    (* `json:"count"` *)
  Offset : Z    (* `json:"offset"` *)
}.
Definition zero : t := mk 0 0.
Definition Marshal (x : t) : string :=
  "{" +++ member "count" +++ strconv.FormatInt (Count x)
  +++ "," +++ member "offset" +++ strconv.FormatInt (Offset x) +++ "}".
Definition field (k : string) (v : value) (x : t) : t * option json.error :=
  let '(mk a b) := x in
  match field_index ["count"; "offset"] k with
  | Some 0%nat => let '(y, e) := store_int v a in (mk y b, e)
  | Some 1%nat => let '(y, e) := store_int v b in (mk a y, e)
  | _ => (x, None)
  end.
Definition store : value -> t -> t * option json.error := store_struct field.
End TransactionOptionsJson.

Module transactionJson.
Record t : Type := mk {
  ClientID : string;                    (* `json:"client_id"` *)
  Secret : string;                      (* `json:"secret"` *)
  AccessToken : string;                 (* `json:"access_token"` *)
  StartDate : string;                   (* `json:"start_date"` *)
  EndDate : string;                     (* `json:"end_date"` *)
  Options : TransactionOptionsJson.t    (* `json:"options"` *)
}.
Definition zero : t := mk "" "" "" "" "" TransactionOptionsJson.zero.
(** [json.Marshal] of the struct: the fields in the order of their
    declaration, without white space. *)
Definition Marshal (x : t) : string :=
  "{" +++ member "client_id" +++ quote (ClientID x)
  +++ "," +++ member "secret" +++ quote (Secret x)
  +++ "," +++ member "access_token" +++ quote (AccessToken x)
  +++ "," +++ member "start_date" +++ quote (StartDate x)
  +++ "," +++ member "end_date" +++ quote (EndDate x)
  +++ "," +++ member "options" +++ TransactionOptionsJson.Marshal (Options x) +++ "}".
Definition names : list string :=
  ["client_id"; "secret"; "access_token"; "start_date"; "end_date"; "options"].
Definition field (k : string) (v : value) (x : t) : t * option json.error :=
  let '(mk a b c d f g) := x in
  match field_index names k with
  | Some 0%nat => let '(y, e) := store_string v a in (mk y b c d f g, e)
  | Some 1%nat => let '(y, e) := store_string v b in (mk a y c d f g, e)
  | Some 2%nat => let '(y, e) := store_string v c in (mk a b y d f g, e)
  | Some 3%nat => let '(y, e) := store_string v d in (mk a b c y f g, e)
  | Some 4%nat => let '(y, e) := store_string v f in (mk a b c d y g, e)
  | Some 5%nat => let '(y, e) := TransactionOptionsJson.store v g in (mk a b c d f y, e)
  | _ => (x, None)
  end.
Definition store : value -> t -> t * option json.error := store_struct field.
End transactionJson.

(* ================================================================= *)
(** ** Package plaid: operations *)

(** The values of type [error] that the package handles: the errors of
    [json.Unmarshal], the values of [errors.New], a [plaidError], and the
    errors of [net/http], [net/url] and [io], which are opaque here. *)
Inductive error : Type :=
| JsonError (e : json.error)
| ErrorString (text : string)
| PlaidError (e : plaidError.t)
| NetError (text : string).

Definition errors_New (text : string) : error := ErrorString text.

Definition lift_json (e : option json.error) : option error := option_map JsonError e.

(** [*http.Request] and [*http.Response], as far as the package uses
    them.  [Body] and [ReadErr] of a response are what
    [ioutil.ReadAll(res.Body)] returns. *)
Module Request.
Record t : Type := mk {
  Method : string;
  URL : string;
  Header : list (string * string);
  Body : string
}.
(** [req.Header.Add] and [req.Header.Set] for a key in canonical form. *)
Definition Header_Add (k v : string) (r : t) : t :=
  mk (Method r) (URL r) (Header r ++ [(k, v)]) (Body r).
Definition Header_Set (k v : string) (r : t) : t :=
  mk (Method r) (URL r)
     (filter (fun kv => negb (String.eqb (fst kv) k)) (Header r) ++ [(k, v)]) (Body r).
End Request.

Module Response.
Record t : Type := mk {
  StatusCode : Z;
  Body : string;
  ReadErr : option error
}.
End Response.

(** The method [Do] of [http.Client]. *)
Definition Doer : Type := Request.t -> Response.t + error.

Record Client : Type := mkClient {
  clientID : string;
  secret : string;
  environment : string;
  httpClient : Doer
}.

Definition Sandbox : string := "https://sandbox.plaid.com".
Definition Production : string := "https://production.plaid.com".

(** What the decoder returns, a pointer to a [postResponse], a pointer to
    an [mfaResponse] and an [error]; [None] stands for [nil]. *)
Definition result3 : Type := option postResponse.t * option mfaResponse.t * option error.

(** Type assertions [x.(string)], [x.([]interface{})],
    [x.(map[string]interface{})] and [x.(interface{})] in their two-value
    form. *)
Definition assert_string (x : any) : string * bool :=
  match x with
  | Astring s => (s, true)
  | _ => ("", false)
  end.

Definition assert_slice (x : any) : list any * bool :=
  match x with
  | Aslice l => (l, true)
  | _ => ([], false)
  end.

Definition assert_map (x : any) : list (string * any) * bool :=
  match x with
  | Amap m => (m, true)
  | _ => ([], false)
  end.

Definition assert_interface (x : any) : any * bool :=
  match x with
  | Anil => (Anil, false)
  | _ => (x, true)
  end.

(** The loop of [case "list"], from the elements left and [mfaRes.List]. *)
Fixpoint list_loop (temp : list any) (List : list mfaList.t) : error + list mfaList.t :=
  match temp with
  | [] => inr List
  | v :: temp' =>
    let '(listArray, ok) := assert_map v in
    if negb ok then inl (errors_New "Could not decode list mfa")
    else
      let '(maskText, ok) := assert_string (map_index listArray "mask") in
      if negb ok then inl (errors_New "Could not decode list mfa")
      else
        let '(typeText, ok) := assert_string (map_index listArray "type") in
        if negb ok then inl (errors_New "Could not decode list mfa")
        else list_loop temp' (List ++ [mfaList.mk maskText typeText])
  end.

(** The loop of [case "questions"]. *)
Fixpoint questions_loop (questions : list any) (Questions : list mfaQuestion.t)
  : error + list mfaQuestion.t :=
  match questions with
  | [] => inr Questions
  | v :: questions' =>
    let '(q, ok) := assert_map v in
    if negb ok then inl (errors_New "Could not decode questions mfa")
    else
      let '(questionText, ok) := assert_string (map_index q "question") in
      if negb ok then inl (errors_New "Could not decode questions mfa question")
      else questions_loop questions' (Questions ++ [mfaQuestion.mk questionText])
  end.

(** [for i, a := range tempAnswers { answers[i], ok = a.(string) }]: the
    elements of [answers] written, and [ok] after the loop, from [ok]
    before it. *)
Fixpoint answers_loop (tempAnswers : list any) (ok : bool) : list string * bool :=
  match tempAnswers with
  | [] => ([], ok)
  | a :: rest =>
    let '(s, ok') := assert_string a in
    let '(answers, ok'') := answers_loop rest ok' in
    (s :: answers, ok'')
  end.

(** The loop of [case "selections"]. *)
Fixpoint selections_loop (selections : list any) (Selections : list mfaSelection.t)
  : error + list mfaSelection.t :=
  match selections with
  | [] => inr Selections
  | v :: selections' =>
    let '(s, ok) := assert_map v in
    if negb ok then inl (errors_New "Could not decode selections mfa")
    else
      let '(tempAnswers, ok) := assert_slice (map_index s "answers") in
      if negb ok then inl (errors_New "Could not decode selections answers")
      else
        let '(answers, ok) := answers_loop tempAnswers ok in
        if negb ok then inl (errors_New "Could not decode selections answers")
        else
          let '(question, ok) := assert_string (map_index s "question") in
          if negb ok then inl (errors_New "Could not decode selections questions")
          else selections_loop selections' (Selections ++ [mfaSelection.mk answers question])
  end.

(** [func unmarshalPostMFA(res *http.Response, body []byte)], returning
    [( *postResponse, *mfaResponse, error)]; of [res] only [res.StatusCode]
    is read. *)
Definition unmarshalPostMFA (StatusCode : Z) (body : string) : result3 :=
  if (StatusCode =? 200)%Z then
    match Unmarshal postResponse.store body postResponse.zero with
    | (_, Some err) => (None, None, Some (JsonError err))
    | (postRes, None) => (Some postRes, None, None)
    end
  else if (StatusCode =? 201)%Z then
    match Unmarshal mfaIntermediate.store body mfaIntermediate.zero with
    | (_, Some err) => (None, None, Some (JsonError err))
    | (mfaInter, None) =>
      let AccessToken := mfaIntermediate.AccessToken mfaInter in
      let Type_ := mfaIntermediate.Type_ mfaInter in
      let MFA := mfaIntermediate.MFA mfaInter in
      if String.eqb Type_ "device" then
        let '(temp, ok) := assert_interface MFA in
        if negb ok then (None, None, Some (errors_New "Could not decode device mfa"))
        else
          let '(deviceStruct, ok) := assert_map temp in
          if negb ok then (None, None, Some (errors_New "Could not decode device mfa"))
          else
            let '(deviceText, ok) := assert_string (map_index deviceStruct "message") in
            if negb ok then (None, None, Some (errors_New "Could not decode device mfa"))
            else
              (None,
               Some (mfaResponse.mk AccessToken Type_ (mfaDevice.mk deviceText) [] [] []),
               None)
      else if String.eqb Type_ "list" then
        let '(temp, ok) := assert_slice MFA in
        if negb ok then (None, None, Some (errors_New "Could not decode list mfa"))
        else
          match list_loop temp [] with
          | inl err => (None, None, Some err)
          | inr List =>
            (None, Some (mfaResponse.mk AccessToken Type_ mfaDevice.zero List [] []), None)
          end
      else if String.eqb Type_ "questions" then
        let '(questions, ok) := assert_slice MFA in
        if negb ok then (None, None, Some (errors_New "Could not decode questions mfa"))
        else
          match questions_loop questions [] with
          | inl err => (None, None, Some err)
          | inr Questions =>
            (None, Some (mfaResponse.mk AccessToken Type_ mfaDevice.zero [] Questions []),
             None)
          end
      else if String.eqb Type_ "selections" then
        let '(selections, ok) := assert_slice MFA in
        if negb ok then (None, None, Some (errors_New "Could not decode selections mfa"))
        else
          match selections_loop selections [] with
          | inl err => (None, None, Some err)
          | inr Selections =>
            (None, Some (mfaResponse.mk AccessToken Type_ mfaDevice.zero [] [] Selections),
             None)
          end
      else (None, Some (mfaResponse.mk AccessToken Type_ mfaDevice.zero [] [] []), None)
    end
  else if (400 <=? StatusCode)%Z then
    match Unmarshal plaidError.store body plaidError.zero with
    | (_, Some err) => (None, None, Some (JsonError err))
    | (plaidErr, None) =>
      (None, None, Some (PlaidError (plaidError.with_StatusCode plaidErr StatusCode)))
    end
  else
    (None, None,
     Some (errors_New ("Unknown Plaid Error - Status:" +++ string_of_int_conv StatusCode))).

(** How a call ends: it returns, or it panics. *)
Inductive run (A : Type) : Type :=
| Returns (a : A)
| Panics (v : error + string).
Arguments Returns {A} a.
Arguments Panics {A} v.

(** The calls over the network.  [net/url] is not modelled:
    [url_Parse u] is the error, if any, of parsing the URL [u], which is
    the one way [http.NewRequest] fails for the methods used here;
    [DefaultClient_Do] is the [Do] of a fresh [&http.Client{}], and
    [http_Get] is [http.Get]. *)
Section Transport.

Variable url_Parse : string -> option error.
Variable DefaultClient_Do : Doer.
Variable http_Get : string -> Response.t + error.

Definition NewRequest (method url body : string) : Request.t + error :=
  match url_Parse url with
  | Some err => inr err
  | None => inl (Request.mk method url [] body)
  end.

Definition NewClient (clientID secret environment : string) : Client :=
  mkClient clientID secret environment DefaultClient_Do.

Definition NewCustomClient (clientID secret environment : string) (httpClient : Doer)
  : Client :=
  mkClient clientID secret environment httpClient.

(** The common part of [postAndUnmarshal], [patchAndUnmarshal] and
    [deleteAndUnmarshal]: the request sent and the response read. *)
Definition send (c : Client) (method endpoint body : string) : Response.t + error :=
  match NewRequest method (environment c +++ endpoint) body with
  | inr err => inr err
  | inl req =>
    let req := Request.Header_Add "Content-Type" "application/json" req in
    let req := Request.Header_Add "User-Agent" "plaid-go" req in
    match httpClient c req with
    | inr err => inr err
    | inl res =>
      match Response.ReadErr res with
      | Some err => inr err
      | None => inl res
      end
    end
  end.

(** [func getAndUnmarshal(environment environmentURL, endpoint string,
    structure interface{}) error], for a [structure] that points to a
    variable holding [cur] and stored into by [store]: the content of the
    variable afterwards and the error returned. *)
Definition getAndUnmarshal {T : Type} (store : value -> T -> T * option json.error)
    (environment endpoint : string) (cur : T) : T * option error :=
  match http_Get (environment +++ endpoint) with
  | inr err => (cur, Some err)
  | inl res =>
    match Response.ReadErr res with
    | Some err => (cur, Some err)
    | None =>
      if (Response.StatusCode res =? 200)%Z then
        let '(x, err) := Unmarshal store (Response.Body res) cur in (x, lift_json err)
      else
        match Unmarshal plaidError.store (Response.Body res) plaidError.zero with
        | (_, Some err) => (cur, Some (JsonError err))
        | (plaidErr, None) =>
          (cur, Some (PlaidError (plaidError.with_StatusCode plaidErr
                                    (Response.StatusCode res))))
        end
    end
  end.

Definition postAndUnmarshal (c : Client) (endpoint body : string) : result3 :=
  match send c "POST" endpoint body with
  | inr err => (None, None, Some err)
  | inl res => unmarshalPostMFA (Response.StatusCode res) (Response.Body res)
  end.

Definition patchAndUnmarshal (c : Client) (endpoint body : string) : result3 :=
  match send c "PATCH" endpoint body with
  | inr err => (None, None, Some err)
  | inl res => unmarshalPostMFA (Response.StatusCode res) (Response.Body res)
  end.

Definition deleteAndUnmarshal (c : Client) (endpoint body : string)
  : option deleteResponse.t * option error :=
  match send c "DELETE" endpoint body with
  | inr err => (None, Some err)
  | inl res =>
    if (Response.StatusCode res =? 200)%Z then
      match Unmarshal deleteResponse.store (Response.Body res) deleteResponse.zero with
      | (_, Some err) => (None, Some (JsonError err))
      | (deleteRes, None) => (Some deleteRes, None)
      end
    else
      match Unmarshal plaidError.store (Response.Body res) plaidError.zero with
      | (_, Some err) => (None, Some (JsonError err))
      | (plaidErr, None) =>
        (None, Some (PlaidError (plaidError.with_StatusCode plaidErr
                                   (Response.StatusCode res))))
      end
  end.

(** [func (c *Client) Transactions(accessToken, startDate, endDate string,
    options TransactionOptionsJson) (postRes *postResponse, err error)].
    [json.Marshal] of a [transactionJson] returns no error. *)
Definition Transactions (c : Client) (accessToken startDate endDate : string)
    (options : TransactionOptionsJson.t) : option postResponse.t * option error :=
  let jsonText :=
    transactionJson.Marshal
      (transactionJson.mk (clientID c) (secret c) accessToken startDate endDate options) in
  let '(postRes, _, err) := postAndUnmarshal c "/transactions/get" jsonText in
  (postRes, err).

(** [func GetInstitutionById(publicKey string, institutionId string)
    string], with the values it passes to [fmt.Println].  The errors of
    [json.Marshal], [http.NewRequest] and [ioutil.ReadAll] are not looked
    at; after a failed [http.NewRequest], [req] is [nil] and
    [req.Header.Set] panics. *)
Definition GetInstitutionById (publicKey institutionId : string)
  : list error * run string :=
  let url := "https://production.plaid.com/institutions/get_by_id" in
  let jsonText := institutionJson.Marshal (institutionJson.mk institutionId publicKey) in
  match NewRequest "POST" url jsonText with
  | inr _ => ([], Panics (inr "invalid memory address or nil pointer dereference"))
  | inl req =>
    let req := Request.Header_Set "X-Custom-Header" "myvalue" req in
    let req := Request.Header_Set "Content-Type" "application/json" req in
    match DefaultClient_Do req with
    | inr err => ([], Panics (inl err))
    | inl resp =>
      let body := Response.Body resp in
      let '(institutionResult, marshalErr) :=
        Unmarshal InstitutionJson.store body InstitutionJson.zero in
      let printed :=
        match marshalErr with
        | Some e => [JsonError e]
        | None => []
        end in
      (printed,
       Returns (Institution.Name (InstitutionJson.Institution institutionResult)))
    end
  end.

End Transport.

End plaid.

(* ================================================================= *)
(** ** Vocabulary of the properties *)

Import json plaid.
Local Open Scope string_scope.
Local Open Scope Z_scope.

(** How many of the three results are not [nil]. *)
Definition populated (r : result3) : nat :=
  let '(postRes, mfaRes, err) := r in
  (match postRes with Some _ => 1 | None => 0 end)
  + (match mfaRes with Some _ => 1 | None => 0 end)
  + (match err with Some _ => 1 | None => 0 end).

(** The kind of outcome a caller sees. *)
Inductive kind : Type := Success | Challenge | Failure | Ambiguous.

Definition kind_of (r : result3) : kind :=
  match r with
  | (Some _, None, None) => Success
  | (None, Some _, None) => Challenge
  | (None, None, Some _) => Failure
  | _ => Ambiguous
  end.


(** The error of an unknown status as the specification words it: the
    status code in decimal after the text of the message. *)
Definition unknown_status_decimal (StatusCode : Z) : error :=
  errors_New ("Unknown Plaid Error - Status:" +++ strconv.FormatInt StatusCode).

(** The shape that the specification asks of an element of a
    ["selections"] challenge: an object whose [answers] is an array of
    strings and whose [question] is a string. *)
Definition is_string (x : any) : bool :=
  match x with
  | Astring _ => true
  | _ => false
  end.

Definition selection_shape (x : any) : bool :=
  match x with
  | Amap m =>
    match map_index m "answers" with
    | Aslice answers => forallb is_string answers && is_string (map_index m "question")
    | _ => false
    end
  | _ => false
  end.

Definition selections_shape (x : any) : bool :=
  match x with
  | Aslice l => forallb selection_shape l
  | _ => false
  end.

(** Test doubles for the network: every URL parses, and the server
    answers every request with the status [code] and the body [body]. *)
Definition any_url : string -> option error := fun _ => None.
Definition answering (code : Z) (body : string) : Doer :=
  fun _ => inl (Response.mk code body None).
Definition unreachable (text : string) : Doer := fun _ => inr (NetError text).

(** The request that [GetInstitutionById] sends. *)
Definition institution_request (publicKey institutionId : string) : Request.t :=
  Request.mk "POST" "https://production.plaid.com/institutions/get_by_id"
    [("X-Custom-Header", "myvalue"); ("Content-Type", "application/json")]
    (institutionJson.Marshal (institutionJson.mk institutionId publicKey)).
(** Every byte of [s] is in the upper half. *)
Fixpoint high_bytes (s : string) : bool :=
  match s with
  | EmptyString => true
  | String c s' => (128 <=? b2z c) && high_bytes s'
  end.

(** What may follow a number inside an object: a comma or a closing
    brace. *)
Definition ends_member (s : string) : bool :=
  match s with
  | String c _ => Ascii.eqb c "," || Ascii.eqb c "}"
  | EmptyString => false
  end.

(** A member name that the encoder writes as it is. *)
Definition plain_name (name : string) : bool :=
  utf8.ValidString name && String.eqb (quote_body (String.length name) name) name.

(** The tree of the JSON text of an envelope. *)
Definition options_tree (o : TransactionOptionsJson.t) : value :=
  Object [("count", Number (strconv.FormatInt (TransactionOptionsJson.Count o)));
          ("offset", Number (strconv.FormatInt (TransactionOptionsJson.Offset o)))].

Definition envelope_tree (x : transactionJson.t) : value :=
  Object [("client_id", Str (transactionJson.ClientID x));
          ("secret", Str (transactionJson.Secret x));
          ("access_token", Str (transactionJson.AccessToken x));
          ("start_date", Str (transactionJson.StartDate x));
          ("end_date", Str (transactionJson.EndDate x));
          ("options", options_tree (transactionJson.Options x))].

(** The strings of an envelope are valid UTF-8 and its numbers are in the
    range of [int]. *)
Definition int_range (z : Z) : Prop := strconv.minInt64 <= z <= strconv.maxInt64.

Definition well_formed (x : transactionJson.t) : Prop :=
  utf8.ValidString (transactionJson.ClientID x) = true
  /\ utf8.ValidString (transactionJson.Secret x) = true
  /\ utf8.ValidString (transactionJson.AccessToken x) = true
  /\ utf8.ValidString (transactionJson.StartDate x) = true
  /\ utf8.ValidString (transactionJson.EndDate x) = true
  /\ int_range (TransactionOptionsJson.Count (transactionJson.Options x))
  /\ int_range (TransactionOptionsJson.Offset (transactionJson.Options x)).

(** An envelope whose client id is the one byte 0xFF, which is not valid
    UTF-8, and the same envelope with U+FFFD in its place. *)
Definition invalid_envelope : transactionJson.t :=
  transactionJson.mk (String (z2b 255) EmptyString) "secret" "token" "2017-01-01"
    "2017-02-01" (TransactionOptionsJson.mk 100 0).

Definition replaced_envelope : transactionJson.t :=
  transactionJson.mk (utf8.EncodeRune utf8.RuneError) "secret" "token" "2017-01-01"
    "2017-02-01" (TransactionOptionsJson.mk 100 0).

(** The body of a remote failure as the service writes it: an object
    with the members [error_code], [error_type] and [error_message]. *)
Definition error_body (code type_ message : string) : string :=
  "{" +++ member "error_code" +++ quote code
  +++ "," +++ member "error_type" +++ quote type_
  +++ "," +++ member "error_message" +++ quote message +++ "}".

(** What is left of the input after an item is shorter than the input,
    and the budget was enough. *)
Definition consumes {A : Type} (s : string) (r : res A) : Prop :=
  match r with
  | Done _ rest => (String.length rest < String.length s)%nat
  | Fail => True
  | OutOfFuel => False
  end.


(** The entry that the loop of ["selections"] appends for an element. *)
Definition selection_of (x : any) : mfaSelection.t :=
  match x with
  | Amap m =>
    mfaSelection.mk
      (map (fun a => fst (assert_string a)) (fst (assert_slice (map_index m "answers"))))
      (fst (assert_string (map_index m "question")))
  | _ => mfaSelection.mk [] ""
  end.

(** What the loop of ["selections"] asks of an element: an object whose
    [answers] is an array that is empty or ends with a string, and whose
    [question] is a string. *)
Definition selection_accepted (x : any) : bool :=
  match x with
  | Amap m =>
    match map_index m "answers" with
    | Aslice answers =>
      match answers with
      | [] => true
      | _ => is_string (last answers Anil)
      end && is_string (map_index m "question")
    | _ => false
    end
  | _ => false
  end.

(** A client whose server asks for a code sent to a device. *)
Definition device_challenge_body : string :=
  js "{'access_token':'tok','type':'device','mfa':{'message':'code sent'}}".

Definition challenged_client : Client :=
  mkClient "id" "secret" Sandbox (answering 201 device_challenge_body).

(* ================================================================= *)
(** ** Vocabulary of the further properties *)

(** The statuses for which [unmarshalPostMFA] reads the body. *)
Definition reads_body (StatusCode : Z) : bool :=
  (StatusCode =? 200) || (StatusCode =? 201) || (400 <=? StatusCode).

(** What [json.Unmarshal] makes of the body of a challenge. *)
Definition intermediate (body : string) : mfaIntermediate.t :=
  fst (Unmarshal mfaIntermediate.store body mfaIntermediate.zero).

(** What the loop of ["list"] asks of an element, an object whose [mask]
    and [type] are strings, and the entry it appends for it. *)
Definition list_accepted (x : any) : bool :=
  match x with
  | Amap m => is_string (map_index m "mask") && is_string (map_index m "type")
  | _ => false
  end.

Definition list_of (x : any) : mfaList.t :=
  match x with
  | Amap m =>
    mfaList.mk (fst (assert_string (map_index m "mask")))
               (fst (assert_string (map_index m "type")))
  | _ => mfaList.mk "" ""
  end.

(** The same for the loop of ["questions"]: an object whose [question]
    is a string. *)
Definition question_accepted (x : any) : bool :=
  match x with
  | Amap m => is_string (map_index m "question")
  | _ => false
  end.

Definition question_of (x : any) : mfaQuestion.t :=
  match x with
  | Amap m => mfaQuestion.mk (fst (assert_string (map_index m "question")))
  | _ => mfaQuestion.mk ""
  end.

(** The texts of the errors of [errors.New] for each type of challenge. *)
Definition challenge_error_texts (ty : string) : list string :=
  if String.eqb ty "device" then ["Could not decode device mfa"]
  else if String.eqb ty "list" then ["Could not decode list mfa"]
  else if String.eqb ty "questions" then
    ["Could not decode questions mfa"; "Could not decode questions mfa question"]
  else if String.eqb ty "selections" then
    ["Could not decode selections mfa"; "Could not decode selections answers";
     "Could not decode selections questions"]
  else [].

(** The request that [postAndUnmarshal], [patchAndUnmarshal] and
    [deleteAndUnmarshal] hand to the HTTP client, and the one of
    [Transactions]. *)
Definition json_request (method url body : string) : Request.t :=
  Request.mk method url
    [("Content-Type", "application/json"); ("User-Agent", "plaid-go")] body.

Definition transactions_request (clientID secret environment : string)
    (accessToken startDate endDate : string) (options : TransactionOptionsJson.t)
  : Request.t :=
  json_request "POST" (environment +++ "/transactions/get")
    (transactionJson.Marshal
       (transactionJson.mk clientID secret accessToken startDate endDate options)).

(** The tree of the JSON text that [GetInstitutionById] sends, and the
    body of an answer that holds the name of the institution. *)
Definition institution_tree (publicKey institutionId : string) : value :=
  Object [("institution_id", Str institutionId); ("public_key", Str publicKey)].

Definition institution_body (name : string) : string :=
  "{" +++ member "institution" +++ "{" +++ member "name" +++ quote name +++ "}}".

(** A server whose answer cannot be read to its end. *)
Definition truncated (code : Z) (partial : string) (text : string) : Doer :=
  fun _ => inl (Response.mk code partial (Some (NetError text))).

(** An HTTP client that answers the requests sent to one URL and refuses
    the others. *)
Definition only_at (url : string) (code : Z) (body : string) : Doer :=
  fun req =>
    if String.eqb (Request.URL req) url then inl (Response.mk code body None)
    else inr (NetError "no such host").

(** The three ways in which a call fails before anything is decoded: the
    URL does not parse, the HTTP client fails, or the body cannot be read
    to its end. *)
Definition transport_fails (url_Parse : string -> option error) (c : Client)
    (method endpoint body : string) (err : error) : Prop :=
  url_Parse (environment c +++ endpoint) = Some err
  \/ (url_Parse (environment c +++ endpoint) = None
      /\ (httpClient c (json_request method (environment c +++ endpoint) body) = inr err
          \/ exists res,
             httpClient c (json_request method (environment c +++ endpoint) body) = inl res
             /\ Response.ReadErr res = Some err)).

(** An [http.Get] that is answered with the status [code] and the body
    [body]. *)
Definition get_answering (code : Z) (body : string) : string -> Response.t + error :=
  fun _ => inl (Response.mk code body None).

(** What is read back of a string that [json.Marshal] wrote: the string
    with every byte that starts no valid UTF-8 sequence replaced by the
    three bytes of U+FFFD. *)
Fixpoint replace_invalid_fuel (fuel : nat) (s : string) : string :=
  match fuel with
  | O => EmptyString
  | S fuel' =>
    match s with
    | EmptyString => EmptyString
    | String c s' =>
      if b2z c <? utf8.RuneSelf then String c (replace_invalid_fuel fuel' s')
      else
        let '(r, size) := utf8.DecodeRune s in
        if (r =? utf8.RuneError) && (size =? 1)%nat
        then utf8.EncodeRune utf8.RuneError +++ replace_invalid_fuel fuel' (drop size s)
        else take size s +++ replace_invalid_fuel fuel' (drop size s)
    end
  end.

Definition replace_invalid (s : string) : string :=
  replace_invalid_fuel (String.length s) s.

Definition with_replacements (x : transactionJson.t) : transactionJson.t :=
  transactionJson.mk
    (replace_invalid (transactionJson.ClientID x))
    (replace_invalid (transactionJson.Secret x))
    (replace_invalid (transactionJson.AccessToken x))
    (replace_invalid (transactionJson.StartDate x))
    (replace_invalid (transactionJson.EndDate x))
    (transactionJson.Options x).

(** A member name that names no field of [postResponse], of
    [mfaIntermediate] or of [plaidError], in any case of its letters. *)
Definition unknown_member (k : string) : bool :=
  match field_index postResponse.names k, field_index mfaIntermediate.names k,
        field_index plaidError.names k with
  | None, None, None => true
  | _, _, _ => false
  end.

(** The body of a success that holds an access token and the number of
    transactions, and the body of a challenge of type ["device"], with
    their strings written as [json.Marshal] writes a string. *)
Definition success_body (token : string) (total : Z) : string :=
  "{" +++ member "access_token" +++ quote token
  +++ "," +++ member "total_transactions" +++ strconv.FormatInt total +++ "}".

Definition device_body (token message : string) : string :=
  "{" +++ member "access_token" +++ quote token
  +++ "," +++ member "type" +++ quote "device"
  +++ "," +++ member "mfa" +++ "{" +++ member "message" +++ quote message +++ "}}".

(* ================================================================= *)
(** * Properties *)

(** Case analysis on the scrutinee of the first [match] of the goal. *)
Ltac break_match :=
  match goal with
  | |- context [match ?x with _ => _ end] => destruct x eqn:?
  end.

(** ** The three results of the decoder *)

Lemma populated_err (e : error) : populated (None, None, Some e) = 1%nat.
Proof. reflexivity. Qed.

Lemma populated_mfa (m : mfaResponse.t) : populated (None, Some m, None) = 1%nat.
Proof. reflexivity. Qed.

Lemma populated_post (p : postResponse.t) : populated (Some p, None, None) = 1%nat.
Proof. reflexivity. Qed.

(** C1. For every status code and every body, exactly one of the three
    results of [unmarshalPostMFA] is populated and the other two are
    [nil]: the kind of the outcome is never ambiguous. *)
Theorem unmarshalPostMFA_exactly_one (StatusCode : Z) (body : string) :
  populated (unmarshalPostMFA StatusCode body) = 1%nat
  /\ kind_of (unmarshalPostMFA StatusCode body) <> Ambiguous.
Proof.
  unfold unmarshalPostMFA.
  repeat break_match;
    (split;
     [ first [ apply populated_err | apply populated_mfa | apply populated_post ]
     | discriminate ]).
Qed.

(** ** Dispatch on the status code *)

(** Status 200: the body is read as a [postResponse], and the result is
    that value or the error of [json.Unmarshal]. *)
Lemma dispatch_200 (body : string) :
  unmarshalPostMFA 200 body =
  match Unmarshal postResponse.store body postResponse.zero with
  | (_, Some err) => (None, None, Some (JsonError err))
  | (postRes, None) => (Some postRes, None, None)
  end.
Proof. reflexivity. Qed.

(** Status 201: the result is a challenge, or an error that is not a
    [plaidError]; it is never a [postResponse]. *)
Lemma dispatch_201 (body : string) :
  (exists m, unmarshalPostMFA 201 body = (None, Some m, None))
  \/ (exists e, unmarshalPostMFA 201 body = (None, None, Some (JsonError e)))
  \/ (exists text, unmarshalPostMFA 201 body = (None, None, Some (ErrorString text))).
Proof.
  unfold unmarshalPostMFA. cbn [Z.eqb Pos.eqb]. unfold errors_New.
  assert (Hl : forall l acc, (exists x, list_loop l acc = inr x)
                             \/ exists t, list_loop l acc = inl (ErrorString t)).
  { induction l as [|v l IH]; intros acc; cbn; [eauto|].
    unfold errors_New. repeat break_match; cbn; eauto. }
  assert (Hq : forall l acc, (exists x, questions_loop l acc = inr x)
                             \/ exists t, questions_loop l acc = inl (ErrorString t)).
  { induction l as [|v l IH]; intros acc; cbn; [eauto|].
    unfold errors_New. repeat break_match; cbn; eauto. }
  assert (Hs : forall l acc, (exists x, selections_loop l acc = inr x)
                             \/ exists t, selections_loop l acc = inl (ErrorString t)).
  { induction l as [|v l IH]; intros acc; cbn; [eauto|].
    unfold errors_New. repeat break_match; cbn; eauto. }
  destruct (Unmarshal mfaIntermediate.store body mfaIntermediate.zero) as [inter [e|]];
    [eauto|].
  destruct (String.eqb _ "device").
  { repeat break_match; eauto. }
  destruct (String.eqb _ "list").
  { destruct (assert_slice _) as [temp ok]. destruct ok; cbn; [|eauto].
    destruct (Hl temp []) as [[x ->]|[t ->]]; eauto. }
  destruct (String.eqb _ "questions").
  { destruct (assert_slice _) as [temp ok]. destruct ok; cbn; [|eauto].
    destruct (Hq temp []) as [[x ->]|[t ->]]; eauto. }
  destruct (String.eqb _ "selections").
  { destruct (assert_slice _) as [temp ok]. destruct ok; cbn; [|eauto].
    destruct (Hs temp []) as [[x ->]|[t ->]]; eauto. }
  eauto.
Qed.

(** Status 400 and above: the body is read as a [plaidError], and the
    result is that value with the status code stored in it, or the error
    of [json.Unmarshal]. *)
Lemma dispatch_400 (StatusCode : Z) (body : string) :
  400 <= StatusCode ->
  unmarshalPostMFA StatusCode body =
  match Unmarshal plaidError.store body plaidError.zero with
  | (_, Some err) => (None, None, Some (JsonError err))
  | (plaidErr, None) =>
    (None, None, Some (PlaidError (plaidError.with_StatusCode plaidErr StatusCode)))
  end.
Proof.
  intros H. unfold unmarshalPostMFA.
  destruct (Z.eqb_spec StatusCode 200); [lia|].
  destruct (Z.eqb_spec StatusCode 201); [lia|].
  destruct (Z.leb_spec 400 StatusCode); [reflexivity|lia].
Qed.

(** Any other status: the result is an error made by [errors.New], whose
    text ends with the conversion [string(res.StatusCode)]. *)
Lemma dispatch_other (StatusCode : Z) (body : string) :
  StatusCode <> 200 -> StatusCode <> 201 -> StatusCode < 400 ->
  unmarshalPostMFA StatusCode body =
  (None, None,
   Some (errors_New ("Unknown Plaid Error - Status:" +++ string_of_int_conv StatusCode))).
Proof.
  intros H0 H1 H4. unfold unmarshalPostMFA.
  destruct (Z.eqb_spec StatusCode 200); [lia|].
  destruct (Z.eqb_spec StatusCode 201); [lia|].
  destruct (Z.leb_spec 400 StatusCode); [lia|reflexivity].
Qed.

(** C2. The error for an unknown status does not carry the status code:
    [string(res.StatusCode)] is the character whose code point is the
    status, not its decimal digits.  For status 302 the text ends with the
    two bytes of U+012E and is not the text with "302"; and the statuses
    -1 and -2 give the same error, the one of U+FFFD. *)
Theorem unknown_status_is_a_rune (body : string) :
  unmarshalPostMFA 302 body =
    (None, None,
     Some (errors_New ("Unknown Plaid Error - Status:"
                       +++ String (z2b 196) (String (z2b 174) EmptyString))))
  /\ unmarshalPostMFA 302 body <> (None, None, Some (unknown_status_decimal 302))
  /\ unmarshalPostMFA (-1) body = unmarshalPostMFA (-2) body.
Proof.
  split; [reflexivity|]. split; [|reflexivity].
  cbv. intros H. discriminate H.
Qed.

(** ** Determinism *)

(** C9. Decoding is deterministic: two runs of [unmarshalPostMFA] on the
    same status code and the same body give equal results, field for
    field. *)
Theorem unmarshalPostMFA_deterministic (StatusCode : Z) (body : string) (r1 r2 : result3) :
  unmarshalPostMFA StatusCode body = r1 ->
  unmarshalPostMFA StatusCode body = r2 ->
  r1 = r2.
Proof. intros H1 H2. rewrite <- H1, <- H2. reflexivity. Qed.

Lemma unmarshalPostMFA_deterministic_witness :
  unmarshalPostMFA 201 (js "{'type':'device','mfa':{'message':'call your bank'}}")
  = (None,
     Some (mfaResponse.mk "" "device" (mfaDevice.mk "call your bank") [] [] []),
     None).
Proof.
  apply (unmarshalPostMFA_deterministic 201
           (js "{'type':'device','mfa':{'message':'call your bank'}}"));
    reflexivity.
Defined.

(** ** Challenges *)




(** After the loop over [tempAnswers], [ok] is the outcome of the last
    type assertion only, and [answers] holds the empty string wherever an
    entry was not a string. *)
Lemma answers_loop_last (tempAnswers : list any) (ok : bool) :
  answers_loop tempAnswers ok =
  (map (fun a => fst (assert_string a)) tempAnswers,
   match tempAnswers with
   | [] => ok
   | _ => snd (assert_string (last tempAnswers Anil))
   end).
Proof.
  revert ok. induction tempAnswers as [|a l IH]; intros ok; [reflexivity|].
  cbn [answers_loop map]. destruct (assert_string a) as [s ok'] eqn:Ha. rewrite IH.
  destruct l as [|b l]; cbn [last]; [rewrite Ha|]; reflexivity.
Qed.

(** C3. A ["selections"] challenge with a number before the last entry of
    an [answers] array does not have the shape asked for, and yet it is
    decoded to a challenge, the number replaced by the empty string. *)
Theorem selections_non_string_answer_accepted :
  let body :=
    (js "{'type':'selections','mfa':[{'question':'Pick one','answers':[1,'a']}]}") in
  (exists mfaInter,
      Unmarshal mfaIntermediate.store body mfaIntermediate.zero = (mfaInter, None)
      /\ mfaIntermediate.Type_ mfaInter = "selections"
      /\ selections_shape (mfaIntermediate.MFA mfaInter) = false)
  /\ unmarshalPostMFA 201 body =
     (None,
      Some (mfaResponse.mk "" "selections" (mfaDevice.mk "") [] []
              [mfaSelection.mk [""; "a"] "Pick one"]),
      None).
Proof.
  cbv zeta. split; [|vm_compute; reflexivity].
  eexists. split; [vm_compute; reflexivity|]. split; reflexivity.
Qed.

(** ** The four shapes of a challenge *)

Example device_challenge :
  unmarshalPostMFA 201
    (js "{'access_token':'tok','type':'device','mfa':{'message':'call your bank'}}")
  = (None,
     Some (mfaResponse.mk "tok" "device" (mfaDevice.mk "call your bank") [] [] []),
     None).
Proof. reflexivity. Qed.

Example list_challenge :
  unmarshalPostMFA 201
    (js "{'access_token':'tok','type':'list','mfa':[{'mask':'1234','type':'checking'}]}")
  = (None,
     Some (mfaResponse.mk "tok" "list" (mfaDevice.mk "")
             [mfaList.mk "1234" "checking"] [] []),
     None).
Proof. reflexivity. Qed.

Example list_without_mask :
  unmarshalPostMFA 201 (js "{'access_token':'tok','type':'list','mfa':[{'type':'checking'}]}")
  = (None, None, Some (errors_New "Could not decode list mfa")).
Proof. reflexivity. Qed.

Example questions_challenge :
  unmarshalPostMFA 201
    (js "{'access_token':'tok','type':'questions','mfa':[{'question':'Pet?'},{'question':'City?'}]}")
  = (None,
     Some (mfaResponse.mk "tok" "questions" (mfaDevice.mk "") []
             [mfaQuestion.mk "Pet?"; mfaQuestion.mk "City?"] []),
     None).
Proof. reflexivity. Qed.

Example selections_challenge :
  unmarshalPostMFA 201
    (js "{'access_token':'tok','type':'selections','mfa':[{'question':'Pick one','answers':['a','b']}]}")
  = (None,
     Some (mfaResponse.mk "tok" "selections" (mfaDevice.mk "") [] []
             [mfaSelection.mk ["a"; "b"] "Pick one"]),
     None).
Proof. reflexivity. Qed.

(** The texts of the errors of a ["selections"] challenge: one for an
    [mfa] that is not an array and for an element that is not an object,
    one for the answers and one for the question. *)
Example selections_not_an_array :
  unmarshalPostMFA 201 (js "{'type':'selections','mfa':{'question':'Pick one'}}")
  = (None, None, Some (errors_New "Could not decode selections mfa")).
Proof. reflexivity. Qed.

Example selections_answers_not_an_array :
  unmarshalPostMFA 201
    (js "{'type':'selections','mfa':[{'question':'Pick one','answers':'a'}]}")
  = (None, None, Some (errors_New "Could not decode selections answers")).
Proof. reflexivity. Qed.

Example selections_last_answer_not_a_string :
  unmarshalPostMFA 201
    (js "{'type':'selections','mfa':[{'question':'Pick one','answers':['a',1]}]}")
  = (None, None, Some (errors_New "Could not decode selections answers")).
Proof. reflexivity. Qed.

Example selections_question_not_a_string :
  unmarshalPostMFA 201 (js "{'type':'selections','mfa':[{'question':1,'answers':['a']}]}")
  = (None, None, Some (errors_New "Could not decode selections questions")).
Proof. reflexivity. Qed.

Lemma last_is_string (answers : list any) :
  forallb is_string answers = true ->
  match answers with
  | [] => true
  | _ => snd (assert_string (last answers Anil))
  end = true.
Proof.
  induction answers as [|a l IH]; [reflexivity|]. cbn [forallb]. intros H.
  apply andb_true_iff in H. destruct H as [Ha Hl].
  destruct l as [|b l]; [destruct a; try discriminate; reflexivity|].
  exact (IH Hl).
Qed.

(** Elements of the shape asked for are all decoded, in their order. *)
Lemma selections_loop_shape (selections : list any) (Selections : list mfaSelection.t) :
  forallb selection_shape selections = true ->
  selections_loop selections Selections
  = inr (Selections ++ map selection_of selections)%list.
Proof.
  revert Selections. induction selections as [|v l IH]; intros acc H.
  - cbn. rewrite List.app_nil_r. reflexivity.
  - cbn [forallb] in H. apply andb_true_iff in H. destruct H as [Hv Hl].
    destruct v as [| | | | |m]; try discriminate Hv. cbn [selection_shape] in Hv.
    cbn [selections_loop assert_map negb selection_of map].
    destruct (map_index m "answers") as [| | | |answers|] eqn:Ea; try discriminate Hv.
    apply andb_true_iff in Hv. destruct Hv as [Hans Hq].
    cbn [assert_slice negb fst]. rewrite answers_loop_last, (last_is_string _ Hans).
    cbn [negb].
    destruct (map_index m "question") as [| | |q| |]; try discriminate Hq.
    cbn [assert_string negb fst]. rewrite (IH _ Hl), <- List.app_assoc. reflexivity.
Qed.

(** The loop decodes a list of elements exactly when each of them is an
    object whose [answers] is an array that is empty or ends with a string
    and whose [question] is a string; the entries before the last one are
    not checked. *)
Lemma selections_loop_accepted (selections : list any) (Selections : list mfaSelection.t) :
  if forallb selection_accepted selections
  then selections_loop selections Selections
       = inr (Selections ++ map selection_of selections)%list
  else exists text, selections_loop selections Selections = inl (errors_New text).
Proof.
  revert Selections. induction selections as [|v l IH]; intros acc.
  - cbn. rewrite List.app_nil_r. reflexivity.
  - cbn [forallb selections_loop].
    destruct v as [| | | | |m]; cbn [selection_accepted assert_map negb andb]; eauto.
    destruct (map_index m "answers") as [| | | |answers|] eqn:Ea;
      cbn [assert_slice negb andb]; eauto.
    rewrite answers_loop_last.
    destruct (match answers with [] => true | _ => is_string (last answers Anil) end)
      eqn:Hlast.
    + assert (Hok : match answers with
                    | [] => true
                    | _ => snd (assert_string (last answers Anil))
                    end = true).
      { destruct answers as [|a answers]; [reflexivity|].
        destruct (last (a :: answers) Anil); try discriminate Hlast; reflexivity. }
      rewrite Hok. cbn [negb andb].
      destruct (map_index m "question") as [| | |q| |] eqn:Eq;
        cbn [is_string assert_string negb andb]; eauto.
      specialize (IH (acc ++ [mfaSelection.mk (map (fun a => fst (assert_string a)) answers) q])%list).
      destruct (forallb selection_accepted l).
      * rewrite IH, <- List.app_assoc. cbn [selection_of map]. rewrite Ea, Eq.
        reflexivity.
      * exact IH.
    + assert (Hok : match answers with
                    | [] => true
                    | _ => snd (assert_string (last answers Anil))
                    end = false).
      { destruct answers as [|a answers]; [discriminate Hlast|].
        destruct (last (a :: answers) Anil); try discriminate Hlast; reflexivity. }
      rewrite Hok. cbn [negb andb]. eauto.
Qed.

(** The shape asked for is accepted; the converse fails. *)
Lemma selection_shape_accepted (x : any) :
  selection_shape x = true -> selection_accepted x = true.
Proof.
  destruct x as [| | | | |m]; try discriminate. cbn.
  destruct (map_index m "answers") as [| | | |answers|]; try discriminate.
  intros H. apply andb_true_iff in H. destruct H as [Ha Hq]. rewrite Hq, andb_true_r.
  pose proof (last_is_string answers Ha) as Hl.
  destruct answers as [|a answers]; [reflexivity|].
  destruct (last (a :: answers) Anil); try discriminate Hl; reflexivity.
Qed.

(** ** The error value *)

(** The text of a [plaidError] is made of its four string fields. *)
Lemma plaidError_Error_fields (e : plaidError.t) :
  plaidError.Error e =
  "Plaid Error - http status: " +++ plaidError.ErrorCode e
  +++ ", code: " +++ plaidError.ErrorType e
  +++ ", message: " +++ plaidError.ErrorMessage e
  +++ ", display: " +++ plaidError.DisplayMessage e.
Proof. reflexivity. Qed.

(** C4. The text of a [plaidError] does not combine its status code with
    the other fields: what follows "http status:" is the error code, and
    the same error with the statuses 404 and 500 has the same text. *)
Theorem plaidError_Error_without_StatusCode :
  plaidError.Error (plaidError.mk "ITEM_NOT_FOUND" "ITEM_ERROR" "not found" "" 404)
  = "Plaid Error - http status: ITEM_NOT_FOUND, code: ITEM_ERROR, message: not found, display: "
  /\ forall (e : plaidError.t) (code : Z),
       plaidError.Error (plaidError.with_StatusCode e code) = plaidError.Error e.
Proof. split; [reflexivity|]. intros [a b c d n] code. reflexivity. Qed.

Lemma plaidError_http_code_Error_without_StatusCode
    (http : Z) (code message : string) (status status' : Z) :
  plaidError_http_code.Error (plaidError_http_code.mk http code message status)
  = plaidError_http_code.Error (plaidError_http_code.mk http code message status').
Proof. reflexivity. Qed.

(** ** The callers of the decoder *)

(** A body that is not a JSON text is stored nowhere. *)
Lemma Unmarshal_syntax_error {T : Type} (store : value -> T -> T * option json.error)
    (data : string) (cur : T) :
  (forall v rest, parse data <> Done v rest) ->
  Unmarshal store data cur = (cur, Some SyntaxError).
Proof.
  intros H. unfold Unmarshal. destruct (parse data) eqn:Hp; [|reflexivity..].
  exfalso. exact (H _ _ eq_refl).
Qed.

(** C5. The lookup of an institution by its id does not return a failure
    to decode the response: when the body is not a JSON text, it prints
    the error and returns the empty name; and when the request fails, it
    panics. *)
Theorem GetInstitutionById_hides_failures
    (url_Parse : string -> option error) (Do : Doer) (publicKey institutionId : string) :
  url_Parse "https://production.plaid.com/institutions/get_by_id" = None ->
  (forall resp,
      Do (institution_request publicKey institutionId) = inl resp ->
      (forall v rest, parse (Response.Body resp) <> Done v rest) ->
      GetInstitutionById url_Parse Do publicKey institutionId
      = ([JsonError SyntaxError], Returns ""))
  /\ (forall err,
      Do (institution_request publicKey institutionId) = inr err ->
      GetInstitutionById url_Parse Do publicKey institutionId = ([], Panics (inl err))).
Proof.
  intros Hurl.
  assert (Hrun : GetInstitutionById url_Parse Do publicKey institutionId =
                 match Do (institution_request publicKey institutionId) with
                 | inl resp =>
                   let '(institutionResult, marshalErr) :=
                     Unmarshal InstitutionJson.store (Response.Body resp)
                       InstitutionJson.zero in
                   (match marshalErr with
                    | Some e => [JsonError e]
                    | None => []
                    end,
                    Returns (Institution.Name
                               (InstitutionJson.Institution institutionResult)))
                 | inr err => ([], Panics (inl err))
                 end).
  { unfold GetInstitutionById, NewRequest. rewrite Hurl. reflexivity. }
  rewrite Hrun. split.
  - intros resp -> Hbad.
    rewrite (Unmarshal_syntax_error InstitutionJson.store _ _ Hbad). reflexivity.
  - intros err ->. reflexivity.
Qed.

Lemma GetInstitutionById_hides_failures_witness :
  GetInstitutionById any_url (answering 200 "<html>Bad Gateway</html>") "key" "ins_1"
  = ([JsonError SyntaxError], Returns "")
  /\ GetInstitutionById any_url (unreachable "dial tcp: i/o timeout") "key" "ins_1"
     = ([], Panics (inl (NetError "dial tcp: i/o timeout"))).
Proof.
  split.
  - apply (proj1 (GetInstitutionById_hides_failures any_url
                    (answering 200 "<html>Bad Gateway</html>") "key" "ins_1" eq_refl)
             (Response.mk 200 "<html>Bad Gateway</html>" None) eq_refl).
    intros v rest. vm_compute. discriminate.
  - apply (proj2 (GetInstitutionById_hides_failures any_url
                    (unreachable "dial tcp: i/o timeout") "key" "ins_1" eq_refl)
             (NetError "dial tcp: i/o timeout") eq_refl).
Defined.

(** A decode failure of another kind: a body whose [name] is a number is
    printed as a type error, and the name returned is empty. *)
Example GetInstitutionById_type_error :
  GetInstitutionById any_url (answering 200 (js "{'institution':{'name':5}}")) "key" "ins_1"
  = ([JsonError (UnmarshalTypeError "number")], Returns "").
Proof. reflexivity. Qed.

(** Neither is the status code looked at: the error body of a 404 has no
    [institution], and the empty name is returned without a word. *)
Example GetInstitutionById_remote_error :
  GetInstitutionById any_url
    (answering 404 (error_body "INVALID_INSTITUTION" "INVALID_INPUT" "not found"))
    "key" "ins_1"
  = ([], Returns "").
Proof. reflexivity. Qed.

Example GetInstitutionById_success :
  GetInstitutionById any_url (answering 200 (js "{'institution':{'name':'Chase'}}"))
    "key" "ins_1"
  = ([], Returns "Chase").
Proof. reflexivity. Qed.

(** [Transactions] returns the first and the third result of the
    decoder. *)
Lemma Transactions_results (url_Parse : string -> option error) (c : Client)
    (accessToken startDate endDate : string) (options : TransactionOptionsJson.t)
    (res : Response.t) :
  send url_Parse c "POST" "/transactions/get"
    (transactionJson.Marshal
       (transactionJson.mk (clientID c) (secret c) accessToken startDate endDate options))
  = inl res ->
  Transactions url_Parse c accessToken startDate endDate options
  = (fst (fst (unmarshalPostMFA (Response.StatusCode res) (Response.Body res))),
     snd (unmarshalPostMFA (Response.StatusCode res) (Response.Body res))).
Proof.
  intros H. unfold Transactions, postAndUnmarshal. rewrite H.
  destruct (unmarshalPostMFA _ _) as [[p m] e]. reflexivity.
Qed.

(** With status 201 the payload of [Transactions] is always [nil]: what
    is left of the response is the error of the decoder, if any. *)
Lemma Transactions_201_no_payload (url_Parse : string -> option error) (c : Client)
    (accessToken startDate endDate : string) (options : TransactionOptionsJson.t)
    (res : Response.t) :
  send url_Parse c "POST" "/transactions/get"
    (transactionJson.Marshal
       (transactionJson.mk (clientID c) (secret c) accessToken startDate endDate options))
  = inl res ->
  Response.StatusCode res = 201 ->
  fst (Transactions url_Parse c accessToken startDate endDate options) = None.
Proof.
  intros Hs H201. rewrite (Transactions_results _ _ _ _ _ _ _ Hs), H201. cbn [fst].
  destruct (dispatch_201 (Response.Body res)) as [[m ->]|[[e ->]|[t ->]]]; reflexivity.
Qed.

(** C8. When the response to [Transactions] has status 201, the payload
    returned is [nil]; and when the decoder makes a challenge of the
    response, the error returned is [nil] as well: the challenge is
    dropped and the caller receives neither a result nor an error. *)
Theorem Transactions_drops_challenge (url_Parse : string -> option error) (c : Client)
    (accessToken startDate endDate : string) (options : TransactionOptionsJson.t)
    (res : Response.t) :
  send url_Parse c "POST" "/transactions/get"
    (transactionJson.Marshal
       (transactionJson.mk (clientID c) (secret c) accessToken startDate endDate options))
  = inl res ->
  Response.StatusCode res = 201 ->
  fst (Transactions url_Parse c accessToken startDate endDate options) = None
  /\ forall mfaRes : mfaResponse.t,
       unmarshalPostMFA 201 (Response.Body res) = (None, Some mfaRes, None) ->
       Transactions url_Parse c accessToken startDate endDate options = (None, None).
Proof.
  intros Hs H201. split.
  - exact (Transactions_201_no_payload _ _ _ _ _ _ _ Hs H201).
  - intros mfaRes Hd. rewrite (Transactions_results _ _ _ _ _ _ _ Hs), H201, Hd.
    reflexivity.
Qed.

Lemma Transactions_drops_challenge_witness :
  Transactions any_url challenged_client "tok" "2017-01-01" "2017-02-01"
    (TransactionOptionsJson.mk 100 0)
  = (None, None).
Proof.
  apply (proj2 (Transactions_drops_challenge any_url challenged_client
                  "tok" "2017-01-01" "2017-02-01" (TransactionOptionsJson.mk 100 0)
                  (Response.mk 201 device_challenge_body None) eq_refl eq_refl)
           (mfaResponse.mk "tok" "device" (mfaDevice.mk "code sent") [] [] [])).
  reflexivity.
Defined.

(* ================================================================= *)
(** * The model of [encoding/json] *)

(** ** The recursion budget of the parser *)

Lemma consumes_rmap {A B : Type} (f : A -> B) (s : string) (r : res A) :
  consumes s r -> consumes s (rmap f r).
Proof. destruct r; exact (fun H => H). Qed.

Lemma consumes_shorter {A : Type} (s t : string) (r : res A) :
  (String.length s <= String.length t)%nat -> consumes s r -> consumes t r.
Proof. destruct r; cbn; [lia|auto|auto]. Qed.

Lemma length_drop (n : nat) (s : string) :
  (String.length (drop n s) <= String.length s)%nat.
Proof.
  revert s. induction n as [|n IH]; intros [|c s]; cbn; try lia.
  specialize (IH s). lia.
Qed.

Lemma length_skip_ws (s : string) : (String.length (skip_ws s) <= String.length s)%nat.
Proof.
  induction s as [|c s IH]; cbn; [lia|]. destruct (isSpace c); cbn; lia.
Qed.

Lemma hex4_length (s : string) (r : Z) (rest : string) :
  hex4 s = Some (r, rest) -> (String.length rest + 4)%nat = String.length s.
Proof.
  unfold hex4. destruct s as [|a [|b [|c [|d s]]]]; try discriminate.
  destruct (hexval a), (hexval b), (hexval c), (hexval d); try discriminate.
  intros H. injection H as _ <-. cbn. lia.
Qed.

Lemma getu4_length (s : string) (r : Z) (rest : string) :
  getu4 s = Some (r, rest) -> (String.length rest + 6)%nat = String.length s.
Proof.
  unfold getu4. destruct s as [|a [|b s]]; try discriminate.
  destruct (_ && _); [|discriminate]. intros H. apply hex4_length in H. cbn. lia.
Qed.

Lemma DecodeRune_size_pos (c : ascii) (s : string) :
  (1 <= snd (utf8.DecodeRune (String c s)))%nat.
Proof.
  unfold utf8.DecodeRune.
  repeat match goal with
         | |- context [match ?x with _ => _ end] => destruct x
         end; cbn; lia.
Qed.

Lemma scan_string_consumes (fuel : nat) :
  forall s, (String.length s < fuel)%nat -> consumes s (scan_string fuel s).
Proof.
  induction fuel as [|fuel IH]; intros s Hf; [lia|].
  destruct s as [|c s]; [exact I|]. cbn [scan_string]. cbn [String.length] in Hf.
  destruct (Ascii.eqb c dquote); [cbn; lia|].
  destruct (Ascii.eqb c "\").
  { destruct s as [|e s]; [exact I|]. cbn [String.length] in Hf.
    destruct (Ascii.eqb e "u").
    - destruct (hex4 s) as [[rr s3]|] eqn:Hh; [|exact I].
      apply hex4_length in Hh.
      assert (H3 : consumes (String c (String e s)) (scan_string fuel s3)).
      { eapply consumes_shorter; [|apply IH; lia]. cbn. lia. }
      destruct (IsSurrogate rr); [|apply consumes_rmap; exact H3].
      destruct (getu4 s3) as [[rr1 s4]|] eqn:Hg; [|apply consumes_rmap; exact H3].
      apply getu4_length in Hg.
      destruct (negb _); apply consumes_rmap; [|exact H3].
      eapply consumes_shorter; [|apply IH; lia]. cbn. lia.
    - destruct (simple_escape e); [|exact I]. apply consumes_rmap.
      eapply consumes_shorter; [|apply IH; lia]. cbn. lia. }
  destruct (b2z c <? 32); [exact I|].
  destruct (b2z c <? utf8.RuneSelf).
  { apply consumes_rmap. eapply consumes_shorter; [|apply IH; lia]. cbn. lia. }
  pose proof (DecodeRune_size_pos c s) as Hsz.
  destruct (utf8.DecodeRune (String c s)) as [rr size]. cbn [snd] in Hsz.
  apply consumes_rmap. destruct size as [|size]; [lia|]. cbn [drop].
  pose proof (length_drop size s).
  eapply consumes_shorter; [|apply IH; lia]. cbn. lia.
Qed.

Lemma string_lit_consumes (s : string) : consumes s (string_lit s).
Proof. apply scan_string_consumes. lia. Qed.

Lemma span_digits_length (s : string) :
  (String.length (snd (strconv.span_digits s)) <= String.length s)%nat.
Proof.
  induction s as [|c s IH]; cbn; [lia|].
  destruct (strconv.isDigit c); [|cbn; lia].
  destruct (strconv.span_digits s). cbn in *. lia.
Qed.

Lemma number_lit_consumes (s : string) : consumes s (number_lit s).
Proof.
  unfold number_lit.
  repeat match goal with
         | |- context [strconv.span_digits ?x] =>
           let H := fresh "H" in
           pose proof (span_digits_length x) as H;
           destruct (strconv.span_digits x); cbn [snd] in H
         | |- context [match ?x with _ => _ end] => is_var x; destruct x
         | |- context [if ?b then _ else _] => destruct b
         | _ => progress cbv beta iota
         end; cbn in *; lia || exact I.
Qed.

Lemma strip_prefix_length (p s rest : string) :
  strip_prefix p s = Some rest ->
  (String.length rest + String.length p)%nat = String.length s.
Proof.
  revert s. induction p as [|a p IH]; intros s H; cbn in *.
  - injection H as <-. lia.
  - destruct s as [|b s]; [discriminate|]. destruct (Ascii.eqb a b); [|discriminate].
    apply IH in H. cbn. lia.
Qed.

Lemma literal_consumes (p : string) (v : value) (s : string) :
  (1 <= String.length p)%nat -> consumes s (literal p v s).
Proof.
  intros Hp. unfold literal. destruct (strip_prefix p s) eqn:E; [|exact I].
  apply strip_prefix_length in E. cbn. lia.
Qed.

(** With a budget of twice the length of the input and one more (two more
    for the elements of an array), the parser does not run out of it. *)
Lemma parse_consumes (fuel : nat) :
  (forall depth s, (2 * String.length s + 1 <= fuel)%nat ->
                   consumes s (parse_value fuel depth s))
  /\ (forall depth s, (2 * String.length s + 1 <= fuel)%nat ->
                      consumes s (parse_members fuel depth s))
  /\ (forall depth s, (2 * String.length s + 2 <= fuel)%nat ->
                      consumes s (parse_elements fuel depth s)).
Proof.
  induction fuel as [|fuel (IHv & IHm & IHe)].
  { repeat split; intros; lia. }
  split; [|split]; intros depth s Hf.
  - destruct s as [|c s]; [exact I|]. cbn [parse_value]. cbn [String.length] in Hf.
    pose proof (length_skip_ws s) as Hw.
    destruct (Ascii.eqb c "{").
    { destruct (_ <? _); [exact I|].
      destruct (skip_ws s) as [|c1 r1] eqn:E; [exact I|]. cbn [String.length] in Hw.
      destruct (Ascii.eqb c1 "}"); [cbn; lia|]. apply consumes_rmap.
      eapply consumes_shorter; [|apply IHm; cbn; lia]. cbn. lia. }
    destruct (Ascii.eqb c "[").
    { destruct (_ <? _); [exact I|].
      destruct (skip_ws s) as [|c1 r1] eqn:E; [exact I|]. cbn [String.length] in Hw.
      destruct (Ascii.eqb c1 "]"); [cbn; lia|]. apply consumes_rmap.
      eapply consumes_shorter; [|apply IHe; cbn; lia]. cbn. lia. }
    destruct (Ascii.eqb c dquote).
    { apply consumes_rmap. eapply consumes_shorter; [|apply string_lit_consumes].
      cbn. lia. }
    destruct (_ || _); [apply consumes_rmap, number_lit_consumes|].
    repeat (destruct (Ascii.eqb c _); [apply literal_consumes; cbn; lia|]).
    exact I.
  - destruct s as [|q s1]; [exact I|]. cbn [parse_members]. cbn [String.length] in Hf.
    destruct (negb _); [exact I|].
    pose proof (string_lit_consumes s1) as Hk.
    destruct (string_lit s1) as [k r1| |]; [|exact I|contradiction]. cbn in Hk.
    pose proof (length_skip_ws r1) as Hw1.
    destruct (skip_ws r1) as [|c2 r2]; [exact I|]. cbn [String.length] in Hw1.
    destruct (negb _); [exact I|].
    pose proof (length_skip_ws r2) as Hw2.
    pose proof (IHv depth (skip_ws r2) ltac:(lia)) as Hv.
    destruct (parse_value fuel depth (skip_ws r2)) as [v r3| |];
      [|exact I|contradiction]. cbn in Hv.
    pose proof (length_skip_ws r3) as Hw3.
    destruct (skip_ws r3) as [|c4 r4]; [exact I|]. cbn [String.length] in Hw3.
    destruct (Ascii.eqb c4 "}"); [cbn; lia|].
    destruct (Ascii.eqb c4 ","); [|exact I]. apply consumes_rmap.
    pose proof (length_skip_ws r4) as Hw4.
    eapply consumes_shorter; [|apply IHm; lia]. cbn. lia.
  - cbn [parse_elements].
    pose proof (IHv depth s ltac:(lia)) as Hv.
    destruct (parse_value fuel depth s) as [v r1| |]; [|exact I|contradiction].
    cbn in Hv.
    pose proof (length_skip_ws r1) as Hw1.
    destruct (skip_ws r1) as [|c2 r2]; [exact I|]. cbn [String.length] in Hw1.
    destruct (Ascii.eqb c2 "]"); [cbn; lia|].
    destruct (Ascii.eqb c2 ","); [|exact I]. apply consumes_rmap.
    pose proof (length_skip_ws r2) as Hw2.
    eapply consumes_shorter; [|apply IHe; lia]. lia.
Qed.

(** The budget that [parse] gives is enough for every input: a text is
    refused for its syntax only. *)
Theorem parse_budget (data : string) : parse data <> OutOfFuel.
Proof.
  unfold parse.
  pose proof (length_skip_ws data) as Hw.
  pose proof (proj1 (parse_consumes (parse_fuel data)) 0 (skip_ws data)) as H.
  unfold parse_fuel in *.
  destruct (parse_value _ 0 (skip_ws data)) as [v rest| |].
  - destruct (skip_ws rest); discriminate.
  - discriminate.
  - exfalso. apply H. lia.
Qed.

(** ** The budgets of the encoder and of [utf8.ValidString] *)

Lemma length_drop_rune (c : ascii) (s : string) (n : nat) :
  (String.length (String c s) <= S n)%nat ->
  (String.length (drop (snd (utf8.DecodeRune (String c s))) (String c s)) <= n)%nat.
Proof.
  intros H. pose proof (DecodeRune_size_pos c s) as Hsz.
  destruct (snd (utf8.DecodeRune (String c s))) as [|size]; [lia|].
  cbn [drop]. pose proof (length_drop size s). cbn in H. lia.
Qed.

(** A budget of the length of the string is enough for [quote_body]
    and for [valid_fuel]: a larger one changes nothing. *)
Lemma quote_body_budget (n : nat) :
  forall (m : nat) (s : string),
    (String.length s <= n)%nat -> (String.length s <= m)%nat ->
    quote_body n s = quote_body m s.
Proof.
  induction n as [|n IH]; intros m s Hn Hm.
  - destruct s; [destruct m; reflexivity|cbn in Hn; lia].
  - destruct s as [|c s]; [destruct m; reflexivity|].
    destruct m as [|m]; [cbn in Hm; lia|].
    cbn [quote_body].
    pose proof (length_drop_rune c s n Hn) as Hdn.
    pose proof (length_drop_rune c s m Hm) as Hdm.
    destruct (utf8.DecodeRune (String c s)) as [r size]. cbn [snd] in Hdn, Hdm.
    rewrite (IH m s) by (cbn in Hn, Hm; lia).
    rewrite (IH m (drop size (String c s))) by assumption.
    reflexivity.
Qed.

Lemma valid_fuel_budget (n : nat) :
  forall (m : nat) (s : string),
    (String.length s <= n)%nat -> (String.length s <= m)%nat ->
    utf8.valid_fuel n s = utf8.valid_fuel m s.
Proof.
  induction n as [|n IH]; intros m s Hn Hm.
  - destruct s; [destruct m; reflexivity|cbn in Hn; lia].
  - destruct s as [|c s]; [destruct m; reflexivity|].
    destruct m as [|m]; [cbn in Hm; lia|].
    cbn [utf8.valid_fuel].
    pose proof (length_drop_rune c s n Hn) as Hdn.
    pose proof (length_drop_rune c s m Hm) as Hdm.
    destruct (utf8.DecodeRune (String c s)) as [r size]. cbn [snd] in Hdn, Hdm.
    rewrite (IH m (drop size (String c s))) by assumption.
    reflexivity.
Qed.

(** ** Maps and field names *)

(** The list of bindings behaves as a map: a key reads as the value last
    stored under it, and storing under one key leaves the others alone. *)
Lemma map_index_insert (m : list (string * any)) (k : string) (x : any) :
  map_index (map_insert k x m) k = x.
Proof.
  induction m as [|[k' y] m IH]; cbn.
  - rewrite String.eqb_refl. reflexivity.
  - destruct (String.eqb_spec k k') as [->|Hne]; cbn.
    + rewrite String.eqb_refl. reflexivity.
    + destruct (String.eqb_spec k k'); [contradiction|exact IH].
Qed.

Lemma map_index_insert_other (m : list (string * any)) (k k' : string) (x : any) :
  k <> k' -> map_index (map_insert k x m) k' = map_index m k'.
Proof.
  intros Hne. induction m as [|[k0 y] m IH]; cbn.
  - destruct (String.eqb_spec k' k); [congruence|reflexivity].
  - destruct (String.eqb_spec k k0) as [->|Hk]; cbn.
    + destruct (String.eqb_spec k' k0); [congruence|reflexivity].
    + destruct (String.eqb_spec k' k0); [reflexivity|exact IH].
Qed.

(** Of two members with one name the later one is kept, and the name of
    a member is matched without regard to case. *)
Example duplicate_member :
  Unmarshal mfaIntermediate.store (js "{'type':'a','TYPE':'b','mfa':{'k':1,'k':null}}")
    mfaIntermediate.zero
  = (mfaIntermediate.mk "" (Amap [("k", Anil)]) "b", None).
Proof. reflexivity. Qed.

(** The first error is the one returned, and nothing is stored from a
    text with a syntax error. *)
Example first_error_kept :
  Unmarshal plaidError.store (js "{'error_code':1,'error_type':true}") plaidError.zero
  = (plaidError.zero, Some (UnmarshalTypeError "number")).
Proof. reflexivity. Qed.

(* ================================================================= *)
(** * The JSON text of strings, numbers and objects *)

(** ** Bytes and UTF-8 *)

(** Bytes and their values. *)
Lemma b2z_range (c : ascii) : 0 <= b2z c < 256.
Proof.
  unfold b2z. pose proof (N_ascii_bounded c) as H. lia.
Qed.

Lemma z2b_b2z (c : ascii) : z2b (b2z c) = c.
Proof. unfold z2b, b2z. rewrite N2Z.id. apply ascii_N_embedding. Qed.

Lemma b2z_z2b (z : Z) : 0 <= z < 256 -> b2z (z2b z) = z.
Proof.
  intros H. unfold z2b, b2z. rewrite N_ascii_embedding by lia. lia.
Qed.

(** Turns the boolean comparisons of the context into propositions. *)
Ltac bool_to_prop :=
  repeat match goal with
  | H : _ && _ = true |- _ => apply andb_true_iff in H; destruct H
  | H : _ || _ = false |- _ => apply orb_false_iff in H; destruct H
  | H : negb _ = true |- _ => apply negb_true_iff in H
  | H : negb _ = false |- _ => apply negb_false_iff in H
  | H : (_ <? _) = true |- _ => apply Z.ltb_lt in H
  | H : (_ <? _) = false |- _ => apply Z.ltb_ge in H
  | H : (_ <=? _) = true |- _ => apply Z.leb_le in H
  | H : (_ <=? _) = false |- _ => apply Z.leb_gt in H
  | H : (_ =? _) = true |- _ => apply Z.eqb_eq in H
  | H : (_ =? _) = false |- _ => apply Z.eqb_neq in H
  end.


(** The leading bytes of the [first] table, by their value. *)
Lemma first_cases (p0 : Z) :
  128 <= p0 < 256 ->
  utf8.first p0 = utf8.InvalidByte
  \/ (utf8.first p0 = utf8.Lead 2 128 191 /\ 194 <= p0 < 224)
  \/ (utf8.first p0 = utf8.Lead 3 160 191 /\ p0 = 224)
  \/ (utf8.first p0 = utf8.Lead 3 128 159 /\ p0 = 237)
  \/ (utf8.first p0 = utf8.Lead 3 128 191 /\ 225 <= p0 < 240 /\ p0 <> 237)
  \/ (utf8.first p0 = utf8.Lead 4 144 191 /\ p0 = 240)
  \/ (utf8.first p0 = utf8.Lead 4 128 191 /\ 241 <= p0 < 244)
  \/ (utf8.first p0 = utf8.Lead 4 128 143 /\ p0 = 244).
Proof.
  intros H. unfold utf8.first.
  repeat match goal with
         | |- context [?a <? ?b] => destruct (Z.ltb_spec a b)
         | |- context [?a =? ?b] => destruct (Z.eqb_spec a b)
         end; try lia; tauto || (intuition lia).
Qed.

(** The encodings of two, three and four bytes. *)
Lemma EncodeRune_2 (r : Z) :
  128 <= r < 2048 -> utf8.EncodeRune r = utf8.str2 (192 + r / 64) (128 + r mod 64).
Proof.
  intros H. unfold utf8.EncodeRune.
  destruct (Z.leb_spec 0 r); [|lia]. destruct (Z.ltb_spec r 128); [lia|].
  destruct (Z.ltb_spec r 2048); [reflexivity|lia].
Qed.

Lemma EncodeRune_3 (r : Z) :
  2048 <= r < 65536 -> ~ (55296 <= r <= 57343) ->
  utf8.EncodeRune r =
  utf8.str3 (224 + r / 4096) (128 + (r / 64) mod 64) (128 + r mod 64).
Proof.
  intros H Hs. unfold utf8.EncodeRune, utf8.MaxRune, utf8.surrogateMin, utf8.surrogateMax.
  repeat match goal with
         | |- context [?a <? ?b] => destruct (Z.ltb_spec a b)
         | |- context [?a <=? ?b] => destruct (Z.leb_spec a b)
         end; cbn [andb orb]; try lia; reflexivity.
Qed.

Lemma EncodeRune_4 (r : Z) :
  65536 <= r <= 1114111 ->
  utf8.EncodeRune r =
  utf8.str4 (240 + r / 262144) (128 + (r / 4096) mod 64) (128 + (r / 64) mod 64)
            (128 + r mod 64).
Proof.
  intros H. unfold utf8.EncodeRune, utf8.MaxRune, utf8.surrogateMin, utf8.surrogateMax.
  repeat match goal with
         | |- context [?a <? ?b] => destruct (Z.ltb_spec a b)
         | |- context [?a <=? ?b] => destruct (Z.leb_spec a b)
         end; cbn [andb orb]; try lia; reflexivity.
Qed.

(** The byte whose value is [z] is [c] when [z] is the value of [c]. *)
Lemma z2b_eq (z : Z) (c : ascii) : z = b2z c -> z2b z = c.
Proof. intros ->. apply z2b_b2z. Qed.

(** A byte of the upper half is refused by [DecodeRune] with width 1, or
    starts a sequence of two to four bytes of the upper half that
    [EncodeRune] gives back for the rune decoded, whatever follows it. *)
Lemma DecodeRune_high (c : ascii) (s : string) :
  128 <= b2z c ->
  let '(r, size) := utf8.DecodeRune (String c s) in
  (r = utf8.RuneError /\ size = 1%nat)
  \/ ((2 <= size <= 4)%nat
      /\ String.length (take size (String c s)) = size
      /\ high_bytes (take size (String c s)) = true
      /\ utf8.EncodeRune r = take size (String c s)
      /\ 128 <= r
      /\ forall t, utf8.DecodeRune (take size (String c s) +++ t) = (r, size)).
Proof.
  intros Hc. pose proof (b2z_range c) as Rc.
  assert (Hhi : forall x, 128 <= b2z x -> (128 <=? b2z x) = true)
    by (intros; apply Z.leb_le; assumption).
  destruct (first_cases (b2z c) ltac:(lia))
    as [Hf|[[Hf R]|[[Hf R]|[[Hf R]|[[Hf R]|[[Hf R]|[[Hf R]|[Hf R]]]]]]]];
    unfold utf8.DecodeRune; rewrite Hf; [left; split; reflexivity | ..];
    (destruct s as [|c1 s]; [left; split; reflexivity|]);
    pose proof (b2z_range c1) as Rc1;
    (destruct ((b2z c1 <? _) || (_ <? b2z c1)) eqn:E1; [left; split; reflexivity|]);
    cbn [Nat.leb];
    try (destruct s as [|c2 s]; [left; split; reflexivity|];
         pose proof (b2z_range c2) as Rc2;
         destruct (negb (utf8.cont (b2z c2))) eqn:E2; [left; split; reflexivity|];
         unfold utf8.cont in E2);
    try (destruct s as [|c3 s]; [left; split; reflexivity|];
         pose proof (b2z_range c3) as Rc3;
         destruct (negb (utf8.cont (b2z c3))) eqn:E3; [left; split; reflexivity|];
         unfold utf8.cont in E3);
    right;
    cbn [take String.append String.length high_bytes];
    (split; [lia|]); (split; [reflexivity|]);
    (split; [bool_to_prop; rewrite ?Hhi by lia; reflexivity|]);
    (split; [|split; [bool_to_prop; lia|
       intros t; rewrite Hf, E1; cbn [Nat.leb]; unfold utf8.cont; rewrite ?E2, ?E3;
       reflexivity]]);
    bool_to_prop.
  - rewrite EncodeRune_2 by lia. unfold utf8.str2, utf8.str1.
    repeat f_equal; apply z2b_eq; Z.to_euclidean_division_equations; lia.
  - rewrite EncodeRune_3 by lia. unfold utf8.str3, utf8.str2, utf8.str1.
    repeat f_equal; apply z2b_eq; Z.to_euclidean_division_equations; lia.
  - rewrite EncodeRune_3 by lia. unfold utf8.str3, utf8.str2, utf8.str1.
    repeat f_equal; apply z2b_eq; Z.to_euclidean_division_equations; lia.
  - rewrite EncodeRune_3 by lia. unfold utf8.str3, utf8.str2, utf8.str1.
    repeat f_equal; apply z2b_eq; Z.to_euclidean_division_equations; lia.
  - rewrite EncodeRune_4 by lia. unfold utf8.str4, utf8.str3, utf8.str2, utf8.str1.
    repeat f_equal; apply z2b_eq; Z.to_euclidean_division_equations; lia.
  - rewrite EncodeRune_4 by lia. unfold utf8.str4, utf8.str3, utf8.str2, utf8.str1.
    repeat f_equal; apply z2b_eq; Z.to_euclidean_division_equations; lia.
  - rewrite EncodeRune_4 by lia. unfold utf8.str4, utf8.str3, utf8.str2, utf8.str1.
    repeat f_equal; apply z2b_eq; Z.to_euclidean_division_equations; lia.
Qed.


(** ** Strings *)

(** Concatenation, [take] and [drop]. *)
Lemma append_nil_r (s : string) : s +++ EmptyString = s.
Proof. induction s as [|c s IH]; cbn; [|rewrite IH]; reflexivity. Qed.

Lemma append_assoc (a b c : string) : (a +++ b) +++ c = a +++ b +++ c.
Proof. induction a as [|x a IH]; cbn; [|rewrite IH]; reflexivity. Qed.

Lemma length_append (a b : string) :
  String.length (a +++ b) = (String.length a + String.length b)%nat.
Proof. induction a as [|x a IH]; cbn; [|rewrite IH]; reflexivity. Qed.

Lemma drop_take_append (n : nat) (s t : string) :
  String.length (take n s) = n -> drop n (take n s +++ t) = t.
Proof.
  revert s. induction n as [|n IH]; intros s H.
  - destruct s; reflexivity.
  - destruct s as [|c s]; [discriminate|]. cbn in *. apply IH. congruence.
Qed.

Lemma take_drop (n : nat) (s : string) : take n s +++ drop n s = s.
Proof.
  revert s. induction n as [|n IH]; intros [|c s]; cbn; try reflexivity.
  rewrite IH. reflexivity.
Qed.

(** ** String literals *)

(** One ASCII character as the encoder writes it is read back as that
    character, in one step of the scanner. *)
Lemma scan_string_ascii (c : ascii) (fuel : nat) (rest : string) :
  b2z c < 128 ->
  scan_string (S fuel)
    ((if htmlSafe c then String c EmptyString else escape_ascii c) +++ rest)
  = rmap (String c) (scan_string fuel rest).
Proof.
  intros H.
  destruct c as [[] [] [] [] [] [] [] []];
    first [ reflexivity | exfalso; cbv in H; discriminate H ].
Qed.

(** An ASCII byte is its own rune. *)
Lemma DecodeRune_ascii (c : ascii) (s : string) :
  b2z c < 128 -> utf8.DecodeRune (String c s) = (b2z c, 1%nat).
Proof.
  intros H. unfold utf8.DecodeRune, utf8.first.
  destruct (Z.ltb_spec (b2z c) 128); [reflexivity|lia].
Qed.

Lemma eqb_low_high (c x : ascii) : b2z x < 128 -> 128 <= b2z c -> Ascii.eqb c x = false.
Proof.
  intros Hx Hc. destruct (Ascii.eqb_spec c x) as [->|]; [lia|reflexivity].
Qed.

(** A byte of the upper half starts a sequence that the scanner reads
    with [utf8.DecodeRune] and writes with [utf8.EncodeRune]. *)
Lemma scan_string_high (c : ascii) (s : string) (fuel : nat) :
  128 <= b2z c ->
  scan_string (S fuel) (String c s) =
  let '(rr, size) := utf8.DecodeRune (String c s) in
  rmap (String.append (utf8.EncodeRune rr)) (scan_string fuel (drop size (String c s))).
Proof.
  intros H. cbn [scan_string].
  rewrite (eqb_low_high c dquote), (eqb_low_high c "\"%char) by first [assumption | reflexivity].
  unfold utf8.RuneSelf.
  destruct (Z.ltb_spec (b2z c) 32); [lia|].
  destruct (Z.ltb_spec (b2z c) 128); [lia|]. reflexivity.
Qed.

Lemma escape_nonempty (c : ascii) :
  (1 <= String.length (if htmlSafe c then String c EmptyString else escape_ascii c))%nat.
Proof.
  unfold escape_ascii.
  repeat match goal with |- context [if ?b then _ else _] => destruct b end; cbn; lia.
Qed.

Lemma length_take_drop (n : nat) (s : string) :
  String.length (take n s) = n -> (String.length (drop n s) + n)%nat = String.length s.
Proof.
  revert s. induction n as [|n IH]; intros [|c s] H; cbn in *; try lia.
  specialize (IH s). lia.
Qed.

(** The characters that the encoder writes for a valid UTF-8 string,
    followed by the closing quote, are read back as that string. *)
Lemma scan_quote_body (n : nat) :
  forall s : string,
    (String.length s <= n)%nat ->
    utf8.valid_fuel n s = true ->
    forall (m : nat) (rest : string),
      (String.length (quote_body n s) < m)%nat ->
      scan_string m (quote_body n s +++ String dquote rest) = Done s rest.
Proof.
  induction n as [|n IH]; intros s Hlen Hvalid m rest Hm.
  - destruct s; [|cbn in Hlen; lia]. destruct m; [lia|]. reflexivity.
  - destruct s as [|c s].
    { destruct m; [lia|]. reflexivity. }
    cbn [quote_body] in *. cbn [utf8.valid_fuel] in Hvalid. unfold utf8.RuneSelf in *.
    destruct (Z.ltb_spec (b2z c) 128) as [Hc|Hc].
    + rewrite DecodeRune_ascii in Hvalid by assumption.
      destruct (Z.eqb_spec (b2z c) utf8.RuneError) as [E|_];
        [unfold utf8.RuneError in E; lia|].
      cbn [andb drop] in Hvalid.
      rewrite append_assoc. rewrite length_append in Hm.
      pose proof (escape_nonempty c).
      destruct m as [|m]; [lia|].
      rewrite scan_string_ascii by assumption.
      rewrite IH; [reflexivity| | | ].
      { cbn in Hlen; lia. }
      { assumption. }
      lia.
    + pose proof (DecodeRune_high c s Hc) as Hd.
      destruct (utf8.DecodeRune (String c s)) as [r size] eqn:Hdec.
      destruct Hd as [[-> ->]|(Hsize & Hl & Hh & Henc & Hr & Ht)].
      { cbn in Hvalid. discriminate. }
      assert (Hs1 : (size =? 1)%nat = false) by (apply Nat.eqb_neq; lia).
      rewrite Hs1, andb_false_r in *.
      pose proof (length_take_drop size (String c s) Hl) as Hld.
      assert (Hrec : forall m' rest',
                 (String.length (quote_body n (drop size (String c s))) < m')%nat ->
                 scan_string m' (quote_body n (drop size (String c s))
                                 +++ String dquote rest')
                 = Done (drop size (String c s)) rest').
      { intros m' rest' Hm'. apply IH; [lia|assumption|assumption]. }
      destruct ((r =? 8232) || (r =? 8233)) eqn:Hsep.
      * destruct m as [|m]; [cbn in Hm; lia|].
        assert (Hstep : scan_string (S m)
                          (("\u202" +++ String (hexdigit (r mod 16))
                               (quote_body n (drop size (String c s))))
                           +++ String dquote rest)
                        = rmap (String.append (utf8.EncodeRune r))
                               (scan_string m (quote_body n (drop size (String c s))
                                               +++ String dquote rest))).
        { apply orb_true_iff in Hsep.
          destruct Hsep as [E|E]; apply Z.eqb_eq in E; subst r; reflexivity. }
        rewrite Hstep, Hrec by (cbn in Hm; lia). cbn [rmap].
        rewrite Henc, take_drop. reflexivity.
      * rewrite append_assoc. rewrite length_append in Hm.
        assert (Htk : take size (String c s)
                      = String c (take (Nat.pred size) s)).
        { destruct size; [lia|reflexivity]. }
        destruct m as [|m]; [lia|].
        set (X := quote_body n (drop size (String c s)) +++ String dquote rest).
        assert (HX : take size (String c s) +++ X
                     = String c (take (Nat.pred size) s +++ X))
          by (rewrite Htk; reflexivity).
        rewrite HX, scan_string_high, <- HX by assumption.
        rewrite Ht, drop_take_append by assumption. subst X.
        rewrite Hrec by lia. cbn [rmap]. rewrite Henc, take_drop. reflexivity.
Qed.

(** ** Numbers *)


(** The digits that [FormatInt] writes are read as one number literal up
    to the comma or the brace that follows them. *)
Lemma ends_member_cases (R : string) :
  ends_member R = true -> exists R', R = String "," R' \/ R = String "}" R'.
Proof.
  destruct R as [|c R']; [discriminate|]. cbn. intros H. exists R'.
  apply orb_true_iff in H. destruct H as [H|H]; apply Ascii.eqb_eq in H; subst; auto.
Qed.

Lemma span_digits_uint (d : Decimal.uint) (R : string) :
  ends_member R = true ->
  strconv.span_digits (NilEmpty.string_of_uint d +++ R) = (NilEmpty.string_of_uint d, R).
Proof.
  intros HR. destruct (ends_member_cases R HR) as [R' [->| ->]];
    induction d as [|d IH|d IH|d IH|d IH|d IH|d IH|d IH|d IH|d IH|d IH];
    first [ reflexivity
          | cbn [NilEmpty.string_of_uint String.append strconv.span_digits];
            change (strconv.isDigit _) with true; cbv iota; rewrite IH; reflexivity ].
Qed.

(** The decimal digits of a positive number do not start with a zero. *)
Lemma to_uint_head (p : positive) :
  match Pos.to_uint p with
  | Decimal.Nil | Decimal.D0 _ => False
  | _ => True
  end.
Proof.
  pose proof (DecimalPos.Unsigned.to_of (Pos.to_uint p)) as H.
  rewrite DecimalPos.Unsigned.of_to in H. cbn [N.to_uint] in H.
  pose proof (DecimalPos.Unsigned.to_uint_nonzero p) as Hz.
  destruct (Pos.to_uint p) as [|u| | | | | | | | | ] eqn:E; try exact I.
  - exact (DecimalPos.Unsigned.to_uint_nonnil p E).
  - rewrite unorm_D0 in H. unfold Decimal.unorm in H.
    destruct (Decimal.nzhead u) eqn:En;
      try (symmetry in H; revert H; rewrite <- En; apply nzhead_nonzero).
    apply Hz. congruence.
Qed.

Lemma number_lit_uint (d : Decimal.uint) (R : string) :
  match d with Decimal.Nil | Decimal.D0 _ => False | _ => True end ->
  ends_member R = true ->
  number_lit (NilEmpty.string_of_uint d +++ R) = Done (NilEmpty.string_of_uint d) R
  /\ number_lit (String "-" (NilEmpty.string_of_uint d +++ R))
     = Done (String "-" (NilEmpty.string_of_uint d)) R.
Proof.
  intros Hd HR. pose proof (span_digits_uint) as Hs.
  destruct (ends_member_cases R HR) as [R' [->| ->]];
    destruct d as [|u|u|u|u|u|u|u|u|u|u]; try contradiction;
    unfold number_lit;
    cbn [NilEmpty.string_of_uint String.append Ascii.eqb Bool.eqb negb];
    change (strconv.isDigit _) with true; cbv iota; cbn [negb];
    rewrite Hs by reflexivity; cbn; rewrite ?append_nil_r; split; reflexivity.
Qed.

(** A number written by [FormatInt] is one number literal. *)
Lemma number_lit_FormatInt (z : Z) (R : string) :
  ends_member R = true ->
  number_lit (strconv.FormatInt z +++ R) = Done (strconv.FormatInt z) R.
Proof.
  intros HR. unfold strconv.FormatInt. destruct z as [|p|p]; cbn [Z.to_int].
  - destruct (ends_member_cases R HR) as [R' [->| ->]]; reflexivity.
  - pose proof (to_uint_head p) as Hh.
    destruct (number_lit_uint _ R Hh HR) as [H _].
    cbn [NilZero.string_of_int]. unfold NilZero.string_of_uint.
    destruct (Pos.to_uint p); try contradiction; exact H.
  - pose proof (to_uint_head p) as Hh.
    destruct (number_lit_uint _ R Hh HR) as [_ H].
    cbn [NilZero.string_of_int]. unfold NilZero.string_of_uint.
    destruct (Pos.to_uint p); try contradiction; exact H.
Qed.

(** The first character of a number written by [FormatInt] is a minus
    sign or a digit. *)
Lemma FormatInt_head (z : Z) :
  exists c s, strconv.FormatInt z = String c s
              /\ (Ascii.eqb c "-" || strconv.isDigit c) = true
              /\ Ascii.eqb c "{" = false /\ Ascii.eqb c "[" = false
              /\ Ascii.eqb c dquote = false /\ isSpace c = false.
Proof.
  unfold strconv.FormatInt. destruct z as [|p|p]; cbn [Z.to_int NilZero.string_of_int].
  - do 2 eexists. split; [reflexivity|]. repeat split.
  - pose proof (to_uint_head p) as Hh. unfold NilZero.string_of_uint.
    destruct (Pos.to_uint p); try contradiction;
      do 2 eexists; (split; [reflexivity|]); repeat split.
  - do 2 eexists. split; [reflexivity|]. repeat split.
Qed.

Lemma parse_value_FormatInt (fuel : nat) (depth z : Z) (R : string) :
  ends_member R = true ->
  parse_value (S fuel) depth (strconv.FormatInt z +++ R)
  = Done (Number (strconv.FormatInt z)) R.
Proof.
  intros HR. pose proof (number_lit_FormatInt z R HR) as Hn.
  destruct (FormatInt_head z) as (c & s & E & H1 & H2 & H3 & H4 & _).
  rewrite E in *. cbn [String.append parse_value] in *.
  rewrite H2, H3, H4, H1, Hn. reflexivity.
Qed.

(** [ParseInt] reads back what [FormatInt] writes. *)
Lemma ParseInt_FormatInt (z : Z) :
  strconv.minInt64 <= z <= strconv.maxInt64 ->
  strconv.ParseInt (strconv.FormatInt z) = Some z.
Proof.
  intros Hr. unfold strconv.ParseInt.
  destruct (FormatInt_head z) as (c & s & E & H1 & _).
  assert (Hplus : Ascii.eqb c "+" = false).
  { destruct (Ascii.eqb_spec c "+") as [->|]; [discriminate H1|reflexivity]. }
  rewrite E, Hplus, <- E. unfold strconv.FormatInt.
  rewrite NilZero.isi.
  - cbn [option_map]. rewrite DecimalZ.of_to.
    destruct (Z.leb_spec strconv.minInt64 z); [|lia].
    destruct (Z.leb_spec z strconv.maxInt64); [reflexivity|lia].
  - destruct z as [|p|p]; cbn; try discriminate.
    intros H. injection H as H. exact (DecimalPos.Unsigned.to_uint_nonnil p H).
  - destruct z as [|p|p]; cbn; try discriminate.
    intros H. injection H as H. exact (DecimalPos.Unsigned.to_uint_nonnil p H).
Qed.

(** ** Values and members *)

(** A string written by [quote] is read as one string value. *)
Lemma string_lit_quote_body (s R : string) :
  utf8.ValidString s = true ->
  string_lit (quote_body (String.length s) s +++ String dquote R) = Done s R.
Proof.
  intros Hv. unfold string_lit. apply scan_quote_body; [lia|exact Hv|].
  rewrite length_append. cbn [String.length]. lia.
Qed.

Lemma quote_append (s R : string) :
  quote s +++ R = String dquote (quote_body (String.length s) s +++ String dquote R).
Proof. unfold quote. cbn [String.append]. rewrite append_assoc. reflexivity. Qed.

Lemma parse_value_quote (fuel : nat) (depth : Z) (s R : string) :
  utf8.ValidString s = true ->
  parse_value (S fuel) depth (quote s +++ R) = Done (Str s) R.
Proof.
  intros Hv. rewrite quote_append. cbn [parse_value].
  change (Ascii.eqb dquote "{") with false. change (Ascii.eqb dquote "[") with false.
  change (Ascii.eqb dquote dquote) with true. cbv iota.
  rewrite string_lit_quote_body by assumption. reflexivity.
Qed.


Lemma member_append (name R : string) :
  member name +++ R = String dquote (name +++ String dquote (String ":" R)).
Proof. unfold member. cbn [String.append]. rewrite append_assoc. reflexivity. Qed.

Lemma skip_ws_member (name R : string) : skip_ws (member name +++ R) = member name +++ R.
Proof. rewrite member_append. reflexivity. Qed.

Lemma skip_ws_quote (s R : string) : skip_ws (quote s +++ R) = quote s +++ R.
Proof. rewrite quote_append. reflexivity. Qed.

Lemma skip_ws_FormatInt (z : Z) (R : string) :
  skip_ws (strconv.FormatInt z +++ R) = strconv.FormatInt z +++ R.
Proof.
  destruct (FormatInt_head z) as (c & s & E & _ & _ & _ & _ & Hs).
  rewrite E. cbn [String.append skip_ws]. rewrite Hs. reflexivity.
Qed.

(** One member followed by a comma, and the last member of an object. *)
Lemma parse_members_cons (fuel : nat) (depth : Z) (name text : string) (v : value)
    (R : string) :
  plain_name name = true ->
  skip_ws (text +++ "," +++ R) = text +++ "," +++ R ->
  parse_value fuel depth (text +++ "," +++ R) = Done v ("," +++ R) ->
  skip_ws R = R ->
  parse_members (S fuel) depth (member name +++ text +++ "," +++ R)
  = rmap (cons (name, v)) (parse_members fuel depth R).
Proof.
  intros Hn Hs Hv HR. unfold plain_name in Hn. apply andb_true_iff in Hn.
  destruct Hn as [Hvalid Hq]. apply String.eqb_eq in Hq.
  rewrite member_append. cbn [parse_members].
  change (Ascii.eqb dquote dquote) with true. cbn [negb].
  rewrite <- Hq at 1. rewrite string_lit_quote_body by assumption.
  cbn [skip_ws isSpace Ascii.eqb Bool.eqb orb negb].
  rewrite Hs, Hv. cbn [String.append skip_ws isSpace Ascii.eqb Bool.eqb orb negb].
  rewrite HR. reflexivity.
Qed.

Lemma parse_members_last (fuel : nat) (depth : Z) (name text : string) (v : value)
    (R : string) :
  plain_name name = true ->
  skip_ws (text +++ "}" +++ R) = text +++ "}" +++ R ->
  parse_value fuel depth (text +++ "}" +++ R) = Done v ("}" +++ R) ->
  parse_members (S fuel) depth (member name +++ text +++ "}" +++ R) = Done [(name, v)] R.
Proof.
  intros Hn Hs Hv. unfold plain_name in Hn. apply andb_true_iff in Hn.
  destruct Hn as [Hvalid Hq]. apply String.eqb_eq in Hq.
  rewrite member_append. cbn [parse_members].
  change (Ascii.eqb dquote dquote) with true. cbn [negb].
  rewrite <- Hq at 1. rewrite string_lit_quote_body by assumption.
  cbn [skip_ws isSpace Ascii.eqb Bool.eqb orb negb].
  rewrite Hs, Hv. reflexivity.
Qed.

(** An object whose first member follows the opening brace at once. *)
Lemma parse_value_object (fuel : nat) (depth : Z) (name R : string) :
  depth + 1 <= maxNestingDepth ->
  parse_value (S fuel) depth ("{" +++ member name +++ R)
  = rmap Object (parse_members fuel (depth + 1) (member name +++ R)).
Proof.
  intros Hd. rewrite member_append. cbn [String.append parse_value].
  cbn [Ascii.eqb Bool.eqb]. cbv iota.
  destruct (Z.ltb_spec maxNestingDepth (depth + 1)); [lia|]. reflexivity.
Qed.

(** ** The envelope of [Transactions] *)


(** The JSON text of the options and of an envelope, read as trees. *)
Lemma parse_options (fuel : nat) (depth : Z) (o : TransactionOptionsJson.t) (R : string) :
  depth + 1 <= maxNestingDepth ->
  parse_value (S (S (S (S fuel)))) depth (TransactionOptionsJson.Marshal o +++ R)
  = Done (options_tree o) R.
Proof.
  intros Hd. unfold TransactionOptionsJson.Marshal. rewrite !append_assoc.
  rewrite parse_value_object by assumption.
  rewrite parse_members_cons with (v := Number (strconv.FormatInt (TransactionOptionsJson.Count o)));
    [ | reflexivity | apply skip_ws_FormatInt
      | apply parse_value_FormatInt; reflexivity | apply skip_ws_member ].
  rewrite parse_members_last with (v := Number (strconv.FormatInt (TransactionOptionsJson.Offset o)));
    [ reflexivity | reflexivity | apply skip_ws_FormatInt
      | apply parse_value_FormatInt; reflexivity ].
Qed.

Lemma parse_envelope (fuel : nat) (x : transactionJson.t) (R : string) :
  (11 <= fuel)%nat ->
  well_formed x ->
  parse_value fuel 0 (transactionJson.Marshal x +++ R) = Done (envelope_tree x) R.
Proof.
  intros Hf (H1 & H2 & H3 & H4 & H5 & _).
  do 11 (destruct fuel as [|fuel]; [lia|]). clear Hf.
  unfold transactionJson.Marshal. rewrite !append_assoc.
  rewrite parse_value_object by (unfold maxNestingDepth; lia).
  do 5 (erewrite parse_members_cons;
        [ | reflexivity | apply skip_ws_quote
          | apply parse_value_quote; assumption | apply skip_ws_member ]).
  rewrite parse_members_last with (v := options_tree (transactionJson.Options x));
    [ reflexivity | reflexivity | reflexivity
      | apply parse_options; unfold maxNestingDepth; lia ].
Qed.

Lemma parse_Marshal (x : transactionJson.t) :
  well_formed x -> parse (transactionJson.Marshal x) = Done (envelope_tree x) EmptyString.
Proof.
  intros Hx. unfold parse.
  assert (Hs : skip_ws (transactionJson.Marshal x) = transactionJson.Marshal x)
    by reflexivity.
  rewrite Hs. rewrite <- (append_nil_r (transactionJson.Marshal x)) at 2.
  rewrite parse_envelope; [reflexivity| |assumption].
  unfold parse_fuel, transactionJson.Marshal. rewrite !length_append.
  cbn [String.length]. lia.
Qed.

(** C10, amended. For every envelope whose strings are valid UTF-8 and
    whose count and offset are in the range of [int], the JSON text that
    [json.Marshal] writes is read back by [json.Unmarshal] to an envelope
    equal to the original, field for field, with no error. *)
Theorem envelope_round_trip (x : transactionJson.t) :
  well_formed x ->
  Unmarshal transactionJson.store (transactionJson.Marshal x) transactionJson.zero
  = (x, None).
Proof.
  intros Hx. unfold Unmarshal. rewrite (parse_Marshal x Hx).
  destruct Hx as (_ & _ & _ & _ & _ & Hc & Ho).
  destruct x as [cid sec tok sd ed [c o]]. cbn in Hc, Ho.
  unfold envelope_tree, options_tree. cbn.
  rewrite (ParseInt_FormatInt c) by assumption. cbn.
  rewrite (ParseInt_FormatInt o) by assumption. reflexivity.
Qed.

Lemma envelope_round_trip_witness :
  Unmarshal transactionJson.store
    (transactionJson.Marshal
       (transactionJson.mk "id" "s<e>c&ret" "tok\en" "2017-01-01" "2017-02-01"
          (TransactionOptionsJson.mk 100 (-3))))
    transactionJson.zero
  = (transactionJson.mk "id" "s<e>c&ret" "tok\en" "2017-01-01" "2017-02-01"
       (TransactionOptionsJson.mk 100 (-3)), None).
Proof.
  apply (envelope_round_trip
           (transactionJson.mk "id" "s<e>c&ret" "tok\en" "2017-01-01" "2017-02-01"
              (TransactionOptionsJson.mk 100 (-3)))).
  unfold well_formed, int_range. cbn.
  repeat split; first [ reflexivity | discriminate ].
Defined.

(** A string that is not valid UTF-8 does not come back: [json.Marshal]
    writes the escape of U+FFFD for the byte 0xFF, and [json.Unmarshal]
    reads the three bytes of U+FFFD. *)
Lemma envelope_round_trip_invalid_utf8 :
  transactionJson.Marshal invalid_envelope
  = js "{'client_id':'\ufffd','secret':'secret','access_token':'token','start_date':'2017-01-01','end_date':'2017-02-01','options':{'count':100,'offset':0}}"
  /\ Unmarshal transactionJson.store (transactionJson.Marshal invalid_envelope)
       transactionJson.zero
     = (replaced_envelope, None)
  /\ Unmarshal transactionJson.store (transactionJson.Marshal invalid_envelope)
       transactionJson.zero
     <> (invalid_envelope, None).
Proof.
  split; [reflexivity|]. split; [reflexivity|].
  intros H. vm_compute in H. discriminate H.
Qed.

(** ** Remote failures *)

(** The JSON text of an error body, read as a tree. *)
Lemma parse_error_body (code type_ message : string) :
  utf8.ValidString code = true ->
  utf8.ValidString type_ = true ->
  utf8.ValidString message = true ->
  parse (error_body code type_ message)
  = Done (Object [("error_code", Str code); ("error_type", Str type_);
                  ("error_message", Str message)]) EmptyString.
Proof.
  intros H1 H2 H3. unfold parse.
  assert (Hs : skip_ws (error_body code type_ message) = error_body code type_ message)
    by reflexivity.
  rewrite Hs.
  assert (Hf : exists fuel,
             parse_fuel (error_body code type_ message) = S (S (S (S (S fuel))))).
  { unfold parse_fuel, error_body. rewrite !length_append. cbn [String.length].
    eexists. rewrite <- !plus_n_Sm. reflexivity. }
  destruct Hf as [fuel ->].
  rewrite <- (append_nil_r (error_body code type_ message)).
  unfold error_body. rewrite !append_assoc.
  rewrite parse_value_object by (unfold maxNestingDepth; lia).
  do 2 (erewrite parse_members_cons;
        [ | reflexivity | apply skip_ws_quote
          | apply parse_value_quote; assumption | apply skip_ws_member ]).
  erewrite parse_members_last;
    [ reflexivity | reflexivity | apply skip_ws_quote
      | apply parse_value_quote; assumption ].
Qed.

(** C7. For status 404 and the error body with the members [error_code],
    [error_type] and [error_message], the decoder returns a failure that
    holds the status code 404 and the three strings as they are. *)
Theorem decode_404_error_body (code type_ message : string) :
  utf8.ValidString code = true ->
  utf8.ValidString type_ = true ->
  utf8.ValidString message = true ->
  unmarshalPostMFA 404 (error_body code type_ message)
  = (None, None, Some (PlaidError (plaidError.mk code type_ message "" 404))).
Proof.
  intros H1 H2 H3. rewrite dispatch_400 by lia.
  unfold Unmarshal. rewrite parse_error_body by assumption. reflexivity.
Qed.

Lemma decode_404_error_body_witness :
  unmarshalPostMFA 404
    (js "{'error_code':'ITEM_NOT_FOUND','error_type':'ITEM_ERROR','error_message':'...'}")
  = (None, None,
     Some (PlaidError (plaidError.mk "ITEM_NOT_FOUND" "ITEM_ERROR" "..." "" 404))).
Proof.
  apply (decode_404_error_body "ITEM_NOT_FOUND" "ITEM_ERROR" "..."); reflexivity.
Defined.

(* ================================================================= *)
(** * Further properties of the decoder *)

(** ** What an outcome tells about the response *)

(** Exactly one of the three results is populated; the statement that
    the callers below build on. *)
Lemma decoder_populated (StatusCode : Z) (body : string) :
  populated (unmarshalPostMFA StatusCode body) = 1%nat.
Proof.
  unfold unmarshalPostMFA.
  repeat break_match;
    first [ apply populated_err | apply populated_mfa | apply populated_post ].
Qed.

(** The three classes of status codes. *)
Lemma status_cases (StatusCode : Z) :
  StatusCode = 200 \/ StatusCode = 201 \/ 400 <= StatusCode
  \/ (StatusCode <> 200 /\ StatusCode <> 201 /\ StatusCode < 400).
Proof. lia. Qed.

Lemma reads_body_cases (StatusCode : Z) :
  reads_body StatusCode = true ->
  StatusCode = 200 \/ StatusCode = 201 \/ 400 <= StatusCode.
Proof.
  unfold reads_body. intros H.
  apply orb_true_iff in H. destruct H as [H|H];
    [apply orb_true_iff in H; destruct H as [H|H]|].
  - left. apply Z.eqb_eq. exact H.
  - right. left. apply Z.eqb_eq. exact H.
  - right. right. apply Z.leb_le. exact H.
Qed.

(** X1. A payload is only ever returned for status 200, and it is what
    [json.Unmarshal] made of the body without an error. *)
Theorem success_only_from_200 (StatusCode : Z) (body : string)
    (postRes : postResponse.t) (mfaRes : option mfaResponse.t) (err : option error) :
  unmarshalPostMFA StatusCode body = (Some postRes, mfaRes, err) ->
  StatusCode = 200
  /\ Unmarshal postResponse.store body postResponse.zero = (postRes, None).
Proof.
  intros H.
  destruct (status_cases StatusCode) as [->|[->|[H4|[H0 [H1 H4]]]]].
  - rewrite dispatch_200 in H.
    destruct (Unmarshal postResponse.store body postResponse.zero) as [p [e|]];
      [discriminate H|].
    injection H as <- _ _. split; reflexivity.
  - destruct (dispatch_201 body) as [[m Hm]|[[e He]|[t Ht]]];
      rewrite H in *; discriminate.
  - rewrite (dispatch_400 _ _ H4) in H.
    destruct (Unmarshal plaidError.store body plaidError.zero) as [p [e|]];
      discriminate H.
  - rewrite (dispatch_other _ _ H0 H1 H4) in H. discriminate H.
Qed.

Lemma success_only_from_200_witness :
  200 = 200
  /\ Unmarshal postResponse.store (js "{'access_token':'tok'}") postResponse.zero
     = (postResponse.mk "tok" "" nil_slice "" "" nil_slice 0 Item.zero, None).
Proof.
  apply (success_only_from_200 200 (js "{'access_token':'tok'}") _ None None).
  reflexivity.
Defined.

(** X2. A [plaidError] is only ever returned for a status of 400 or more,
    and the status code it holds is the one of the response, whatever the
    body says: a member [StatusCode] of the body is overwritten. *)
Theorem plaidError_carries_status (StatusCode : Z) (body : string)
    (postRes : option postResponse.t) (mfaRes : option mfaResponse.t)
    (e : plaidError.t) :
  unmarshalPostMFA StatusCode body = (postRes, mfaRes, Some (PlaidError e)) ->
  400 <= StatusCode /\ plaidError.StatusCode e = StatusCode.
Proof.
  intros H.
  destruct (status_cases StatusCode) as [->|[->|[H4|[H0 [H1 H4]]]]].
  - rewrite dispatch_200 in H.
    destruct (Unmarshal postResponse.store body postResponse.zero) as [p [e'|]];
      discriminate H.
  - destruct (dispatch_201 body) as [[m Hm]|[[e' He]|[t Ht]]];
      rewrite H in *; discriminate.
  - split; [exact H4|]. rewrite (dispatch_400 _ _ H4) in H.
    destruct (Unmarshal plaidError.store body plaidError.zero) as [p [e'|]];
      [discriminate H|].
    injection H as _ _ <-. reflexivity.
  - rewrite (dispatch_other _ _ H0 H1 H4) in H. discriminate H.
Qed.

Lemma plaidError_carries_status_witness :
  400 <= 503
  /\ plaidError.StatusCode (plaidError.mk "" "API_ERROR" "" "" 503) = 503.
Proof.
  apply (plaidError_carries_status 503 (js "{'error_type':'API_ERROR','StatusCode':200}")
           None None).
  reflexivity.
Defined.

(** ** When the body matters *)

(** X3. The body is looked at for the statuses 200, 201 and 400 and above,
    and for no other: for these statuses two bodies give different
    results, and for every other status all bodies give the same one. *)
Theorem body_matters_iff (StatusCode : Z) :
  reads_body StatusCode = true
  <-> exists body body', unmarshalPostMFA StatusCode body <> unmarshalPostMFA StatusCode body'.
Proof.
  split.
  - intros H. exists "", "null".
    destruct (reads_body_cases _ H) as [->|[->|H4]].
    + cbv. discriminate.
    + cbv. discriminate.
    + rewrite !(dispatch_400 _ _ H4). cbv. discriminate.
  - intros [body [body' H]]. destruct (reads_body StatusCode) eqn:E; [reflexivity|].
    exfalso. apply H. unfold reads_body in E.
    apply orb_false_iff in E. destruct E as [E E4].
    apply orb_false_iff in E. destruct E as [E0 E1].
    apply Z.eqb_neq in E0, E1. apply Z.leb_gt in E4.
    rewrite !(dispatch_other _ _ E0 E1 E4). reflexivity.
Qed.

(** X4. For every status whose body is read, a body that is not a JSON text
    gives the syntax error of [json.Unmarshal] and no payload. *)
Theorem malformed_body_is_a_syntax_error (StatusCode : Z) (body : string) :
  reads_body StatusCode = true ->
  (forall v rest, parse body <> Done v rest) ->
  unmarshalPostMFA StatusCode body = (None, None, Some (JsonError SyntaxError)).
Proof.
  intros H Hbad.
  destruct (reads_body_cases _ H) as [->|[->|H4]].
  - rewrite dispatch_200, (Unmarshal_syntax_error _ _ _ Hbad). reflexivity.
  - unfold unmarshalPostMFA. cbn [Z.eqb Pos.eqb].
    rewrite (Unmarshal_syntax_error _ _ _ Hbad). reflexivity.
  - rewrite (dispatch_400 _ _ H4), (Unmarshal_syntax_error _ _ _ Hbad). reflexivity.
Qed.

Lemma malformed_body_is_a_syntax_error_witness :
  unmarshalPostMFA 502 "<html>Bad Gateway</html>"
  = (None, None, Some (JsonError SyntaxError)).
Proof.
  apply (malformed_body_is_a_syntax_error 502 "<html>Bad Gateway</html>").
  - reflexivity.
  - intros v rest. vm_compute. discriminate.
Defined.

(** ** The payload of a challenge *)

(** The loop of ["list"] decodes the elements exactly when each of them
    is an object whose [mask] and [type] are strings; the entries are
    then those of the elements, in their order. *)
Lemma list_loop_accepted (temp : list any) (List : list mfaList.t) :
  list_loop temp List =
  if forallb list_accepted temp then inr (List ++ map list_of temp)%list
  else inl (errors_New "Could not decode list mfa").
Proof.
  revert List. induction temp as [|v l IH]; intros acc.
  - cbn. rewrite List.app_nil_r. reflexivity.
  - cbn [forallb list_loop].
    destruct v as [| | | | |m]; cbn [list_accepted assert_map negb andb]; try reflexivity.
    destruct (map_index m "mask") as [| | |mask| |] eqn:Em;
      cbn [is_string assert_string negb andb]; try reflexivity.
    destruct (map_index m "type") as [| | |ty| |] eqn:Et;
      cbn [is_string assert_string negb andb]; try reflexivity.
    rewrite IH. destruct (forallb list_accepted l); [|reflexivity].
    rewrite <- List.app_assoc. cbn [list_of map]. rewrite Em, Et. reflexivity.
Qed.

(** The loop of ["questions"], with its two errors: one for an element
    that is not an object, one for a [question] that is not a string. *)
Lemma questions_loop_accepted (questions : list any) (Questions : list mfaQuestion.t) :
  if forallb question_accepted questions
  then questions_loop questions Questions
       = inr (Questions ++ map question_of questions)%list
  else questions_loop questions Questions
       = inl (errors_New "Could not decode questions mfa")
       \/ questions_loop questions Questions
          = inl (errors_New "Could not decode questions mfa question").
Proof.
  revert Questions. induction questions as [|v l IH]; intros acc.
  - cbn. rewrite List.app_nil_r. reflexivity.
  - cbn [forallb questions_loop].
    destruct v as [| | | | |m]; cbn [question_accepted assert_map negb andb]; auto.
    destruct (map_index m "question") as [| | |q| |] eqn:Eq;
      cbn [is_string assert_string negb andb]; auto.
    specialize (IH (acc ++ [mfaQuestion.mk q])%list).
    destruct (forallb question_accepted l); [|exact IH].
    rewrite IH, <- List.app_assoc. cbn [question_of map]. rewrite Eq. reflexivity.
Qed.

(** The three errors of the loop of ["selections"]. *)
Lemma selections_loop_texts (selections : list any) (Selections : list mfaSelection.t)
    (err : error) :
  selections_loop selections Selections = inl err ->
  err = errors_New "Could not decode selections mfa"
  \/ err = errors_New "Could not decode selections answers"
  \/ err = errors_New "Could not decode selections questions".
Proof.
  revert Selections. induction selections as [|v l IH]; intros acc; [discriminate|].
  cbn [selections_loop].
  destruct (assert_map v) as [s ok]. destruct ok; cbn [negb];
    [|intros H; injection H as <-; auto].
  destruct (assert_slice (map_index s "answers")) as [tempAnswers ok].
  destruct ok; cbn [negb]; [|intros H; injection H as <-; auto].
  destruct (answers_loop tempAnswers true) as [answers ok].
  destruct ok; cbn [negb]; [|intros H; injection H as <-; auto].
  destruct (assert_string (map_index s "question")) as [question ok].
  destruct ok; cbn [negb]; [|intros H; injection H as <-; auto].
  apply IH.
Qed.

(** The decoder at status 201, once the body is stored without an error. *)
Ltac enter_challenge HU :=
  unfold unmarshalPostMFA; cbn [Z.eqb Pos.eqb]; rewrite HU.

(** A challenge is only ever returned for status 201. *)
Lemma challenge_only_from_201 (StatusCode : Z) (body : string)
    (postRes : option postResponse.t) (mfaRes : mfaResponse.t) (err : option error) :
  unmarshalPostMFA StatusCode body = (postRes, Some mfaRes, err) -> StatusCode = 201.
Proof.
  intros H.
  destruct (status_cases StatusCode) as [->|[->|[H4|[H0 [H1 H4]]]]].
  - rewrite dispatch_200 in H.
    destruct (Unmarshal postResponse.store body postResponse.zero) as [p [e|]];
      discriminate H.
  - reflexivity.
  - rewrite (dispatch_400 _ _ H4) in H.
    destruct (Unmarshal plaidError.store body plaidError.zero) as [p [e|]];
      discriminate H.
  - rewrite (dispatch_other _ _ H0 H1 H4) in H. discriminate H.
Qed.

(** X5. A challenge is a tagged union.  Whenever the decoder returns a
    challenge the status was 201, the access token and the type of the
    challenge are those of the body, and of the four payloads only the
    one that the type names can be populated. *)
Theorem challenge_is_a_union (StatusCode : Z) (body : string)
    (postRes : option postResponse.t) (mfaRes : mfaResponse.t) (err : option error) :
  unmarshalPostMFA StatusCode body = (postRes, Some mfaRes, err) ->
  StatusCode = 201
  /\ mfaResponse.AccessToken mfaRes = mfaIntermediate.AccessToken (intermediate body)
  /\ mfaResponse.Type_ mfaRes = mfaIntermediate.Type_ (intermediate body)
  /\ (mfaResponse.Type_ mfaRes <> "device" -> mfaResponse.Device mfaRes = mfaDevice.zero)
  /\ (mfaResponse.Type_ mfaRes <> "list" -> mfaResponse.List mfaRes = [])
  /\ (mfaResponse.Type_ mfaRes <> "questions" -> mfaResponse.Questions mfaRes = [])
  /\ (mfaResponse.Type_ mfaRes <> "selections" -> mfaResponse.Selections mfaRes = []).
Proof.
  intros H. pose proof (challenge_only_from_201 _ _ _ _ _ H) as E. subst StatusCode.
  split; [reflexivity|]. revert H. unfold intermediate, unmarshalPostMFA.
  cbn [Z.eqb Pos.eqb].
  destruct (Unmarshal mfaIntermediate.store body mfaIntermediate.zero)
    as [inter [e|]]; [discriminate|].
  cbn [fst].
  destruct (String.eqb_spec (mfaIntermediate.Type_ inter) "device") as [Ed|Ed].
  { repeat break_match; intros H; try discriminate H.
    injection H as _ <- _. cbn. rewrite Ed.
    repeat split; try reflexivity; intros Hne; congruence. }
  destruct (String.eqb_spec (mfaIntermediate.Type_ inter) "list") as [El|El].
  { repeat break_match; intros H; try discriminate H.
    injection H as _ <- _. cbn. rewrite El.
    repeat split; try reflexivity; intros Hne; congruence. }
  destruct (String.eqb_spec (mfaIntermediate.Type_ inter) "questions") as [Eq|Eq].
  { repeat break_match; intros H; try discriminate H.
    injection H as _ <- _. cbn. rewrite Eq.
    repeat split; try reflexivity; intros Hne; congruence. }
  destruct (String.eqb_spec (mfaIntermediate.Type_ inter) "selections") as [Es|Es].
  { repeat break_match; intros H; try discriminate H.
    injection H as _ <- _. cbn. rewrite Es.
    repeat split; try reflexivity; intros Hne; congruence. }
  intros H. injection H as _ <- _. cbn. repeat split; reflexivity.
Qed.

Lemma challenge_is_a_union_witness :
  201 = 201
  /\ "tok" = mfaIntermediate.AccessToken
               (intermediate (js "{'access_token':'tok','type':'questions','mfa':[{'question':'Pet?'}]}"))
  /\ "questions" = mfaIntermediate.Type_
               (intermediate (js "{'access_token':'tok','type':'questions','mfa':[{'question':'Pet?'}]}"))
  /\ ("questions" <> "device" -> mfaDevice.zero = mfaDevice.zero)
  /\ ("questions" <> "list" -> @nil mfaList.t = [])
  /\ ("questions" <> "questions" -> [mfaQuestion.mk "Pet?"] = [])
  /\ ("questions" <> "selections" -> @nil mfaSelection.t = []).
Proof.
  apply (challenge_is_a_union 201
           (js "{'access_token':'tok','type':'questions','mfa':[{'question':'Pet?'}]}")
           None
           (mfaResponse.mk "tok" "questions" mfaDevice.zero [] [mfaQuestion.mk "Pet?"] [])
           None).
  reflexivity.
Defined.

(** ** The four types of challenge *)

(** A ["device"] challenge is decoded exactly when [mfa] is an object
    whose [message] is a string: a missing [mfa], a missing [message] and
    a value of another type all give the same error. *)
Lemma device_challenge_decoded (body : string) (inter : mfaIntermediate.t) :
  Unmarshal mfaIntermediate.store body mfaIntermediate.zero = (inter, None) ->
  mfaIntermediate.Type_ inter = "device" ->
  unmarshalPostMFA 201 body =
  match mfaIntermediate.MFA inter with
  | Amap m =>
    match map_index m "message" with
    | Astring message =>
      (None,
       Some (mfaResponse.mk (mfaIntermediate.AccessToken inter) "device"
               (mfaDevice.mk message) [] [] []),
       None)
    | _ => (None, None, Some (errors_New "Could not decode device mfa"))
    end
  | _ => (None, None, Some (errors_New "Could not decode device mfa"))
  end.
Proof.
  intros HU Hty. enter_challenge HU. rewrite Hty. cbn [String.eqb Ascii.eqb Bool.eqb].
  destruct (mfaIntermediate.MFA inter) as [| | | | |m]; try reflexivity.
  cbn [assert_interface assert_map negb].
  destruct (map_index m "message"); reflexivity.
Qed.

(** X6. A ["list"] challenge.  When [json.Unmarshal] reports an error
    for the body, a number outside the range of [float64] inside [mfa]
    for instance, this error is returned.  When it reports none, the
    challenge is decoded exactly when [mfa] is an array of objects whose
    [mask] and [type] are strings; the list returned then has one entry
    for each element, in the order of the array, and otherwise nothing of
    the array is returned. *)
Theorem list_challenge_decoded (body : string) (inter : mfaIntermediate.t)
    (err : option json.error) :
  Unmarshal mfaIntermediate.store body mfaIntermediate.zero = (inter, err) ->
  mfaIntermediate.Type_ inter = "list" ->
  unmarshalPostMFA 201 body =
  match err with
  | Some e => (None, None, Some (JsonError e))
  | None =>
    match mfaIntermediate.MFA inter with
    | Aslice temp =>
      if forallb list_accepted temp
      then (None,
            Some (mfaResponse.mk (mfaIntermediate.AccessToken inter) "list" mfaDevice.zero
                    (map list_of temp) [] []),
            None)
      else (None, None, Some (errors_New "Could not decode list mfa"))
    | _ => (None, None, Some (errors_New "Could not decode list mfa"))
    end
  end.
Proof.
  intros HU Hty. enter_challenge HU. destruct err as [e|]; [reflexivity|].
  rewrite Hty. cbn [String.eqb Ascii.eqb Bool.eqb].
  destruct (mfaIntermediate.MFA inter) as [| | | |temp|]; try reflexivity.
  cbn [assert_slice negb]. rewrite list_loop_accepted.
  destruct (forallb list_accepted temp); reflexivity.
Qed.

Lemma list_challenge_decoded_witness :
  unmarshalPostMFA 201
    (js "{'type':'list','mfa':[{'mask':'t..t@plaid.com','type':'email'},{'mask':'xxx-xxx-5309','type':'phone'}]}")
  = (None,
     Some (mfaResponse.mk "" "list" mfaDevice.zero
             [mfaList.mk "t..t@plaid.com" "email"; mfaList.mk "xxx-xxx-5309" "phone"]
             [] []),
     None)
  /\ unmarshalPostMFA 201
       (js "{'type':'list','mfa':[{'mask':'xxx-xxx-5309','type':'phone','n':1e999}]}")
     = (None, None, Some (JsonError (UnmarshalTypeError "number 1e999"))).
Proof.
  split.
  - apply (list_challenge_decoded
             (js "{'type':'list','mfa':[{'mask':'t..t@plaid.com','type':'email'},{'mask':'xxx-xxx-5309','type':'phone'}]}")
             (mfaIntermediate.mk ""
                (Aslice [Amap [("mask", Astring "t..t@plaid.com"); ("type", Astring "email")];
                         Amap [("mask", Astring "xxx-xxx-5309"); ("type", Astring "phone")]])
                "list")
             None);
      reflexivity.
  - apply (list_challenge_decoded
             (js "{'type':'list','mfa':[{'mask':'xxx-xxx-5309','type':'phone','n':1e999}]}")
             (mfaIntermediate.mk ""
                (Aslice [Amap [("mask", Astring "xxx-xxx-5309"); ("type", Astring "phone");
                               ("n", Anil)]])
                "list")
             (Some (UnmarshalTypeError "number 1e999")));
      reflexivity.
Defined.

(** X7. A ["questions"] challenge.  When [json.Unmarshal] reports an
    error for the body, this error is returned.  When it reports none,
    the challenge is decoded exactly when [mfa] is an array of objects
    whose [question] is a string, one entry for each element in the order
    of the array; otherwise the error is one of two texts. *)
Theorem questions_challenge_decoded (body : string) (inter : mfaIntermediate.t)
    (err : option json.error) :
  Unmarshal mfaIntermediate.store body mfaIntermediate.zero = (inter, err) ->
  mfaIntermediate.Type_ inter = "questions" ->
  match err with
  | Some e => unmarshalPostMFA 201 body = (None, None, Some (JsonError e))
  | None =>
    match mfaIntermediate.MFA inter with
    | Aslice questions =>
      if forallb question_accepted questions
      then unmarshalPostMFA 201 body
           = (None,
              Some (mfaResponse.mk (mfaIntermediate.AccessToken inter) "questions"
                      mfaDevice.zero [] (map question_of questions) []),
              None)
      else unmarshalPostMFA 201 body
           = (None, None, Some (errors_New "Could not decode questions mfa"))
           \/ unmarshalPostMFA 201 body
              = (None, None, Some (errors_New "Could not decode questions mfa question"))
    | _ =>
      unmarshalPostMFA 201 body
      = (None, None, Some (errors_New "Could not decode questions mfa"))
    end
  end.
Proof.
  intros HU Hty. enter_challenge HU. destruct err as [e|]; [reflexivity|].
  rewrite Hty. cbn [String.eqb Ascii.eqb Bool.eqb].
  destruct (mfaIntermediate.MFA inter) as [| | | |questions|]; try reflexivity.
  cbn [assert_slice negb].
  pose proof (questions_loop_accepted questions []) as H.
  destruct (forallb question_accepted questions).
  - rewrite H. reflexivity.
  - destruct H as [-> | ->]; auto.
Qed.

Lemma questions_challenge_decoded_witness :
  (unmarshalPostMFA 201 (js "{'type':'questions','mfa':[{'question':'Pet?'},{'question':7}]}")
   = (None, None, Some (errors_New "Could not decode questions mfa"))
   \/ unmarshalPostMFA 201 (js "{'type':'questions','mfa':[{'question':'Pet?'},{'question':7}]}")
      = (None, None, Some (errors_New "Could not decode questions mfa question")))
  /\ unmarshalPostMFA 201 (js "{'type':'questions','mfa':[{'question':'Pet?','n':1e999}]}")
     = (None, None, Some (JsonError (UnmarshalTypeError "number 1e999"))).
Proof.
  split.
  - apply (questions_challenge_decoded
             (js "{'type':'questions','mfa':[{'question':'Pet?'},{'question':7}]}")
             (mfaIntermediate.mk ""
                (Aslice [Amap [("question", Astring "Pet?")];
                         Amap [("question",
                                Afloat64 (S754_finite false 7881299347898368 (-50)))]])
                "questions")
             None);
      reflexivity.
  - apply (questions_challenge_decoded
             (js "{'type':'questions','mfa':[{'question':'Pet?','n':1e999}]}")
             (mfaIntermediate.mk ""
                (Aslice [Amap [("question", Astring "Pet?"); ("n", Anil)]])
                "questions")
             (Some (UnmarshalTypeError "number 1e999")));
      reflexivity.
Defined.

(** X8. A ["selections"] challenge.  When [json.Unmarshal] reports an
    error for the body, this error is returned.  When it reports none,
    the challenge is decoded exactly when [mfa] is an array of objects
    whose [answers] is an array that is empty or ends with a string and
    whose [question] is a string; otherwise the error is one of three
    texts. *)
Theorem selections_challenge_decoded (body : string) (inter : mfaIntermediate.t)
    (err : option json.error) :
  Unmarshal mfaIntermediate.store body mfaIntermediate.zero = (inter, err) ->
  mfaIntermediate.Type_ inter = "selections" ->
  match err with
  | Some e => unmarshalPostMFA 201 body = (None, None, Some (JsonError e))
  | None =>
    match mfaIntermediate.MFA inter with
    | Aslice selections =>
      if forallb selection_accepted selections
      then unmarshalPostMFA 201 body
           = (None,
              Some (mfaResponse.mk (mfaIntermediate.AccessToken inter) "selections"
                      mfaDevice.zero [] [] (map selection_of selections)),
              None)
      else exists text,
           In text (challenge_error_texts "selections")
           /\ unmarshalPostMFA 201 body = (None, None, Some (errors_New text))
    | _ =>
      unmarshalPostMFA 201 body
      = (None, None, Some (errors_New "Could not decode selections mfa"))
    end
  end.
Proof.
  intros HU Hty. enter_challenge HU. destruct err as [e|]; [reflexivity|].
  rewrite Hty. cbn [String.eqb Ascii.eqb Bool.eqb].
  destruct (mfaIntermediate.MFA inter) as [| | | |selections|]; try reflexivity.
  cbn [assert_slice negb].
  pose proof (selections_loop_accepted selections []) as H.
  destruct (forallb selection_accepted selections).
  - rewrite H. reflexivity.
  - destruct H as [text H]. rewrite H.
    destruct (selections_loop_texts _ _ _ H) as [E|[E|E]];
      injection E as ->; eexists; (split; [|reflexivity]); cbn; auto.
Qed.

Lemma selections_challenge_decoded_witness :
  unmarshalPostMFA 201
    (js "{'type':'selections','mfa':[{'question':'Pick one','answers':['a','b']}]}")
  = (None,
     Some (mfaResponse.mk "" "selections" mfaDevice.zero [] []
             [mfaSelection.mk ["a"; "b"] "Pick one"]),
     None)
  /\ unmarshalPostMFA 201
       (js "{'type':'selections','mfa':[{'question':'Pick one','answers':['a'],'n':1e999}]}")
     = (None, None, Some (JsonError (UnmarshalTypeError "number 1e999"))).
Proof.
  split.
  - apply (selections_challenge_decoded
             (js "{'type':'selections','mfa':[{'question':'Pick one','answers':['a','b']}]}")
             (mfaIntermediate.mk ""
                (Aslice [Amap [("question", Astring "Pick one");
                               ("answers", Aslice [Astring "a"; Astring "b"])]])
                "selections")
             None);
      reflexivity.
  - apply (selections_challenge_decoded
             (js "{'type':'selections','mfa':[{'question':'Pick one','answers':['a'],'n':1e999}]}")
             (mfaIntermediate.mk ""
                (Aslice [Amap [("question", Astring "Pick one");
                               ("answers", Aslice [Astring "a"]); ("n", Anil)]])
                "selections")
             (Some (UnmarshalTypeError "number 1e999")));
      reflexivity.
Defined.

(** X9. An error of [errors.New] at status 201 names the type of the
    challenge that could not be decoded: its text is one of the texts of
    that type, so that a body of an unknown type never gives such an
    error. *)
Theorem challenge_error_names_type (body text : string)
    (postRes : option postResponse.t) (mfaRes : option mfaResponse.t) :
  unmarshalPostMFA 201 body = (postRes, mfaRes, Some (ErrorString text)) ->
  In text (challenge_error_texts (mfaIntermediate.Type_ (intermediate body))).
Proof.
  unfold intermediate, unmarshalPostMFA. cbn [Z.eqb Pos.eqb].
  destruct (Unmarshal mfaIntermediate.store body mfaIntermediate.zero)
    as [inter [e|]]; [discriminate|].
  cbn [fst]. unfold challenge_error_texts, errors_New.
  destruct (String.eqb (mfaIntermediate.Type_ inter) "device").
  { repeat break_match; intros H; try discriminate H; injection H as _ _ <-; cbn; auto. }
  destruct (String.eqb (mfaIntermediate.Type_ inter) "list").
  { destruct (assert_slice _) as [temp ok]. destruct ok; cbn [negb].
    - rewrite list_loop_accepted. destruct (forallb list_accepted temp);
        intros H; try discriminate H; injection H as _ _ <-; cbn; auto.
    - intros H; injection H as _ _ <-; cbn; auto. }
  destruct (String.eqb (mfaIntermediate.Type_ inter) "questions").
  { destruct (assert_slice _) as [temp ok]. destruct ok; cbn [negb].
    - pose proof (questions_loop_accepted temp []) as Hq.
      destruct (forallb question_accepted temp).
      + rewrite Hq. discriminate.
      + destruct Hq as [-> | ->]; intros H; injection H as _ _ <-; cbn; auto.
    - intros H; injection H as _ _ <-; cbn; auto. }
  destruct (String.eqb (mfaIntermediate.Type_ inter) "selections").
  { destruct (assert_slice _) as [temp ok]. destruct ok; cbn [negb].
    - destruct (selections_loop temp []) as [err|x] eqn:Hs; [|discriminate].
      destruct (selections_loop_texts _ _ _ Hs) as [E|[E|E]]; rewrite E;
        intros H; injection H as _ _ <-; cbn; auto.
    - intros H; injection H as _ _ <-; cbn; auto. }
  discriminate.
Qed.

Lemma challenge_error_names_type_witness :
  In "Could not decode selections answers"
     (challenge_error_texts
        (mfaIntermediate.Type_
           (intermediate (js "{'type':'selections','mfa':[{'question':'Pick one','answers':'a'}]}")))).
Proof.
  apply (challenge_error_names_type
           (js "{'type':'selections','mfa':[{'question':'Pick one','answers':'a'}]}")
           "Could not decode selections answers" None None).
  reflexivity.
Defined.

(** ** The error of an unknown status *)

(** A code point below 2048 is read back from its encoding. *)
Lemma DecodeRune_EncodeRune_low (r : Z) :
  0 <= r < 2048 -> fst (utf8.DecodeRune (utf8.EncodeRune r)) = r.
Proof.
  intros H. destruct (Z.lt_ge_cases r 128) as [Hlow|Hhigh].
  - unfold utf8.EncodeRune.
    destruct (Z.leb_spec 0 r); [|lia]. destruct (Z.ltb_spec r 128); [|lia].
    cbn [andb]. unfold utf8.str1. rewrite DecodeRune_ascii; rewrite b2z_z2b by lia;
      [reflexivity|lia].
  - rewrite EncodeRune_2 by lia. unfold utf8.str2, utf8.str1, utf8.DecodeRune.
    assert (R0 : 194 <= 192 + r / 64 < 224)
      by (Z.to_euclidean_division_equations; lia).
    assert (R1 : 128 <= 128 + r mod 64 < 192)
      by (Z.to_euclidean_division_equations; lia).
    rewrite !b2z_z2b by lia.
    destruct (first_cases (192 + r / 64)) as [E|[[E _]|[[_ E]|[[_ E]|[[_ E]|[[_ E]|[[_ E]|[_ E]]]]]]]];
      try lia.
    + exfalso. revert E. unfold utf8.first.
      repeat match goal with
             | |- context [?a <? ?b] => destruct (Z.ltb_spec a b)
             | |- context [?a =? ?b] => destruct (Z.eqb_spec a b)
             end; try lia; discriminate.
    + rewrite E.
      destruct (Z.ltb_spec (128 + r mod 64) 128); [lia|].
      destruct (Z.ltb_spec 191 (128 + r mod 64)); [lia|].
      cbn [orb Nat.leb fst]. Z.to_euclidean_division_equations; lia.
Qed.

(** X10. For the statuses that a server can send, the error of an unknown
    status tells them apart: two different statuses that are not
    negative, are not 200 or 201 and are below 400 never give the same
    result. *)
Theorem unknown_status_injective (StatusCode StatusCode' : Z) (body body' : string) :
  reads_body StatusCode = false -> reads_body StatusCode' = false ->
  0 <= StatusCode -> 0 <= StatusCode' ->
  StatusCode <> StatusCode' ->
  unmarshalPostMFA StatusCode body <> unmarshalPostMFA StatusCode' body'.
Proof.
  intros E E' H0 H0' Hne H. apply Hne.
  assert (Hr : forall s, reads_body s = false -> s <> 200 /\ s <> 201 /\ s < 400).
  { intros s Es. unfold reads_body in Es.
    apply orb_false_iff in Es. destruct Es as [Es E4].
    apply orb_false_iff in Es. destruct Es as [Ea Eb].
    apply Z.eqb_neq in Ea, Eb. apply Z.leb_gt in E4. auto. }
  destruct (Hr _ E) as [A [B C]]. destruct (Hr _ E') as [A' [B' C']].
  rewrite (dispatch_other _ _ A B C), (dispatch_other _ _ A' B' C') in H.
  unfold errors_New, string_of_int_conv in H. cbn [String.append] in H.
  injection H as H.
  rewrite <- (DecodeRune_EncodeRune_low StatusCode) by lia.
  rewrite <- (DecodeRune_EncodeRune_low StatusCode') by lia.
  rewrite H. reflexivity.
Qed.

Lemma unknown_status_injective_witness :
  unmarshalPostMFA 302 "moved" <> unmarshalPostMFA 304 "".
Proof.
  apply (unknown_status_injective 302 304 "moved" ""); try reflexivity; lia.
Defined.

(* ================================================================= *)
(** * Further properties of the callers *)

(** ** The request and its failures *)

(** The request is made, sent and read, in this order. *)
Lemma send_steps (url_Parse : string -> option error) (c : Client)
    (method endpoint body : string) :
  send url_Parse c method endpoint body =
  match url_Parse (environment c +++ endpoint) with
  | Some err => inr err
  | None =>
    match httpClient c (json_request method (environment c +++ endpoint) body) with
    | inr err => inr err
    | inl res =>
      match Response.ReadErr res with
      | Some err => inr err
      | None => inl res
      end
    end
  end.
Proof.
  unfold send, NewRequest. destruct (url_Parse _); reflexivity.
Qed.

(** What [send] returns is a response that was read to its end. *)
Lemma send_read (url_Parse : string -> option error) (c : Client)
    (method endpoint body : string) (res : Response.t) :
  send url_Parse c method endpoint body = inl res -> Response.ReadErr res = None.
Proof.
  rewrite send_steps. destruct (url_Parse _); [discriminate|].
  destruct (httpClient c _) as [r|e]; [|discriminate].
  destruct (Response.ReadErr r) eqn:E; [discriminate|].
  intros H. injection H as <-. exact E.
Qed.

(** The three failures are those of [send], and no other. *)
Lemma send_fails_iff (url_Parse : string -> option error) (c : Client)
    (method endpoint body : string) (err : error) :
  send url_Parse c method endpoint body = inr err
  <-> transport_fails url_Parse c method endpoint body err.
Proof.
  rewrite send_steps. unfold transport_fails.
  destruct (url_Parse (environment c +++ endpoint)) as [e|].
  - split.
    + intros H. injection H as ->. left. reflexivity.
    + intros [H|[H _]]; [injection H as ->; reflexivity|discriminate H].
  - destruct (httpClient c _) as [res|e].
    + destruct (Response.ReadErr res) as [e|] eqn:Er.
      * split.
        -- intros H. injection H as ->. right. split; [reflexivity|]. right.
           exists res. auto.
        -- intros [H|[_ [H|[res' [H1 H2]]]]]; try discriminate.
           injection H1 as <-. rewrite Er in H2. injection H2 as ->. reflexivity.
      * split; [discriminate|].
        intros [H|[_ [H|[res' [H1 H2]]]]]; try discriminate.
        injection H1 as <-. rewrite Er in H2. discriminate.
    + split.
      * intros H. injection H as ->. right. split; [reflexivity|]. left. reflexivity.
      * intros [H|[_ [H|[res' [H1 H2]]]]]; try discriminate.
        injection H as ->. reflexivity.
Qed.

(** X11. A URL that does not parse, a failure of the HTTP client and a body
    that cannot be read to its end are each returned as the error of
    [postAndUnmarshal], of [patchAndUnmarshal] and of
    [deleteAndUnmarshal], with no payload and no challenge: the status
    code and what was read of the body are not looked at. *)
Theorem transport_failure_is_returned (url_Parse : string -> option error) (c : Client)
    (endpoint body : string) (err : error) :
  (transport_fails url_Parse c "POST" endpoint body err ->
   postAndUnmarshal url_Parse c endpoint body = (None, None, Some err))
  /\ (transport_fails url_Parse c "PATCH" endpoint body err ->
      patchAndUnmarshal url_Parse c endpoint body = (None, None, Some err))
  /\ (transport_fails url_Parse c "DELETE" endpoint body err ->
      deleteAndUnmarshal url_Parse c endpoint body = (None, Some err)).
Proof.
  unfold postAndUnmarshal, patchAndUnmarshal, deleteAndUnmarshal.
  repeat split; intros H; apply send_fails_iff in H; rewrite H; reflexivity.
Qed.

Lemma transport_failure_is_returned_witness :
  postAndUnmarshal any_url
    (mkClient "id" "secret" Sandbox
       (truncated 200 (js "{'access_token':'tok'}") "unexpected EOF"))
    "/connect" "{}"
  = (None, None, Some (NetError "unexpected EOF")).
Proof.
  refine (proj1 (transport_failure_is_returned any_url
                   (mkClient "id" "secret" Sandbox
                      (truncated 200 (js "{'access_token':'tok'}") "unexpected EOF"))
                   "/connect" "{}" (NetError "unexpected EOF")) _).
  right. split; [reflexivity|]. right.
  exists (Response.mk 200 (js "{'access_token':'tok'}") (Some (NetError "unexpected EOF"))).
  split; reflexivity.
Defined.

(** ** One result *)

(** X12. [postAndUnmarshal] and [patchAndUnmarshal] return exactly one
    populated result, whatever the server does. *)
Theorem callers_return_one_result (url_Parse : string -> option error) (c : Client)
    (endpoint body : string) :
  populated (postAndUnmarshal url_Parse c endpoint body) = 1%nat
  /\ populated (patchAndUnmarshal url_Parse c endpoint body) = 1%nat.
Proof.
  unfold postAndUnmarshal, patchAndUnmarshal.
  split; destruct (send _ _ _ _ _); first [apply decoder_populated | reflexivity].
Qed.

(** X13. [deleteAndUnmarshal] returns a payload or an error and never both or
    neither; and a payload only when the status is 200.  Every other
    status, 201 and the redirections as well, gives an error. *)
Theorem deleteAndUnmarshal_one_result (url_Parse : string -> option error) (c : Client)
    (endpoint body : string) :
  match deleteAndUnmarshal url_Parse c endpoint body with
  | (Some deleteRes, None) =>
    exists res,
      send url_Parse c "DELETE" endpoint body = inl res
      /\ Response.StatusCode res = 200
      /\ Unmarshal deleteResponse.store (Response.Body res) deleteResponse.zero
         = (deleteRes, None)
  | (None, Some _) => True
  | _ => False
  end.
Proof.
  unfold deleteAndUnmarshal.
  destruct (send url_Parse c "DELETE" endpoint body) as [res|err]; [|exact I].
  destruct (Z.eqb_spec (Response.StatusCode res) 200) as [E|E].
  - destruct (Unmarshal deleteResponse.store _ _) as [d [e|]] eqn:HU; [exact I|].
    exists res. auto.
  - destruct (Unmarshal plaidError.store _ _) as [p [e|]]; exact I.
Qed.

(** ** [getAndUnmarshal] *)

(** X14. [getAndUnmarshal] returns no error exactly when the response was
    read to its end, has status 200 and its body was stored without an
    error. *)
Theorem getAndUnmarshal_succeeds_iff (http_Get : string -> Response.t + error)
    {T : Type} (store : value -> T -> T * option json.error)
    (environment endpoint : string) (cur : T) :
  snd (getAndUnmarshal http_Get store environment endpoint cur) = None
  <-> exists res,
      http_Get (environment +++ endpoint) = inl res
      /\ Response.ReadErr res = None
      /\ Response.StatusCode res = 200
      /\ snd (Unmarshal store (Response.Body res) cur) = None.
Proof.
  unfold getAndUnmarshal.
  destruct (http_Get (environment +++ endpoint)) as [res|err].
  - destruct (Response.ReadErr res) as [e|] eqn:Er.
    + split; [discriminate|]. intros [r [H [H1 _]]]. injection H as <-.
      rewrite Er in H1. discriminate.
    + destruct (Z.eqb_spec (Response.StatusCode res) 200) as [E|E].
      * destruct (Unmarshal store (Response.Body res) cur) as [x [e|]] eqn:HU.
        -- split; [discriminate|]. intros [r [H [_ [_ H3]]]]. injection H as <-.
           rewrite HU in H3. discriminate.
        -- split; [|reflexivity]. intros _. exists res. rewrite HU. auto.
      * split.
        -- destruct (Unmarshal plaidError.store _ _) as [p [e|]]; discriminate.
        -- intros [r [H [_ [H2 _]]]]. injection H as <-. contradiction.
  - split; [discriminate|]. intros [r [H _]]. discriminate.
Qed.

(** X15. The variable that [structure] points to is written only for a
    response with status 200 that was read to its end: a failure of the
    request and every other status leave it as it was. *)
Theorem getAndUnmarshal_writes_on_200_only (http_Get : string -> Response.t + error)
    {T : Type} (store : value -> T -> T * option json.error)
    (environment endpoint : string) (cur : T) :
  fst (getAndUnmarshal http_Get store environment endpoint cur) <> cur ->
  exists res,
    http_Get (environment +++ endpoint) = inl res
    /\ Response.ReadErr res = None
    /\ Response.StatusCode res = 200
    /\ fst (getAndUnmarshal http_Get store environment endpoint cur)
       = fst (Unmarshal store (Response.Body res) cur).
Proof.
  unfold getAndUnmarshal.
  destruct (http_Get (environment +++ endpoint)) as [res|err];
    [|intros H; exfalso; apply H; reflexivity].
  destruct (Response.ReadErr res) as [e|] eqn:Er;
    [intros H; exfalso; apply H; reflexivity|].
  destruct (Z.eqb_spec (Response.StatusCode res) 200) as [E|E].
  - intros _. exists res. destruct (Unmarshal store (Response.Body res) cur) as [x e].
    auto.
  - destruct (Unmarshal plaidError.store _ _) as [p [e|]];
      intros H; exfalso; apply H; reflexivity.
Qed.

Lemma getAndUnmarshal_writes_on_200_only_witness :
  exists res,
    get_answering 200 (js "{'institution':{'name':'Chase'}}")
      (Production +++ "/institutions/ins_1") = inl res
    /\ Response.ReadErr res = None
    /\ Response.StatusCode res = 200
    /\ fst (getAndUnmarshal (get_answering 200 (js "{'institution':{'name':'Chase'}}"))
              InstitutionJson.store Production "/institutions/ins_1" InstitutionJson.zero)
       = fst (Unmarshal InstitutionJson.store (Response.Body res) InstitutionJson.zero).
Proof.
  apply (getAndUnmarshal_writes_on_200_only
           (get_answering 200 (js "{'institution':{'name':'Chase'}}"))
           InstitutionJson.store Production "/institutions/ins_1" InstitutionJson.zero).
  vm_compute. discriminate.
Defined.

(** ** [Transactions] *)

(** X16. [Transactions] hands one request to the HTTP client of a client made
    by [NewCustomClient], a POST of the envelope to the path
    [/transactions/get] of the environment: two HTTP clients that treat
    this request alike give the same result. *)
Theorem Transactions_sends_one_request (url_Parse : string -> option error)
    (clientID secret environment : string) (Do Do' : Doer)
    (accessToken startDate endDate : string) (options : TransactionOptionsJson.t) :
  Do (transactions_request clientID secret environment accessToken startDate endDate options)
  = Do' (transactions_request clientID secret environment accessToken startDate endDate
           options) ->
  Transactions url_Parse (NewCustomClient clientID secret environment Do)
    accessToken startDate endDate options
  = Transactions url_Parse (NewCustomClient clientID secret environment Do')
      accessToken startDate endDate options.
Proof.
  intros H. unfold Transactions, postAndUnmarshal. rewrite !send_steps.
  unfold NewCustomClient. cbn [plaid.environment plaid.httpClient plaid.clientID plaid.secret].
  unfold transactions_request in H. rewrite H. reflexivity.
Qed.

Lemma Transactions_sends_one_request_witness :
  Transactions any_url
    (NewCustomClient "id" "secret" Sandbox (answering 200 (js "{'access_token':'tok'}")))
    "tok" "2017-01-01" "2017-02-01" (TransactionOptionsJson.mk 100 0)
  = Transactions any_url
      (NewCustomClient "id" "secret" Sandbox
         (only_at "https://sandbox.plaid.com/transactions/get" 200
            (js "{'access_token':'tok'}")))
      "tok" "2017-01-01" "2017-02-01" (TransactionOptionsJson.mk 100 0).
Proof.
  apply (Transactions_sends_one_request any_url "id" "secret" Sandbox
           (answering 200 (js "{'access_token':'tok'}"))
           (only_at "https://sandbox.plaid.com/transactions/get" 200
              (js "{'access_token':'tok'}"))
           "tok" "2017-01-01" "2017-02-01" (TransactionOptionsJson.mk 100 0)).
  reflexivity.
Defined.

(** X17. [Transactions] returns neither a payload nor an error in one case
    only: the response has status 201 and the decoder made a challenge of
    it.  In every other case one of the two results is populated. *)
Theorem Transactions_silent_iff_challenge (url_Parse : string -> option error)
    (c : Client) (accessToken startDate endDate : string)
    (options : TransactionOptionsJson.t) :
  Transactions url_Parse c accessToken startDate endDate options = (None, None)
  <-> exists res mfaRes,
      send url_Parse c "POST" "/transactions/get"
        (transactionJson.Marshal
           (transactionJson.mk (clientID c) (secret c) accessToken startDate endDate
              options))
      = inl res
      /\ Response.StatusCode res = 201
      /\ unmarshalPostMFA 201 (Response.Body res) = (None, Some mfaRes, None).
Proof.
  unfold Transactions, postAndUnmarshal.
  destruct (send _ _ _ _ _) as [res|err].
  - pose proof (decoder_populated (Response.StatusCode res) (Response.Body res)) as Hp.
    destruct (unmarshalPostMFA (Response.StatusCode res) (Response.Body res))
      as [[p m] e] eqn:Hd.
    split.
    + intros H. injection H as -> ->. destruct m as [m|]; [|discriminate Hp].
      exists res, m.
      pose proof (challenge_only_from_201 _ _ _ _ _ Hd) as E.
      rewrite E in Hd. auto.
    + intros [r [m' [H [E Hm]]]]. injection H as <-. rewrite E, Hm in Hd.
      injection Hd as <- _ <-. reflexivity.
  - split; [discriminate|]. intros [r [m' [H _]]]. discriminate.
Qed.

(** X18. [Transactions] returns a payload exactly when the response was read
    to its end, has status 200 and its body was stored in a
    [postResponse] without an error; the payload is then that value, and
    the error is [nil]. *)
Theorem Transactions_payload_iff (url_Parse : string -> option error)
    (c : Client) (accessToken startDate endDate : string)
    (options : TransactionOptionsJson.t) (postRes : postResponse.t) :
  fst (Transactions url_Parse c accessToken startDate endDate options) = Some postRes
  <-> exists res,
      send url_Parse c "POST" "/transactions/get"
        (transactionJson.Marshal
           (transactionJson.mk (clientID c) (secret c) accessToken startDate endDate
              options))
      = inl res
      /\ Response.StatusCode res = 200
      /\ Unmarshal postResponse.store (Response.Body res) postResponse.zero
         = (postRes, None)
      /\ Transactions url_Parse c accessToken startDate endDate options
         = (Some postRes, None).
Proof.
  unfold Transactions, postAndUnmarshal.
  destruct (send _ _ _ _ _) as [res|err].
  - destruct (status_cases (Response.StatusCode res)) as [E|[E|[H4|[H0 [H1 H4]]]]].
    + rewrite E, dispatch_200.
      destruct (Unmarshal postResponse.store (Response.Body res) postResponse.zero)
        as [p [e|]] eqn:HU; cbn [fst].
      * split; [discriminate|]. intros [r [H [_ [H2 _]]]]. injection H as <-.
        rewrite HU in H2. discriminate.
      * split.
        -- intros H. injection H as <-. exists res. auto.
        -- intros [r [H [_ [H2 _]]]]. injection H as <-. rewrite HU in H2.
           injection H2 as <-. reflexivity.
    + rewrite E. split.
      * destruct (dispatch_201 (Response.Body res)) as [[m ->]|[[e ->]|[t ->]]];
          discriminate.
      * intros [r [H [H2 _]]]. injection H as <-. rewrite E in H2. discriminate.
    + rewrite (dispatch_400 _ _ H4). split.
      * destruct (Unmarshal plaidError.store _ _) as [p [e|]]; discriminate.
      * intros [r [H [H2 _]]]. injection H as <-. lia.
    + rewrite (dispatch_other _ _ H0 H1 H4). split; [discriminate|].
      intros [r [H [H2 _]]]. injection H as <-. contradiction.
  - split; [discriminate|]. intros [r [H _]]. discriminate.
Qed.

(** ** [GetInstitutionById] *)

(** What [GetInstitutionById] does once the URL is parsed. *)
Lemma GetInstitutionById_steps (url_Parse : string -> option error) (Do : Doer)
    (publicKey institutionId : string) :
  GetInstitutionById url_Parse Do publicKey institutionId =
  match url_Parse "https://production.plaid.com/institutions/get_by_id" with
  | Some _ => ([], Panics (inr "invalid memory address or nil pointer dereference"))
  | None =>
    match Do (institution_request publicKey institutionId) with
    | inr err => ([], Panics (inl err))
    | inl resp =>
      (match snd (Unmarshal InstitutionJson.store (Response.Body resp)
                    InstitutionJson.zero) with
       | Some e => [JsonError e]
       | None => []
       end,
       Returns (Institution.Name
                  (InstitutionJson.Institution
                     (fst (Unmarshal InstitutionJson.store (Response.Body resp)
                             InstitutionJson.zero)))))
    end
  end.
Proof.
  unfold GetInstitutionById, NewRequest.
  destruct (url_Parse _); [reflexivity|].
  change (Request.Header_Set "Content-Type" "application/json"
            (Request.Header_Set "X-Custom-Header" "myvalue"
               (Request.mk "POST" "https://production.plaid.com/institutions/get_by_id" []
                  (institutionJson.Marshal (institutionJson.mk institutionId publicKey)))))
    with (institution_request publicKey institutionId).
  destruct (Do _) as [resp|err]; [|reflexivity].
  destruct (Unmarshal InstitutionJson.store _ _) as [x e]. reflexivity.
Qed.

(** X19. The outcome depends on the HTTP client through the answer to one
    request, and on the answer through its body: the status code is not
    looked at, and neither is a failure to read the body to its end. *)
Theorem GetInstitutionById_reads_only_the_body (url_Parse : string -> option error)
    (Do Do' : Doer) (publicKey institutionId : string) (resp resp' : Response.t) :
  Do (institution_request publicKey institutionId) = inl resp ->
  Do' (institution_request publicKey institutionId) = inl resp' ->
  Response.Body resp = Response.Body resp' ->
  GetInstitutionById url_Parse Do publicKey institutionId
  = GetInstitutionById url_Parse Do' publicKey institutionId.
Proof.
  intros H H' Hb. rewrite !GetInstitutionById_steps, H, H', Hb. reflexivity.
Qed.

Lemma GetInstitutionById_reads_only_the_body_witness :
  GetInstitutionById any_url (answering 200 (js "{'institution':{'name':'Cha")) "key" "ins_1"
  = GetInstitutionById any_url (truncated 500 (js "{'institution':{'name':'Cha") "EOF")
      "key" "ins_1".
Proof.
  apply (GetInstitutionById_reads_only_the_body any_url
           (answering 200 (js "{'institution':{'name':'Cha"))
           (truncated 500 (js "{'institution':{'name':'Cha") "EOF")
           "key" "ins_1"
           (Response.mk 200 (js "{'institution':{'name':'Cha") None)
           (Response.mk 500 (js "{'institution':{'name':'Cha") (Some (NetError "EOF"))));
    reflexivity.
Defined.

(** The JSON text of an answer that holds a name, read as a tree. *)
Lemma parse_institution_body (name : string) :
  utf8.ValidString name = true ->
  parse (institution_body name)
  = Done (Object [("institution", Object [("name", Str name)])]) EmptyString.
Proof.
  intros Hn. unfold parse.
  assert (Hs : skip_ws (institution_body name) = institution_body name) by reflexivity.
  rewrite Hs.
  assert (Hf : exists fuel,
             parse_fuel (institution_body name) = S (S (S (S (S fuel))))).
  { unfold parse_fuel, institution_body. rewrite !length_append. cbn [String.length].
    eexists. rewrite <- !plus_n_Sm. reflexivity. }
  destruct Hf as [fuel ->].
  unfold institution_body.
  change "}}" with ("}" +++ "}" +++ EmptyString).
  rewrite parse_value_object by (unfold maxNestingDepth; lia).
  assert (E : "{" +++ member "name" +++ quote name +++ "}" +++ "}" +++ EmptyString
              = ("{" +++ member "name" +++ quote name +++ "}") +++ "}" +++ EmptyString)
    by (rewrite !append_assoc; reflexivity).
  rewrite E.
  rewrite (parse_members_last _ _ "institution"
             ("{" +++ member "name" +++ quote name +++ "}")
             (Object [("name", Str name)]) EmptyString); [reflexivity|reflexivity| |].
  - rewrite !append_assoc. reflexivity.
  - rewrite !append_assoc.
    rewrite parse_value_object by (unfold maxNestingDepth; lia).
    erewrite parse_members_last;
      [ reflexivity | reflexivity | apply skip_ws_quote
        | apply parse_value_quote; assumption ].
Qed.

(** X20. Every name is read back from the answer of the server: when the body
    is the object that holds the name in [institution.name], written as
    [json.Marshal] writes a string, [GetInstitutionById] returns the name
    and prints nothing, whatever the status code is. *)
Theorem GetInstitutionById_returns_name (url_Parse : string -> option error)
    (Do : Doer) (publicKey institutionId name : string) (resp : Response.t) :
  url_Parse "https://production.plaid.com/institutions/get_by_id" = None ->
  Do (institution_request publicKey institutionId) = inl resp ->
  Response.Body resp = institution_body name ->
  utf8.ValidString name = true ->
  GetInstitutionById url_Parse Do publicKey institutionId = ([], Returns name).
Proof.
  intros Hurl HDo Hbody Hn. rewrite GetInstitutionById_steps, Hurl, HDo, Hbody.
  unfold Unmarshal. rewrite (parse_institution_body _ Hn). reflexivity.
Qed.

Lemma GetInstitutionById_returns_name_witness :
  GetInstitutionById any_url (answering 200 (js "{'institution':{'name':'Tartan Bank'}}"))
    "key" "ins_1"
  = ([], Returns "Tartan Bank").
Proof.
  apply (GetInstitutionById_returns_name any_url
           (answering 200 (js "{'institution':{'name':'Tartan Bank'}}"))
           "key" "ins_1" "Tartan Bank"
           (Response.mk 200 (js "{'institution':{'name':'Tartan Bank'}}") None));
    reflexivity.
Defined.

(* ================================================================= *)
(** * The text of a request, for strings of any bytes *)

(** The characters that the encoder writes for a string, followed by the
    closing quote, are read back as the string with its invalid bytes
    replaced. *)
Lemma scan_quote_body_any (n : nat) :
  forall s : string,
    (String.length s <= n)%nat ->
    forall (m : nat) (rest : string),
      (String.length (quote_body n s) < m)%nat ->
      scan_string m (quote_body n s +++ String dquote rest)
      = Done (replace_invalid_fuel n s) rest.
Proof.
  induction n as [|n IH]; intros s Hlen m rest Hm.
  - destruct s; [|cbn in Hlen; lia]. destruct m; [lia|]. reflexivity.
  - destruct s as [|c s].
    { destruct m; [lia|]. reflexivity. }
    cbn [quote_body replace_invalid_fuel] in *. unfold utf8.RuneSelf in *.
    destruct (Z.ltb_spec (b2z c) 128) as [Hc|Hc].
    + rewrite append_assoc. rewrite length_append in Hm.
      pose proof (escape_nonempty c).
      destruct m as [|m]; [lia|].
      rewrite scan_string_ascii by assumption.
      rewrite IH; [reflexivity| | ].
      { cbn in Hlen; lia. }
      lia.
    + pose proof (DecodeRune_high c s Hc) as Hd.
      destruct (utf8.DecodeRune (String c s)) as [r size] eqn:Hdec.
      destruct Hd as [[-> ->]|(Hsize & Hl & Hh & Henc & Hr & Ht)].
      { cbn [Z.eqb Pos.eqb Nat.eqb andb drop] in *. unfold utf8.RuneError in *.
        cbn [Z.eqb Pos.eqb andb] in *.
        destruct m as [|m]; [lia|].
        assert (Hstep : forall X,
                   scan_string (S m) ("\ufffd" +++ X)
                   = rmap (String.append (utf8.EncodeRune 65533)) (scan_string m X))
          by reflexivity.
        rewrite append_assoc, Hstep.
        rewrite IH; [reflexivity| | ].
        - cbn in Hlen; lia.
        - rewrite length_append in Hm. cbn [String.length] in Hm. lia. }
      assert (Hs1 : (size =? 1)%nat = false) by (apply Nat.eqb_neq; lia).
      rewrite Hs1, andb_false_r in *.
      pose proof (length_take_drop size (String c s) Hl) as Hld.
      assert (Hrec : forall m' rest',
                 (String.length (quote_body n (drop size (String c s))) < m')%nat ->
                 scan_string m' (quote_body n (drop size (String c s))
                                 +++ String dquote rest')
                 = Done (replace_invalid_fuel n (drop size (String c s))) rest').
      { intros m' rest' Hm'. apply IH; [lia|assumption]. }
      destruct ((r =? 8232) || (r =? 8233)) eqn:Hsep.
      * destruct m as [|m]; [cbn in Hm; lia|].
        assert (Hstep : scan_string (S m)
                          (("\u202" +++ String (hexdigit (r mod 16))
                               (quote_body n (drop size (String c s))))
                           +++ String dquote rest)
                        = rmap (String.append (utf8.EncodeRune r))
                               (scan_string m (quote_body n (drop size (String c s))
                                               +++ String dquote rest))).
        { apply orb_true_iff in Hsep.
          destruct Hsep as [E|E]; apply Z.eqb_eq in E; subst r; reflexivity. }
        rewrite Hstep, Hrec by (cbn in Hm; lia). cbn [rmap].
        rewrite Henc. reflexivity.
      * rewrite append_assoc. rewrite length_append in Hm.
        assert (Htk : take size (String c s)
                      = String c (take (Nat.pred size) s)).
        { destruct size; [lia|reflexivity]. }
        destruct m as [|m]; [lia|].
        set (X := quote_body n (drop size (String c s)) +++ String dquote rest).
        assert (HX : take size (String c s) +++ X
                     = String c (take (Nat.pred size) s +++ X))
          by (rewrite Htk; reflexivity).
        rewrite HX, scan_string_high, <- HX by assumption.
        rewrite Ht, drop_take_append by assumption. subst X.
        rewrite Hrec by lia. cbn [rmap]. rewrite Henc. reflexivity.
Qed.

(** A valid string has nothing to replace. *)
Lemma replace_invalid_fuel_valid (n : nat) :
  forall s : string,
    (String.length s <= n)%nat ->
    utf8.valid_fuel n s = true -> replace_invalid_fuel n s = s.
Proof.
  induction n as [|n IH]; intros s Hlen Hvalid.
  - destruct s; [reflexivity|cbn in Hlen; lia].
  - destruct s as [|c s]; [reflexivity|].
    cbn [replace_invalid_fuel utf8.valid_fuel] in *. unfold utf8.RuneSelf.
    destruct (Z.ltb_spec (b2z c) 128) as [Hc|Hc].
    + rewrite DecodeRune_ascii in Hvalid by assumption.
      destruct (Z.eqb_spec (b2z c) utf8.RuneError) as [E|_];
        [unfold utf8.RuneError in E; lia|].
      cbn [andb drop] in Hvalid. rewrite IH; [reflexivity| |assumption].
      cbn in Hlen; lia.
    + pose proof (DecodeRune_high c s Hc) as Hd.
      destruct (utf8.DecodeRune (String c s)) as [r size] eqn:Hdec.
      destruct Hd as [[-> ->]|(Hsize & Hl & Hh & Henc & Hr & Ht)].
      { cbn in Hvalid. discriminate. }
      assert (Hs1 : (size =? 1)%nat = false) by (apply Nat.eqb_neq; lia).
      rewrite Hs1, andb_false_r in *.
      pose proof (length_take_drop size (String c s) Hl) as Hld.
      rewrite IH; [apply take_drop|lia|assumption].
Qed.

Lemma replace_invalid_valid (s : string) :
  utf8.ValidString s = true -> replace_invalid s = s.
Proof. intros H. apply replace_invalid_fuel_valid; [lia|exact H]. Qed.

(** A string written by [quote] is read as one string value, whatever
    its bytes are. *)
Lemma parse_value_quote_any (fuel : nat) (depth : Z) (s R : string) :
  parse_value (S fuel) depth (quote s +++ R) = Done (Str (replace_invalid s)) R.
Proof.
  rewrite quote_append. cbn [parse_value].
  change (Ascii.eqb dquote "{") with false. change (Ascii.eqb dquote "[") with false.
  change (Ascii.eqb dquote dquote) with true. cbv iota.
  unfold string_lit, replace_invalid. rewrite scan_quote_body_any; [reflexivity|lia|].
  rewrite length_append. cbn [String.length]. lia.
Qed.

(** The JSON text of an envelope, read as a tree. *)
Lemma parse_envelope_any (fuel : nat) (x : transactionJson.t) (R : string) :
  (11 <= fuel)%nat ->
  parse_value fuel 0 (transactionJson.Marshal x +++ R)
  = Done (envelope_tree (with_replacements x)) R.
Proof.
  intros Hf. do 11 (destruct fuel as [|fuel]; [lia|]). clear Hf.
  unfold transactionJson.Marshal. rewrite !append_assoc.
  rewrite parse_value_object by (unfold maxNestingDepth; lia).
  do 5 (erewrite parse_members_cons;
        [ | reflexivity | apply skip_ws_quote
          | apply parse_value_quote_any | apply skip_ws_member ]).
  rewrite parse_members_last with (v := options_tree (transactionJson.Options x));
    [ reflexivity | reflexivity | reflexivity
      | apply parse_options; unfold maxNestingDepth; lia ].
Qed.

(** X21. The text that [Transactions] sends is a JSON text for every client
    and for all arguments, strings of any bytes among them: it is read
    back without an error, to the envelope in which every byte that
    starts no valid UTF-8 sequence is replaced by U+FFFD, which is the
    envelope itself when its strings are valid UTF-8. *)
Theorem envelope_text_is_read_back (x : transactionJson.t) :
  int_range (TransactionOptionsJson.Count (transactionJson.Options x)) ->
  int_range (TransactionOptionsJson.Offset (transactionJson.Options x)) ->
  parse (transactionJson.Marshal x) = Done (envelope_tree (with_replacements x)) EmptyString
  /\ Unmarshal transactionJson.store (transactionJson.Marshal x) transactionJson.zero
     = (with_replacements x, None)
  /\ (well_formed x -> with_replacements x = x).
Proof.
  intros Hc Ho.
  assert (Hp : parse (transactionJson.Marshal x)
               = Done (envelope_tree (with_replacements x)) EmptyString).
  { unfold parse.
    assert (Hs : skip_ws (transactionJson.Marshal x) = transactionJson.Marshal x)
      by reflexivity.
    rewrite Hs. rewrite <- (append_nil_r (transactionJson.Marshal x)) at 2.
    rewrite parse_envelope_any; [reflexivity|].
    unfold parse_fuel, transactionJson.Marshal. rewrite !length_append.
    cbn [String.length]. lia. }
  split; [exact Hp|]. split.
  - unfold Unmarshal. rewrite Hp.
    destruct x as [cid sec tok sd ed [c o]]. cbn in Hc, Ho.
    unfold envelope_tree, options_tree, with_replacements. cbn.
    rewrite (ParseInt_FormatInt c) by assumption. cbn.
    rewrite (ParseInt_FormatInt o) by assumption. reflexivity.
  - intros Hw. destruct x as [cid sec tok sd ed opts].
    unfold well_formed, with_replacements in *.
    cbn [transactionJson.ClientID transactionJson.Secret transactionJson.AccessToken
         transactionJson.StartDate transactionJson.EndDate transactionJson.Options] in *.
    destruct Hw as (H1 & H2 & H3 & H4 & H5 & _).
    rewrite !replace_invalid_valid by assumption. reflexivity.
Qed.

Lemma envelope_text_is_read_back_witness :
  Unmarshal transactionJson.store
    (transactionJson.Marshal
       (transactionJson.mk "id" "secret" (String (z2b 128) "tok" +++ String (z2b 255) "en")
          "2017-01-01" "2017-02-01" (TransactionOptionsJson.mk 100 0)))
    transactionJson.zero
  = (transactionJson.mk "id" "secret"
       (utf8.EncodeRune 65533 +++ "tok" +++ utf8.EncodeRune 65533 +++ "en")
       "2017-01-01" "2017-02-01" (TransactionOptionsJson.mk 100 0), None).
Proof.
  refine (proj1 (proj2 (envelope_text_is_read_back
                          (transactionJson.mk "id" "secret"
                             (String (z2b 128) "tok" +++ String (z2b 255) "en")
                             "2017-01-01" "2017-02-01" (TransactionOptionsJson.mk 100 0))
                          _ _)));
    unfold int_range; cbn; split; discriminate.
Defined.

(** X22. The text that [GetInstitutionById] sends is a JSON object with the
    two members [institution_id] and [public_key], in this order, which
    hold the two arguments with their invalid bytes replaced; arguments
    that are valid UTF-8 are sent as they are. *)
Theorem institution_request_text (publicKey institutionId : string) :
  parse (Request.Body (institution_request publicKey institutionId))
  = Done (institution_tree (replace_invalid publicKey) (replace_invalid institutionId))
         EmptyString
  /\ (utf8.ValidString publicKey = true -> utf8.ValidString institutionId = true ->
      institution_tree (replace_invalid publicKey) (replace_invalid institutionId)
      = institution_tree publicKey institutionId).
Proof.
  split.
  - unfold institution_request. cbn [Request.Body]. unfold parse.
    set (text := institutionJson.Marshal (institutionJson.mk institutionId publicKey)).
    assert (Hs : skip_ws text = text) by reflexivity.
    rewrite Hs.
    assert (Hf : exists fuel, parse_fuel text = S (S (S (S fuel)))).
    { unfold parse_fuel, text, institutionJson.Marshal. rewrite !length_append.
      cbn [String.length]. eexists. rewrite <- !plus_n_Sm. reflexivity. }
    destruct Hf as [fuel ->].
    rewrite <- (append_nil_r text).
    unfold text, institutionJson.Marshal.
    cbn [institutionJson.InstitutionId institutionJson.PublicKey].
    rewrite !append_assoc.
    rewrite parse_value_object by (unfold maxNestingDepth; lia).
    erewrite parse_members_cons;
      [ | reflexivity | apply skip_ws_quote
        | apply parse_value_quote_any | apply skip_ws_member ].
    erewrite parse_members_last;
      [ reflexivity | reflexivity | apply skip_ws_quote
        | apply parse_value_quote_any ].
  - intros Hk Hi. rewrite !replace_invalid_valid by assumption. reflexivity.
Qed.

(* ================================================================= *)
(** * Members that name no field *)

Lemma saveError_None (e : option json.error) : saveError e None = e.
Proof. destruct e; reflexivity. Qed.

(** A member that [field] does not store can be left out. *)
Lemma store_members_skip {T : Type} (field : string -> value -> T -> T * option json.error)
    (k : string) (v : value) (before after : list (string * value)) (cur : T) :
  (forall x, field k v x = (x, None)) ->
  store_members field (before ++ (k, v) :: after)%list cur
  = store_members field (before ++ after)%list cur.
Proof.
  intros H. unfold store_members. rewrite !fold_left_app. cbn [fold_left fst snd].
  destruct (fold_left _ before (cur, None)) as [x e]. cbn [fst snd].
  rewrite H, saveError_None. reflexivity.
Qed.

Lemma Unmarshal_skip {T : Type} (field : string -> value -> T -> T * option json.error)
    (body body' k : string) (v : value) (before after : list (string * value)) (cur : T) :
  parse body = Done (Object (before ++ (k, v) :: after)%list) EmptyString ->
  parse body' = Done (Object (before ++ after)%list) EmptyString ->
  (forall x, field k v x = (x, None)) ->
  Unmarshal (store_struct field) body cur = Unmarshal (store_struct field) body' cur.
Proof.
  intros H H' Hf. unfold Unmarshal. rewrite H, H'. cbn [store_struct].
  apply store_members_skip. exact Hf.
Qed.

(** X23. The decoder ignores what it does not know.  Two bodies that differ by
    one member whose name matches no field of the structure, whatever its
    value is, give the same result for every status code. *)
Theorem unknown_member_is_ignored (StatusCode : Z) (body body' k : string) (v : value)
    (before after : list (string * value)) :
  parse body = Done (Object (before ++ (k, v) :: after)%list) EmptyString ->
  parse body' = Done (Object (before ++ after)%list) EmptyString ->
  unknown_member k = true ->
  unmarshalPostMFA StatusCode body = unmarshalPostMFA StatusCode body'.
Proof.
  intros H H' Hk. unfold unknown_member in Hk.
  destruct (field_index postResponse.names k) eqn:E1; [discriminate|].
  destruct (field_index mfaIntermediate.names k) eqn:E2; [discriminate|].
  destruct (field_index plaidError.names k) eqn:E3; [discriminate|].
  unfold unmarshalPostMFA, postResponse.store, mfaIntermediate.store, plaidError.store.
  rewrite (Unmarshal_skip postResponse.field body body' k v before after _ H H').
  2:{ intros x. unfold postResponse.field. destruct x. rewrite E1. reflexivity. }
  rewrite (Unmarshal_skip mfaIntermediate.field body body' k v before after _ H H').
  2:{ intros x. unfold mfaIntermediate.field. destruct x. rewrite E2. reflexivity. }
  rewrite (Unmarshal_skip plaidError.field body body' k v before after _ H H').
  2:{ intros x. unfold plaidError.field. destruct x. rewrite E3. reflexivity. }
  reflexivity.
Qed.

Lemma unknown_member_is_ignored_witness :
  unmarshalPostMFA 200 (js "{'access_token':'tok','request_id':[1e999],'mfa':'x'}")
  = unmarshalPostMFA 200 (js "{'access_token':'tok','mfa':'x'}").
Proof.
  apply (unknown_member_is_ignored 200
           (js "{'access_token':'tok','request_id':[1e999],'mfa':'x'}")
           (js "{'access_token':'tok','mfa':'x'}")
           "request_id" (Array [Number "1e999"])
           [("access_token", Str "tok")] [("mfa", Str "x")]);
    reflexivity.
Defined.

(* ================================================================= *)
(** * The text of the other [plaidError] *)

(** The digits that [FormatInt] writes tell the number. *)
Lemma FormatInt_injective (z z' : Z) :
  strconv.FormatInt z = strconv.FormatInt z' -> z = z'.
Proof.
  unfold strconv.FormatInt. intros H.
  assert (Hi : forall x, NilZero.int_of_string (NilZero.string_of_int (Z.to_int x))
                         = Some (Z.to_int x)).
  { intros x. apply NilZero.isi.
    - destruct x as [|p|p]; cbn; try discriminate.
      intros E. injection E as E. exact (DecimalPos.Unsigned.to_uint_nonnil p E).
    - destruct x as [|p|p]; cbn; try discriminate.
      intros E. injection E as E. exact (DecimalPos.Unsigned.to_uint_nonnil p E). }
  pose proof (Hi z) as Hz. rewrite H, Hi in Hz. injection Hz as Hz.
  rewrite <- (DecimalZ.of_to z), <- (DecimalZ.of_to z'), Hz. reflexivity.
Qed.

Lemma append_cancel_l (p a b : string) : p +++ a = p +++ b -> a = b.
Proof.
  induction p as [|c p IH]; cbn [String.append]; intros H; [exact H|].
  injection H as H. exact (IH H).
Qed.

(** X24. The text of the [plaidError] with an [http_code] tells the HTTP error
    code, which it prints in decimal: two errors with different codes
    have different texts.  The status code of the response is not in the
    text. *)
Theorem http_code_Error_tells_the_code (http http' : Z) (code code' message message' : string)
    (status status' : Z) :
  http <> http' ->
  plaidError_http_code.Error (plaidError_http_code.mk http code message status)
  <> plaidError_http_code.Error (plaidError_http_code.mk http' code' message' status')
  /\ plaidError_http_code.Error (plaidError_http_code.mk http code message status)
     = plaidError_http_code.Error (plaidError_http_code.mk http code message status').
Proof.
  intros Hne. split; [|reflexivity]. intros H. apply Hne.
  unfold plaidError_http_code.Error in H.
  cbn [plaidError_http_code.HttpErrorCode plaidError_http_code.ErrorCode
       plaidError_http_code.Message] in H.
  apply append_cancel_l in H.
  pose proof (number_lit_FormatInt http
                (", code: %!d(string=" +++ code +++ "), message: " +++ message) eq_refl) as N.
  pose proof (number_lit_FormatInt http'
                (", code: %!d(string=" +++ code' +++ "), message: " +++ message') eq_refl)
    as N'.
  rewrite H, N' in N. injection N as N _. apply FormatInt_injective. symmetry. exact N.
Qed.

Lemma http_code_Error_tells_the_code_witness :
  plaidError_http_code.Error (plaidError_http_code.mk 404 "1501" "not found" 404)
  <> plaidError_http_code.Error (plaidError_http_code.mk 500 "1501" "not found" 200)
  /\ plaidError_http_code.Error (plaidError_http_code.mk 404 "1501" "not found" 404)
     = plaidError_http_code.Error (plaidError_http_code.mk 404 "1501" "not found" 200).
Proof.
  apply (http_code_Error_tells_the_code 404 500 "1501" "1501" "not found" "not found"
           404 200).
  lia.
Defined.

(* ================================================================= *)
(** * Bodies read from their text *)

Lemma parse_success_body (token : string) (total : Z) :
  utf8.ValidString token = true ->
  parse (success_body token total)
  = Done (Object [("access_token", Str token);
                  ("total_transactions", Number (strconv.FormatInt total))]) EmptyString.
Proof.
  intros Ht. unfold parse.
  assert (Hs : skip_ws (success_body token total) = success_body token total)
    by reflexivity.
  rewrite Hs.
  assert (Hf : exists fuel, parse_fuel (success_body token total) = S (S (S (S fuel)))).
  { unfold parse_fuel, success_body. rewrite !length_append. cbn [String.length].
    eexists. rewrite <- !plus_n_Sm. reflexivity. }
  destruct Hf as [fuel ->].
  rewrite <- (append_nil_r (success_body token total)).
  unfold success_body. rewrite !append_assoc.
  rewrite parse_value_object by (unfold maxNestingDepth; lia).
  erewrite parse_members_cons;
    [ | reflexivity | apply skip_ws_quote
      | apply parse_value_quote; assumption | apply skip_ws_member ].
  rewrite parse_members_last with (v := Number (strconv.FormatInt total));
    [ reflexivity | reflexivity | apply skip_ws_FormatInt
      | apply parse_value_FormatInt; reflexivity ].
Qed.

(** X25. For status 200, every access token and every number of transactions
    are read from the text of the body as they are, the token with the
    escapes that it needs and the number in decimal. *)
Theorem decode_success_body (token : string) (total : Z) :
  utf8.ValidString token = true ->
  int_range total ->
  unmarshalPostMFA 200 (success_body token total)
  = (Some (postResponse.mk token "" nil_slice "" "" nil_slice total Item.zero),
     None, None).
Proof.
  intros Ht Hr. rewrite dispatch_200. unfold Unmarshal.
  rewrite (parse_success_body _ _ Ht). cbn.
  rewrite (ParseInt_FormatInt total Hr). reflexivity.
Qed.

Lemma decode_success_body_witness :
  unmarshalPostMFA 200 (success_body "t\ok<1>" (-12))
  = (Some (postResponse.mk "t\ok<1>" "" nil_slice "" "" nil_slice (-12) Item.zero),
     None, None).
Proof.
  apply (decode_success_body "t\ok<1>" (-12)); [reflexivity|].
  unfold int_range. split; discriminate.
Defined.

Lemma parse_device_body (token message : string) :
  utf8.ValidString token = true ->
  utf8.ValidString message = true ->
  parse (device_body token message)
  = Done (Object [("access_token", Str token); ("type", Str "device");
                  ("mfa", Object [("message", Str message)])]) EmptyString.
Proof.
  intros Ht Hm. unfold parse.
  assert (Hs : skip_ws (device_body token message) = device_body token message)
    by reflexivity.
  rewrite Hs.
  assert (Hf : exists fuel,
             parse_fuel (device_body token message) = S (S (S (S (S (S (S fuel))))))).
  { unfold parse_fuel, device_body. rewrite !length_append. cbn [String.length].
    eexists. rewrite <- !plus_n_Sm. reflexivity. }
  destruct Hf as [fuel ->].
  unfold device_body.
  change "}}" with ("}" +++ "}" +++ EmptyString).
  rewrite parse_value_object by (unfold maxNestingDepth; lia).
  do 2 (erewrite parse_members_cons;
        [ | reflexivity | apply skip_ws_quote
          | apply parse_value_quote; first [assumption | reflexivity]
          | apply skip_ws_member ]).
  assert (E : "{" +++ member "message" +++ quote message +++ "}" +++ "}" +++ EmptyString
              = ("{" +++ member "message" +++ quote message +++ "}") +++ "}" +++ EmptyString)
    by (rewrite !append_assoc; reflexivity).
  rewrite E.
  rewrite (parse_members_last _ _ "mfa"
             ("{" +++ member "message" +++ quote message +++ "}")
             (Object [("message", Str message)]) EmptyString); [reflexivity|reflexivity| |].
  - rewrite !append_assoc. reflexivity.
  - rewrite !append_assoc.
    rewrite parse_value_object by (unfold maxNestingDepth; lia).
    erewrite parse_members_last;
      [ reflexivity | reflexivity | apply skip_ws_quote
        | apply parse_value_quote; assumption ].
Qed.

(** X26. For status 201, every access token and every message of a challenge
    of type ["device"] are read from the text of the body as they are. *)
Theorem decode_device_body (token message : string) :
  utf8.ValidString token = true ->
  utf8.ValidString message = true ->
  unmarshalPostMFA 201 (device_body token message)
  = (None,
     Some (mfaResponse.mk token "device" (mfaDevice.mk message) [] [] []),
     None).
Proof.
  intros Ht Hm. unfold unmarshalPostMFA, Unmarshal. cbn [Z.eqb Pos.eqb].
  rewrite (parse_device_body _ _ Ht Hm). reflexivity.
Qed.

Lemma decode_device_body_witness :
  unmarshalPostMFA 201
    (js "{'access_token':'tok','type':'device','mfa':{'message':'Code sent to t..t@plaid.com'}}")
  = (None,
     Some (mfaResponse.mk "tok" "device" (mfaDevice.mk "Code sent to t..t@plaid.com")
             [] [] []),
     None).
Proof.
  apply (decode_device_body "tok" "Code sent to t..t@plaid.com"); reflexivity.
Defined.
